(** * ctfcli: the challenge reconciliation engine

    A shallow embedding of [ctfcli/core/challenge.py]: the class [Challenge]
    (a Python [dict] subclass) and its operations [create], [sync],
    [verify], [mirror] and [save], with the helpers they call.

    - Python values (what YAML and JSON give) are the inductive [value];
      numbers are integers ([Z]); floating-point numbers are outside the model.
    - A [dict] keeps insertion order: it is an association list with the
      insertion discipline of Python ([dict_set]), and [==] on dicts ignores
      the order ([py_eq]).
    - Text is ASCII: a [string] is a sequence of code points below 128.
    - The remote service is an arbitrary deterministic oracle [remote] from
      the history of requests (newest first) to the outcome of the newest one;
      every request the code issues is recorded in [calls].
    - Exceptions keep the mutations made before they were raised: a
      computation is a function [world -> result A * world].
    - The disk is read as a map from paths below the challenge directory;
      what [mirror] and [save] write goes through a file system and a YAML
      writer that are parameters, like the remote. *)

From Stdlib Require Import ZArith List String Ascii Bool Lia Sorted.
Import ListNotations.
Local Open Scope string_scope.
Local Open Scope list_scope.

Set Implicit Arguments.
Set Warnings "-register-all".

(** ** Python values *)

Inductive value : Type :=
| VNone
| VBool (b : bool)
| VInt (z : Z)
| VStr (s : string)
| VList (l : list value)
| VDict (d : list (string * value)).

Definition dict := list (string * value).
Definition bytes := list Byte.byte.

(** The exceptions the embedded code can raise.  The three first ones are
    [ctfcli.core.exceptions]; the others are Python's and [requests]'. *)
Inductive fragment := Lit (s : string) | Fmt (v : value).
Definition message := list fragment.

Inductive exn :=
| InvalidChallengeDefinition (m : message)
| InvalidChallengeFile (m : message)
| RemoteChallengeNotFound (m : message)
| HTTPError
| ConnectionError
| JSONDecodeError
| KeyError
| IndexError
| TypeError
| AttributeError
| UnboundLocalError (name : string)
| OSError.

Inductive result (A : Type) : Type :=
| Ok (a : A)
| Raise (e : exn).
Arguments Ok {A} a.
Arguments Raise {A} e.

Module Res.
Definition bind {A B} (r : result A) (k : A -> result B) : result B :=
  match r with
  | Ok a => k a
  | Raise e => Raise e
  end.

Fixpoint mapM {A B} (f : A -> result B) (l : list A) : result (list B) :=
  match l with
  | [] => Ok []
  | x :: l' =>
      bind (f x) (fun y => bind (mapM f l') (fun ys => Ok (y :: ys)))
  end.
End Res.

Declare Scope res_scope.
Delimit Scope res_scope with res.
Notation "x <- c ;; k" := (Res.bind c (fun x => k))
  (at level 61, c at next level, right associativity) : res_scope.
Notation "c ;; k" := (Res.bind c (fun _ => k))
  (at level 61, right associativity) : res_scope.

(** ** Association lists with Python's insertion order *)

Section AList.
Variable V : Type.

Fixpoint dict_get (d : list (string * V)) (k : string) : option V :=
  match d with
  | [] => None
  | (k', v) :: d' => if String.eqb k' k then Some v else dict_get d' k
  end.

Definition dict_mem (d : list (string * V)) (k : string) : bool :=
  match dict_get d k with
  | Some _ => true
  | None => false
  end.

(** [d[k] = v]: an existing key keeps its position, a new one goes last. *)
Fixpoint dict_set (d : list (string * V)) (k : string) (v : V)
  : list (string * V) :=
  match d with
  | [] => [(k, v)]
  | (k', v') :: d' =>
      if String.eqb k' k then (k', v) :: d' else (k', v') :: dict_set d' k v
  end.

(** [{**a, **b}] *)
Definition dict_merge (a b : list (string * V)) : list (string * V) :=
  fold_left (fun acc kv => dict_set acc (fst kv) (snd kv)) b a.

Definition dict_keys (d : list (string * V)) : list string := map fst d.
End AList.

Definition get_or (d : dict) (k : string) (dflt : value) : value :=
  match dict_get d k with
  | Some v => v
  | None => dflt
  end.

(** ** Equality, truth and type tests *)

Fixpoint py_eq (a b : value) {struct a} : bool :=
  match a, b with
  | VNone, VNone => true
  | VBool x, VBool y => Bool.eqb x y
  | VBool x, VInt y => Z.eqb (Z.b2z x) y
  | VInt x, VBool y => Z.eqb x (Z.b2z y)
  | VInt x, VInt y => Z.eqb x y
  | VStr x, VStr y => String.eqb x y
  | VList x, VList y =>
      (fix go (x y : list value) {struct x} : bool :=
         match x, y with
         | [], [] => true
         | a' :: x', b' :: y' => py_eq a' b' && go x' y'
         | _, _ => false
         end) x y
  | VDict x, VDict y =>
      Nat.eqb (List.length x) (List.length y) &&
      (fix go (x : list (string * value)) {struct x} : bool :=
         match x with
         | [] => true
         | (k, v) :: x' =>
             match dict_get y k with
             | Some v' => py_eq v v'
             | None => false
             end && go x'
         end) x
  | _, _ => false
  end.

(** [bool(v)] *)
Definition truthy (v : value) : bool :=
  match v with
  | VNone => false
  | VBool b => b
  | VInt z => negb (Z.eqb z 0)
  | VStr s => negb (String.eqb s "")
  | VList l => match l with [] => false | _ => true end
  | VDict d => match d with [] => false | _ => true end
  end.

(** [a or b] *)
Definition py_or (a b : value) : value := if truthy a then a else b.

Definition is_none (v : value) : bool :=
  match v with VNone => true | _ => false end.
Definition is_str (v : value) : bool :=
  match v with VStr _ => true | _ => false end.
(** [type(v) == int]: a [bool] is not an [int] for this test. *)
Definition is_int (v : value) : bool :=
  match v with VInt _ => true | _ => false end.
Definition is_dict (v : value) : bool :=
  match v with VDict _ => true | _ => false end.

Definition hashable (v : value) : bool :=
  match v with VList _ | VDict _ => false | _ => true end.

(** [x in l] for a list [l] *)
Definition py_mem (x : value) (l : list value) : bool := existsb (py_eq x) l.

(** [l.remove(x)] once [x in l] holds: the first equal element goes. *)
Fixpoint py_remove (x : value) (l : list value) : list value :=
  match l with
  | [] => []
  | y :: l' => if py_eq y x then l' else y :: py_remove x l'
  end.

(** ** Text: the [str] methods the code calls *)

Module Text.
Definition TAB : ascii := "009"%char.
Definition LF : ascii := "010"%char.
Definition CR : ascii := "013"%char.
Definition CRLF : string := String CR (String LF "").
Definition QUOTE : string := String "034"%char "".

(** The ASCII characters [str.strip()] removes. *)
Definition is_space (c : ascii) : bool :=
  let n := nat_of_ascii c in
  (((9 <=? n) && (n <=? 13)) || ((28 <=? n) && (n <=? 32)))%nat.

Definition is_digit (c : ascii) : bool :=
  let n := nat_of_ascii c in ((48 <=? n) && (n <=? 57))%nat.

Fixpoint rev_onto (s acc : string) : string :=
  match s with
  | EmptyString => acc
  | String c s' => rev_onto s' (String c acc)
  end.
Definition rev (s : string) : string := rev_onto s "".

Fixpoint lstrip (s : string) : string :=
  match s with
  | EmptyString => EmptyString
  | String c s' => if is_space c then lstrip s' else s
  end.

(** [s.strip()] *)
Definition strip (s : string) : string := rev (lstrip (rev (lstrip s))).

(** [s.replace(old, new)] for a non-empty [old]: occurrences are found from
    the left and do not overlap; [skip] counts the characters of an
    occurrence still to pass. *)
Fixpoint replace_from (old new s : string) (skip : nat) : string :=
  match s with
  | EmptyString => EmptyString
  | String c s' =>
      match skip with
      | S k => replace_from old new s' k
      | O =>
          if String.prefix old s
          then new ++ replace_from old new s' (String.length old - 1)%nat
          else String c (replace_from old new s' 0)
      end
  end.
Definition replace (old new s : string) : string := replace_from old new s 0.

(** [s.split(sep)] for a non-empty [sep]; [cur] is the piece being read,
    reversed. *)
Fixpoint split_from (sep s : string) (skip : nat) (cur : string)
  : list string :=
  match s with
  | EmptyString => [rev cur]
  | String c s' =>
      match skip with
      | S k => split_from sep s' k cur
      | O =>
          if String.prefix sep s
          then rev cur :: split_from sep s' (String.length sep - 1)%nat ""
          else split_from sep s' 0 (String c cur)
      end
  end.
Definition split (sep s : string) : list string := split_from sep s 0 "".

(** [sub in s] *)
Fixpoint contains (sub s : string) : bool :=
  String.prefix sub s ||
  match s with
  | EmptyString => false
  | String _ s' => contains sub s'
  end.

(** [s.isdigit()], on ASCII text *)
Fixpoint all_digits (s : string) : bool :=
  match s with
  | EmptyString => true
  | String c s' => is_digit c && all_digits s'
  end.
Definition isdigit (s : string) : bool :=
  negb (String.eqb s "") && all_digits s.

(** [int(s)] for a string of digits *)
Fixpoint int_from (s : string) (acc : Z) : Z :=
  match s with
  | EmptyString => acc
  | String c s' => int_from s' (10 * acc + Z.of_nat (nat_of_ascii c - 48))%Z
  end.
Definition to_int (s : string) : Z := int_from s 0%Z.

Definition chars (s : string) : list string :=
  map (fun c => String c "") (list_ascii_of_string s).

(** [l[-1]] and [l[-2]] *)
Definition last1 (l : list string) : option string :=
  match List.rev l with
  | x :: _ => Some x
  | [] => None
  end.
Definition last2 (l : list string) : option string :=
  match List.rev l with
  | _ :: x :: _ => Some x
  | _ => None
  end.

(** [Path(f).name] on a POSIX path: the last component, where empty
    components and [.] do not count. *)
Definition path_name (f : string) : string :=
  match last1 (filter (fun p => negb (String.eqb p "" || String.eqb p "."))
                      (split "/" f)) with
  | Some n => n
  | None => ""
  end.
End Text.

Example strip_ex :
  Text.strip (String Text.TAB " a b " ++ Text.CRLF) = "a b".
Proof. reflexivity. Qed.

Example replace_ex :
  Text.replace Text.CRLF (String Text.LF "") ("a" ++ Text.CRLF ++ "b")
  = String "a" (String Text.LF "b").
Proof. reflexivity. Qed.

Example split_ex :
  Text.split "?token=" "/files/ab/c.txt?token=xyz" = ["/files/ab/c.txt"; "xyz"]
  /\ Text.split "/" "/files/ab/c.txt" = [""; "files"; "ab"; "c.txt"]
  /\ Text.split "/" "c.txt" = ["c.txt"].
Proof. repeat split; reflexivity. Qed.

Example path_name_ex :
  Text.path_name "dist/a.txt" = "a.txt" /\ Text.path_name "dist/" = "dist".
Proof. split; reflexivity. Qed.

(** ** Python operations that can raise *)

(** [v[k]] for a string [k] *)
Definition subscript (v : value) (k : string) : result value :=
  match v with
  | VDict d =>
      match dict_get d k with
      | Some x => Ok x
      | None => Raise KeyError
      end
  | _ => Raise TypeError
  end.

(** [v.get(k, dflt)] *)
Definition py_get (v : value) (k : string) (dflt : value) : result value :=
  match v with
  | VDict d => Ok (get_or d k dflt)
  | _ => Raise AttributeError
  end.

(** [for x in v] *)
Definition py_iter (v : value) : result (list value) :=
  match v with
  | VList l => Ok l
  | VStr s => Ok (map VStr (Text.chars s))
  | VDict d => Ok (map VStr (dict_keys d))
  | _ => Raise TypeError
  end.

(** [x in c] *)
Definition py_contains (x c : value) : result bool :=
  match c with
  | VList l => Ok (py_mem x l)
  | VDict d =>
      match x with
      | VStr k => Ok (dict_mem d k)
      | VList _ | VDict _ => Raise TypeError
      | _ => Ok false
      end
  | VStr s =>
      match x with
      | VStr sub => Ok (Text.contains sub s)
      | _ => Raise TypeError
      end
  | _ => Raise TypeError
  end.

(** [len(v) > 0] *)
Definition py_nonempty (v : value) : result bool :=
  match v with
  | VList _ | VStr _ | VDict _ => Ok (truthy v)
  | _ => Raise TypeError
  end.

Definition as_num (v : value) : option Z :=
  match v with
  | VInt z => Some z
  | VBool b => Some (Z.b2z b)
  | _ => None
  end.

(** [v > 0] *)
Definition py_positive (v : value) : result bool :=
  match as_num v with
  | Some z => Ok (0 <? z)%Z
  | None => Raise TypeError
  end.

(** The receiver of a [str] method: anything else has no such attribute. *)
Definition as_str (v : value) : result string :=
  match v with
  | VStr s => Ok s
  | _ => Raise AttributeError
  end.

(** A path component given to [pathlib]: anything but a string is refused. *)
Definition as_path (v : value) : result string :=
  match v with
  | VStr s => Ok s
  | _ => Raise TypeError
  end.

(** [set(l)]: the elements must be hashable; the result is used for
    membership only. *)
Fixpoint dedup (l : list value) : list value :=
  match l with
  | [] => []
  | x :: l' => if py_mem x l' then dedup l' else x :: dedup l'
  end.

Definition py_set (l : list value) : result (list value) :=
  if forallb hashable l then Ok (dedup l) else Raise TypeError.

(** [l.sort()].  Integers (and booleans) sort by value and strings by code
    point; the sort is stable.  A list of at most one element needs no
    comparison.  Any other list is refused with [TypeError], as Python does
    for [None], for dicts and for any mix of numbers and strings.  Python
    also orders lists whose elements are themselves lists, element by
    element; such lists are outside of this model, which refuses them
    too.  They can only reach [sort] as requirements that are neither
    names nor ids (in [_compare_challenge_requirements]). *)
Section Sort.
Variable A : Type.
Variable leb : A -> A -> bool.

Fixpoint insert_sorted (x : A) (l : list A) : list A :=
  match l with
  | [] => [x]
  | y :: l' => if leb x y then x :: l else y :: insert_sorted x l'
  end.

Definition insertion_sort (l : list A) : list A :=
  fold_right insert_sorted [] l.
End Sort.

Definition num_leb (a b : value) : bool :=
  match as_num a, as_num b with
  | Some x, Some y => (x <=? y)%Z
  | _, _ => false
  end.

Definition str_leb (a b : value) : bool :=
  match a, b with
  | VStr x, VStr y => String.leb x y
  | _, _ => false
  end.

Definition is_num (v : value) : bool :=
  match as_num v with Some _ => true | None => false end.

Definition py_sort (l : list value) : result (list value) :=
  match l with
  | [] | [_] => Ok l
  | _ =>
      if forallb is_num l then Ok (insertion_sort num_leb l)
      else if forallb is_str l then Ok (insertion_sort str_leb l)
      else Raise TypeError
  end.

Example py_sort_ex :
  py_sort [VInt 3; VInt 1; VInt 2; VInt 1] = Ok [VInt 1; VInt 1; VInt 2; VInt 3]
  /\ py_sort [VStr "b"; VStr "a"] = Ok [VStr "a"; VStr "b"]
  /\ py_sort [VInt 1; VStr "a"] = Raise TypeError.
Proof. repeat split; reflexivity. Qed.

(** ** The remote service, the disk and the state of an operation *)

(** A request path: a literal, or an f-string with one interpolated value,
    as in [f"/api/v1/flags/{flag['id']}"]. *)
Inductive url :=
| Url (s : string)
| UrlId (pre : string) (id : value) (post : string).

(** What a [POST] carries: [json=...], or [files=..., data=...] (a multipart
    form with the opened files, each with its path and content). *)
Inductive body :=
| Json (v : value)
| Multipart (files : list (string * bytes)) (data : value).

Inductive call :=
| GET (u : url)
| POST (u : url) (b : body)
| PATCH (u : url) (json : value)
| DELETE (u : url).

(** A [requests] response: [r.ok], [r.json()] ([None] when the body is not
    JSON, where [r.json()] raises) and [r.content]. *)
Record response := mkResponse {
  ok : bool;
  json : option value;
  content : bytes
}.

Inductive outcome :=
| Responded (r : response)
| Unreachable.

(** What is found at [challenge_directory / path]. *)
Inductive node :=
| File (c : bytes)
| Directory.

Record world := mkWorld {
  doc : dict;                  (* the mapping [self] *)
  challenge_id : value;        (* [self.challenge_id] *)
  calls : list call;           (* the requests issued, newest first *)
  echoed : list message;       (* what [click.secho] printed, newest first *)
  disk : string -> option node
}.

Definition set_doc (d : dict) (w : world) : world :=
  mkWorld d (challenge_id w) (calls w) (echoed w) (disk w).
Definition set_id (i : value) (w : world) : world :=
  mkWorld (doc w) i (calls w) (echoed w) (disk w).
Definition add_call (c : call) (w : world) : world :=
  mkWorld (doc w) (challenge_id w) (c :: calls w) (echoed w) (disk w).
Definition add_echo (m : message) (w : world) : world :=
  mkWorld (doc w) (challenge_id w) (calls w) (m :: echoed w) (disk w).

(** ** The monad of operations: state, and exceptions that keep it *)

Definition M (A : Type) : Type := world -> result A * world.

Definition ret {A} (a : A) : M A := fun w => (Ok a, w).
Definition raise {A} (e : exn) : M A := fun w => (Raise e, w).
Definition bind {A B} (m : M A) (k : A -> M B) : M B :=
  fun w =>
    match m w with
    | (Ok a, w') => k a w'
    | (Raise e, w') => (Raise e, w')
    end.
Definition lift {A} (r : result A) : M A := fun w => (r, w).
Definition gets {A} (f : world -> A) : M A := fun w => (Ok (f w), w).
Definition modify (f : world -> world) : M unit := fun w => (Ok tt, f w).

Declare Scope op_scope.
Delimit Scope op_scope with op.
Notation "x <- c ;; k" := (bind c (fun x => k))
  (at level 61, c at next level, right associativity) : op_scope.
Notation "c ;; k" := (bind c (fun _ => k))
  (at level 61, right associativity) : op_scope.
Local Open Scope op_scope.

(** [for x in l: body(x)], without [break] *)
Fixpoint for_each {A} (l : list A) (f : A -> M unit) : M unit :=
  match l with
  | [] => ret tt
  | x :: l' => f x ;; for_each l' f
  end.

Definition when (b : bool) (m : M unit) : M unit := if b then m else ret tt.

(** [click.secho(msg, fg="yellow")] *)
Definition secho (m : message) : M unit := modify (add_echo m).

(** [self[k]] and [self.get(k, dflt)] *)
Definition self_item (k : string) : M value :=
  d <- gets doc ;; lift (subscript (VDict d) k).
Definition self_get (k : string) (dflt : value) : M value :=
  d <- gets doc ;; ret (get_or d k dflt).
Definition self_set (k : string) (v : value) : M unit :=
  modify (fun w => set_doc (dict_set (doc w) k v) w).

(** [k in ignore] *)
Definition ignored (ignore : list string) (k : string) : bool :=
  existsb (String.eqb k) ignore.

(** [open(challenge_directory / path, "rb")] and reading it *)
Definition read_file (path : string) : M bytes :=
  d <- gets disk ;;
  match d path with
  | Some (File c) => ret c
  | _ => raise OSError
  end.

(** [(challenge_directory / path).exists()] *)
Definition path_exists (path : string) : M bool :=
  d <- gets disk ;;
  ret (match d path with Some _ => true | None => false end).

Definition raise_for_status (r : response) : M unit :=
  if ok r then ret tt else raise HTTPError.

Definition json_of (r : response) : M value :=
  match json r with
  | Some v => ret v
  | None => raise JSONDecodeError
  end.

Section Challenge.
(** The remote service: the outcome of the newest request of a history. *)
Variable remote : list call -> outcome.
(** [ctfcli.utils.hashing.hash_file]: the checksum (SHA-1, as hexadecimal
    text) of a file's content. *)
Variable hash_file : bytes -> string.

Definition request (c : call) : M response :=
  fun w =>
    let w' := add_call c w in
    match remote (calls w') with
    | Responded r => (Ok r, w')
    | Unreachable => (Raise ConnectionError, w')
    end.

(** [Challenge.load_installed_challenge] *)
Definition load_installed_challenge (id : value) : M value :=
  r <- request (GET (UrlId "/api/v1/challenges/" id "?view=admin")) ;;
  if negb (ok r) then
    raise (RemoteChallengeNotFound
             [Lit "Could not load challenge with id="; Fmt id])
  else
    j <- json_of r ;;
    installed_challenge <- lift (py_get j "data" VNone) ;;
    if negb (truthy installed_challenge) then
      raise (RemoteChallengeNotFound
               [Lit "Could not load challenge with id="; Fmt id])
    else ret installed_challenge.

(** [Challenge.load_installed_challenges] *)
Definition load_installed_challenges : M value :=
  r <- request (GET (Url "/api/v1/challenges?view=admin")) ;;
  if negb (ok r) then ret (VList [])
  else
    j <- json_of r ;;
    installed_challenges <- lift (py_get j "data" VNone) ;;
    if negb (truthy installed_challenges) then ret (VList [])
    else ret installed_challenges.

(** [Challenge.is_default_challenge_property] *)
Definition is_default_challenge_property (key : string) (v : value) : bool :=
  if String.eqb key "connection_info" && is_none v then true
  else if String.eqb key "attempts" && py_eq v (VInt 0) then true
  else if String.eqb key "state" && py_eq v (VStr "visible") then true
  else if String.eqb key "type" && py_eq v (VStr "standard") then true
  else if existsb (String.eqb key)
            ["tags"; "hints"; "topics"; "requirements"; "files"]
          && py_eq v (VList []) then true
  else if String.eqb key "requirements"
          && py_eq v (VDict [("prerequisites", VList []);
                             ("anonymize", VBool false)]) then true
  else if String.eqb key "next" && is_none v then true
  else false.

(** [Challenge._load_challenge_id]: the loop, which stops at the first
    remote challenge of that name. *)
Fixpoint load_challenge_id_loop (remote_challenges : list value) : M unit :=
  match remote_challenges with
  | [] => ret tt
  | inspected_challenge :: rest =>
      n <- lift (subscript inspected_challenge "name") ;;
      mine <- self_item "name" ;;
      if py_eq n mine then
        i <- lift (subscript inspected_challenge "id") ;;
        modify (set_id i)
      else load_challenge_id_loop rest
  end.

Definition _load_challenge_id : M unit :=
  remote_challenges <- load_installed_challenges ;;
  if negb (truthy remote_challenges) then
    raise (RemoteChallengeNotFound
             [Lit "Could not load any remote challenges"])
  else
    l <- lift (py_iter remote_challenges) ;;
    load_challenge_id_loop l ;;
    cid <- gets challenge_id ;;
    if is_none cid then
      mine <- self_item "name" ;;
      raise (RemoteChallengeNotFound
               [Lit "Could not load remote challenge with name '";
                Fmt mine; Lit "'"])
    else ret tt.

(** [Challenge._validate_files] *)
Definition _validate_files : M unit :=
  f <- self_get "files" VNone ;;
  files <- lift (py_iter (py_or f (VList []))) ;;
  for_each files (fun challenge_file =>
    p <- lift (as_path challenge_file) ;;
    e <- path_exists p ;;
    if negb e then
      raise (InvalidChallengeFile
               [Lit "File "; Fmt challenge_file;
                Lit " could not be loaded"])
    else ret tt).

(** [{**payload, **m}]: [m] has to be a mapping. *)
Definition as_mapping (v : value) : result dict :=
  match v with
  | VDict d => Ok d
  | _ => Raise TypeError
  end.

(** [Challenge._get_initial_challenge_payload] *)
Definition _get_initial_challenge_payload (ignore : list string) : M dict :=
  name <- self_item "name" ;;
  challenge <- gets doc ;;
  let challenge_payload :=
    [("name", name);
     ("category", get_or challenge "category" (VStr ""));
     ("description", get_or challenge "description" (VStr ""));
     ("attribution", get_or challenge "attribution" (VStr ""));
     ("type", get_or challenge "type" (VStr "standard"));
     (* Hide the challenge for the duration of the sync / creation *)
     ("state", VStr "hidden")] in
  let challenge_payload :=
    let v := get_or challenge "value" VNone in
    if negb (is_none v) then
      let challenge_payload :=
        match v with
        | VStr s =>
            if Text.isdigit s
            then dict_set challenge_payload "value" (VInt (Text.to_int s))
            else challenge_payload
        | _ => challenge_payload
        end in
      (* [if type(challenge["value"] == int):] tests the type of a
         boolean, a class, which is true *)
      dict_set challenge_payload "value" v
    else challenge_payload in
  let challenge_payload :=
    if negb (ignored ignore "attempts")
    then dict_set challenge_payload "max_attempts"
           (get_or challenge "attempts" (VInt 0))
    else challenge_payload in
  let challenge_payload :=
    if negb (ignored ignore "connection_info")
    then dict_set challenge_payload "connection_info"
           (get_or challenge "connection_info" VNone)
    else challenge_payload in
  challenge_payload <-
    (if negb (ignored ignore "extra") then
       extra <- lift (as_mapping (get_or challenge "extra" (VDict []))) ;;
       ret (dict_merge challenge_payload extra)
     else ret challenge_payload) ;;
  challenge_payload <-
    (if negb (ignored ignore "geo_flags") then
       geo <- lift (as_mapping (get_or challenge "geo_flags" (VDict []))) ;;
       ret (dict_merge challenge_payload geo)
     else ret challenge_payload) ;;
  ret challenge_payload.

(** The pattern of [_delete_existing_flags], [_delete_existing_tags] and
    [_delete_existing_hints]: list a collection and delete the entries of
    this challenge. *)
Definition delete_existing_of (collection : string) : M unit :=
  r <- request (GET (Url collection)) ;;
  j <- json_of r ;;
  d <- lift (subscript j "data") ;;
  items <- lift (py_iter d) ;;
  for_each items (fun item =>
    c <- lift (subscript item "challenge_id") ;;
    cid <- gets challenge_id ;;
    if py_eq c cid then
      i <- lift (subscript item "id") ;;
      r <- request (DELETE (UrlId (collection ++ "/") i "")) ;;
      raise_for_status r
    else ret tt).

(** [Challenge._delete_existing_flags] *)
Definition _delete_existing_flags : M unit :=
  delete_existing_of "/api/v1/flags".

(** [Challenge._create_flags] *)
Definition _create_flags : M unit :=
  f <- self_item "flags" ;;
  flags <- lift (py_iter f) ;;
  for_each flags (fun flag =>
    cid <- gets challenge_id ;;
    flag_payload <-
      (if is_str flag then
         ret [("content", flag); ("type", VStr "static");
              ("challenge_id", cid)]
       else
         m <- lift (as_mapping flag) ;;
         ret (dict_set m "challenge_id" cid)) ;;
    r <- request (POST (Url "/api/v1/flags") (Json (VDict flag_payload))) ;;
    raise_for_status r).

(** [Challenge._delete_existing_topics] *)
Definition _delete_existing_topics : M unit :=
  cid <- gets challenge_id ;;
  r <- request (GET (UrlId "/api/v1/challenges/" cid "/topics")) ;;
  j <- json_of r ;;
  d <- lift (subscript j "data") ;;
  remote_topics <- lift (py_iter d) ;;
  for_each remote_topics (fun topic =>
    i <- lift (subscript topic "id") ;;
    r <- request
           (DELETE (UrlId "/api/v1/topics?type=challenge&target_id=" i "")) ;;
    raise_for_status r).

(** [Challenge._create_topics] *)
Definition _create_topics : M unit :=
  t <- self_item "topics" ;;
  topics <- lift (py_iter t) ;;
  for_each topics (fun topic =>
    cid <- gets challenge_id ;;
    r <- request
           (POST (Url "/api/v1/topics")
              (Json (VDict [("value", topic); ("type", VStr "challenge");
                            ("challenge_id", cid)]))) ;;
    raise_for_status r).

(** [Challenge._delete_existing_tags] *)
Definition _delete_existing_tags : M unit :=
  delete_existing_of "/api/v1/tags".

(** [Challenge._create_tags] *)
Definition _create_tags : M unit :=
  t <- self_item "tags" ;;
  tags <- lift (py_iter t) ;;
  for_each tags (fun tag =>
    cid <- gets challenge_id ;;
    r <- request
           (POST (Url "/api/v1/tags")
              (Json (VDict [("challenge_id", cid); ("value", tag)]))) ;;
    raise_for_status r).

(** [Challenge._delete_file] *)
Definition _delete_file (remote_location : string) : M unit :=
  r <- request (GET (Url "/api/v1/files?type=challenge")) ;;
  j <- json_of r ;;
  d <- lift (subscript j "data") ;;
  remote_files <- lift (py_iter d) ;;
  for_each remote_files (fun remote_file =>
    l <- lift (subscript remote_file "location") ;;
    if py_eq l (VStr remote_location) then
      i <- lift (subscript remote_file "id") ;;
      r <- request (DELETE (UrlId "/api/v1/files/" i "")) ;;
      raise_for_status r
    else ret tt).

Definition files_form : M value :=
  cid <- gets challenge_id ;;
  ret (VDict [("challenge_id", cid); ("type", VStr "challenge")]).

(** [Challenge._create_file] *)
Definition _create_file (local_path : string) : M unit :=
  c <- read_file local_path ;;
  file_payload <- files_form ;;
  (* Specifically use data= here to send multipart/form-data *)
  r <- request
         (POST (Url "/api/v1/files")
            (Multipart [(local_path, c)] file_payload)) ;;
  raise_for_status r.

Fixpoint open_all (files : list value) : M (list (string * bytes)) :=
  match files with
  | [] => ret []
  | challenge_file :: rest =>
      p <- lift (as_path challenge_file) ;;
      c <- read_file p ;;
      opened <- open_all rest ;;
      ret ((p, c) :: opened)
  end.

(** [Challenge._create_all_files] *)
Definition _create_all_files : M unit :=
  f <- self_get "files" VNone ;;
  files <- lift (py_iter (py_or f (VList []))) ;;
  new_files <- open_all files ;;
  files_payload <- files_form ;;
  r <- request
         (POST (Url "/api/v1/files") (Multipart new_files files_payload)) ;;
  raise_for_status r.

(** [Challenge._delete_existing_hints] *)
Definition _delete_existing_hints : M unit :=
  delete_existing_of "/api/v1/hints".

(** [Challenge._create_hints] *)
Definition _create_hints : M unit :=
  h <- self_item "hints" ;;
  hints <- lift (py_iter h) ;;
  for_each hints (fun hint =>
    cid <- gets challenge_id ;;
    hint_payload <-
      (if is_str hint then
         ret [("content", hint); ("title", VStr ""); ("cost", VInt 0);
              ("challenge_id", cid)]
       else
         c <- lift (subscript hint "content") ;;
         t <- lift (py_get hint "title" (VStr "")) ;;
         k <- lift (py_get hint "cost" (VInt 0)) ;;
         ret [("content", c); ("title", t); ("cost", k);
              ("challenge_id", cid)]) ;;
    r <- request (POST (Url "/api/v1/hints") (Json (VDict hint_payload))) ;;
    raise_for_status r).

Definition challenge_url : M url :=
  cid <- gets challenge_id ;;
  ret (UrlId "/api/v1/challenges/" cid "").

(** The inner loop of [_set_required_challenges] and the loop of
    [_set_next]: the id of the first remote challenge of that name. *)
Fixpoint find_id_by_name (remote_challenges : list value) (name : value)
  : result (option value) :=
  match remote_challenges with
  | [] => Ok None
  | remote_challenge :: rest =>
      (n <- subscript remote_challenge "name" ;;
       if py_eq n name then
         i <- subscript remote_challenge "id" ;; Ok (Some i)
       else find_id_by_name rest name)%res
  end.

(** The outer loop of [_set_required_challenges]: [required_challenges]
    grows by [append]. *)
Fixpoint resolve_requirements (remote_challenges : value)
    (rc : list value) (required_challenges : list value)
  : M (list value) :=
  match rc with
  | [] => ret required_challenges
  | required_challenge :: rest =>
      if is_str required_challenge then
        (* requirement by name *)
        l <- lift (py_iter remote_challenges) ;;
        found <- lift (find_id_by_name l required_challenge) ;;
        match found with
        | Some i =>
            resolve_requirements remote_challenges rest
              (required_challenges ++ [i])
        | None =>
            secho [Lit "Challenge id cannot be found. Skipping invalid requirement name ";
                   Lit Text.QUOTE; Fmt required_challenge;
                   Lit Text.QUOTE; Lit "."] ;;
            resolve_requirements remote_challenges rest required_challenges
        end
      else if is_int required_challenge then
        (* requirement by challenge id: trust it and use it directly *)
        resolve_requirements remote_challenges rest
          (required_challenges ++ [required_challenge])
      else resolve_requirements remote_challenges rest required_challenges
  end.

(** [Challenge._set_required_challenges] *)
Definition _set_required_challenges : M unit :=
  remote_challenges <- load_installed_challenges ;;
  requirements <- self_item "requirements" ;;
  ra <- (if is_dict requirements then
           rc <- lift (py_get requirements "prerequisites" (VList [])) ;;
           anonymize <- lift (py_get requirements "anonymize" (VBool false)) ;;
           ret (rc, anonymize)
         else ret (requirements, VBool false)) ;;
  let (rc, anonymize) := ra : value * value in
  l <- lift (py_iter rc) ;;
  required_challenges <- resolve_requirements remote_challenges l [] ;;
  required_challenge_ids <- lift (py_set required_challenges) ;;
  cid <- gets challenge_id ;;
  required_challenges <-
    (if py_mem cid required_challenge_ids then
       secho [Lit "Challenge cannot require itself. Skipping invalid requirement."] ;;
       ret (py_remove cid required_challenges)
     else ret required_challenges) ;;
  required_challenges <- lift (py_sort required_challenges) ;;
  let requirements_payload :=
    VDict [("requirements",
            VDict [("prerequisites", VList required_challenges);
                   ("anonymize", anonymize)])] in
  u <- challenge_url ;;
  r <- request (PATCH u requirements_payload) ;;
  raise_for_status r.

(** A local variable that no statement executed so far has bound. *)
Definition unbound_local (name : string) : M value :=
  raise (UnboundLocalError name).

(** [Challenge._set_next] *)
Definition _set_next (_next : value) : M unit :=
  _next <-
    (if is_str _next then
       (* nid by name *)
       remote_challenges <- load_installed_challenges ;;
       l <- lift (py_iter remote_challenges) ;;
       found <- lift (find_id_by_name l _next) ;;
       let _next := match found with Some i => i | None => _next end in
       if is_str _next then
         secho [Lit "Challenge cannot find next challenge. Maybe it is invalid name or id. It will be cleared."] ;;
         ret VNone
       else ret _next
     else if is_int _next && match _next with VInt n => (0 <? n)%Z | _ => false end then
       (* nid by challenge id: [_next = remote_challenge["id"]], where
          [remote_challenge] is the variable of the loop of the other
          branch, which this branch has not run *)
       remote_challenge <- unbound_local "remote_challenge" ;;
       lift (subscript remote_challenge "id")
     else ret VNone) ;;
  cid <- gets challenge_id ;;
  _next <-
    (if py_eq cid _next then
       secho [Lit "Challenge cannot set next challenge itself. Skipping invalid next challenge."] ;;
       ret VNone
     else ret _next) ;;
  let next_payload := VDict [("next_id", _next)] in
  u <- challenge_url ;;
  r <- request (PATCH u next_payload) ;;
  raise_for_status r.

(** [normalize_requirements], local to [_compare_challenge_requirements] *)
Fixpoint name_of_id (remote_challenges : list value) (r : value)
  : result (option value) :=
  match remote_challenges with
  | [] => Ok None
  | remote_challenge :: rest =>
      (i <- subscript remote_challenge "id" ;;
       if py_eq i r then
         n <- subscript remote_challenge "name" ;; Ok (Some n)
       else name_of_id rest r)%res
  end.

Fixpoint normalize_requirements (remote_challenges : value)
    (requirements : list value) (normalized : list value)
  : result (list value) :=
  match requirements with
  | [] => Ok normalized
  | r :: rest =>
      if is_int r then
        (l <- py_iter remote_challenges ;;
         found <- name_of_id l r ;;
         match found with
         | Some n =>
             normalize_requirements remote_challenges rest (normalized ++ [n])
         | None => normalize_requirements remote_challenges rest normalized
         end)%res
      else normalize_requirements remote_challenges rest (normalized ++ [r])
  end.

(** [Challenge._compare_challenge_requirements] *)
Definition _compare_challenge_requirements (r1 r2 : value) : M bool :=
  remote_challenges <- load_installed_challenges ;;
  l1 <- lift (py_iter r1) ;;
  nr1 <- lift (normalize_requirements remote_challenges l1 []) ;;
  nr1 <- lift (py_sort nr1) ;;
  l2 <- lift (py_iter r2) ;;
  nr2 <- lift (normalize_requirements remote_challenges l2 []) ;;
  nr2 <- lift (py_sort nr2) ;;
  ret (py_eq (VList nr1) (VList nr2)).

(** [normalize_next], local to [_compare_challenge_next] *)
Definition normalize_next (r : value) : M value :=
  match r with
  | VInt n =>
      if (0 <? n)%Z then
        remote_challenge <- load_installed_challenge r ;;
        i <- lift (subscript remote_challenge "id") ;;
        if py_eq i r then lift (subscript remote_challenge "name")
        else ret VNone
      else ret VNone
  | _ => ret r
  end.

(** [Challenge._compare_challenge_next] *)
Definition _compare_challenge_next (r1 r2 : value) : M bool :=
  n1 <- normalize_next r1 ;;
  n2 <- normalize_next r2 ;;
  ret (py_eq n1 n2).

(** [.strip().replace("\r\n", "\n").replace("\t", "")] *)
Definition normalize_text (v : value) : result value :=
  (s <- as_str v ;;
   Ok (VStr (Text.replace (String Text.TAB "") ""
               (Text.replace Text.CRLF (String Text.LF "")
                  (Text.strip s)))))%res.

Fixpoint copy_keys_loop (challenge_data : value) (keys : list string)
    (challenge : dict) : result dict :=
  match keys with
  | [] => Ok challenge
  | key :: rest =>
      (b <- py_contains (VStr key) challenge_data ;;
       if b then
         v <- subscript challenge_data key ;;
         copy_keys_loop challenge_data rest (dict_set challenge key v)
       else copy_keys_loop challenge_data rest challenge)%res
  end.

(** The loops that lift the scoring keys into [extra] and the location
    keys into [geo_flags]. *)
Fixpoint lift_keys_loop (group : string) (challenge_data : value)
    (keys : list string) (challenge : dict) : result dict :=
  match keys with
  | [] => Ok challenge
  | key :: rest =>
      (b <- py_contains (VStr key) challenge_data ;;
       if b then
         let challenge :=
           if negb (dict_mem challenge group)
           then dict_set challenge group (VDict [])
           else challenge in
         v <- subscript challenge_data key ;;
         g <- subscript (VDict challenge) group ;;
         g <- as_mapping g ;;
         lift_keys_loop group challenge_data rest
           (dict_set challenge group (VDict (dict_set g key v)))
       else lift_keys_loop group challenge_data rest challenge)%res
  end.

Definition normalize_flag (f : value) : result value :=
  (t <- subscript f "type" ;;
   bare <- (if py_eq t (VStr "static") then
              d <- subscript f "data" ;;
              if is_none d then Ok true
              else d <- subscript f "data" ;; Ok (py_eq d (VStr ""))
            else Ok false) ;;
   if bare : bool then subscript f "content"
   else
     c <- subscript f "content" ;;
     s <- as_str c ;;
     t <- subscript f "type" ;;
     d <- subscript f "data" ;;
     Ok (VDict [("content",
                 VStr (Text.replace Text.CRLF (String Text.LF "")
                         (Text.strip s)));
                ("type", t); ("data", d)]))%res.

Definition normalize_hint (h : value) : result value :=
  (c <- subscript h "cost" ;;
   p <- py_positive c ;;
   if p : bool then
     content <- subscript h "content" ;;
     cost <- subscript h "cost" ;;
     Ok (VDict [("content", content); ("cost", cost)])
   else subscript h "content")%res.

(** [r = self.api.get(f".../{self.challenge_id}/<part>")],
    [r.raise_for_status()] *)
Definition get_part (part : string) : M response :=
  cid <- gets challenge_id ;;
  r <- request (GET (UrlId "/api/v1/challenges/" cid part)) ;;
  raise_for_status r ;;
  ret r.

(** [[c["name"] for c in challenges if c["id"] in requirements]] *)
Fixpoint names_of_required (challenges : list value) (requirements : value)
  : result (list value) :=
  match challenges with
  | [] => Ok []
  | c :: rest =>
      (i <- subscript c "id" ;;
       b <- py_contains i requirements ;;
       if b : bool then
         n <- subscript c "name" ;;
         ns <- names_of_required rest requirements ;;
         Ok (n :: ns)
       else names_of_required rest requirements)%res
  end.

(** [Challenge._normalize_challenge] *)
Definition _normalize_challenge (challenge_data : value) : M dict :=
  challenge <- lift (copy_keys_loop challenge_data
                       ["name"; "category"; "attribution"; "value"; "type";
                        "state"; "connection_info"] []) ;;
  d <- lift (subscript challenge_data "description") ;;
  d <- lift (normalize_text d) ;;
  let challenge := dict_set challenge "description" d in
  a <- lift (py_get challenge_data "attribution" (VStr "")) ;;
  a <- lift (normalize_text a) ;;
  let challenge := dict_set challenge "attribution" a in
  m <- lift (subscript challenge_data "max_attempts") ;;
  let challenge := dict_set challenge "attempts" m in
  challenge <- lift (lift_keys_loop "extra" challenge_data
                       ["initial"; "decay"; "minimum"] challenge) ;;
  challenge <- lift (lift_keys_loop "geo_flags" challenge_data
                       ["latitude"; "longitude"; "tolerance_radius"]
                       challenge) ;;
  (* Add flags *)
  r <- get_part "/flags" ;;
  j <- json_of r ;;
  flags <- lift (subscript j "data") ;;
  flags <- lift (py_iter flags) ;;
  flags <- lift (Res.mapM normalize_flag flags) ;;
  let challenge := dict_set challenge "flags" (VList flags) in
  (* Add tags *)
  r <- get_part "/tags" ;;
  j <- json_of r ;;
  tags <- lift (subscript j "data") ;;
  tags <- lift (py_iter tags) ;;
  tags <- lift (Res.mapM (fun t => subscript t "value") tags) ;;
  let challenge := dict_set challenge "tags" (VList tags) in
  (* Add hints *)
  r <- get_part "/hints" ;;
  j <- json_of r ;;
  hints <- lift (subscript j "data") ;;
  hints <- lift (py_iter hints) ;;
  hints <- lift (Res.mapM normalize_hint hints) ;;
  let challenge := dict_set challenge "hints" (VList hints) in
  (* Add topics *)
  r <- get_part "/topics" ;;
  j <- json_of r ;;
  topics <- lift (subscript j "data") ;;
  topics <- lift (py_iter topics) ;;
  topics <- lift (Res.mapM (fun t => subscript t "value") topics) ;;
  let challenge := dict_set challenge "topics" (VList topics) in
  (* Add requirements *)
  r <- get_part "/requirements" ;;
  j <- json_of r ;;
  data <- lift (py_get j "data" VNone) ;;
  requirements <- lift (py_get (py_or data (VDict [])) "prerequisites"
                          (VList [])) ;;
  nonempty <- lift (py_nonempty requirements) ;;
  prerequisites <-
    (if nonempty : bool then
       (* Prefer challenge names over IDs *)
       r2 <- request (GET (Url "/api/v1/challenges?view=admin")) ;;
       raise_for_status r2 ;;
       j2 <- json_of r2 ;;
       challenges <- lift (subscript j2 "data") ;;
       challenges <- lift (py_iter challenges) ;;
       names <- lift (names_of_required challenges requirements) ;;
       ret (VList names)
     else ret (VList [])) ;;
  (* Add anonymize flag *)
  j <- json_of r ;;
  data <- lift (py_get j "data" VNone) ;;
  anonymize <- lift (py_get (py_or data (VDict [])) "anonymize"
                       (VBool false)) ;;
  let challenge :=
    dict_set challenge "requirements"
      (VDict [("prerequisites", prerequisites); ("anonymize", anonymize)]) in
  (* Add next *)
  nid <- lift (py_get challenge_data "next_id" VNone) ;;
  next <-
    (if truthy nid then
       (* Prefer challenge names over IDs *)
       r <- request (GET (UrlId "/api/v1/challenges/" nid "")) ;;
       raise_for_status r ;;
       j <- json_of r ;;
       data <- lift (py_get j "data" VNone) ;;
       lift (py_get (py_or data (VDict [])) "name" VNone)
     else ret VNone) ;;
  ret (dict_set challenge "next" next).

(** [Challenge._normalize_remote_files]: basename to (url, location) *)
Fixpoint _normalize_remote_files (remote_files : list value)
    (normalized : list (string * (string * string)))
  : result (list (string * (string * string))) :=
  match remote_files with
  | [] => Ok normalized
  | f :: rest =>
      (s <- as_str f ;;
       let file_parts :=
         Text.split "/" (hd "" (Text.split "?token=" s)) in
       match Text.last2 file_parts, Text.last1 file_parts with
       | Some dir, Some base =>
           _normalize_remote_files rest
             (dict_set normalized base (s, (dir ++ "/" ++ base)%string))
       | _, _ => Raise IndexError
       end)%res
  end.

(** A dict whose keys are values (the locations the remote reports). *)
Fixpoint vdict_set (d : list (value * value)) (k v : value)
  : list (value * value) :=
  match d with
  | [] => [(k, v)]
  | (k', v') :: d' =>
      if py_eq k' k then (k', v) :: d' else (k', v') :: vdict_set d' k v
  end.

Fixpoint vdict_get (d : list (value * value)) (k : value) : option value :=
  match d with
  | [] => None
  | (k', v) :: d' => if py_eq k' k then Some v else vdict_get d' k
  end.

Fixpoint sha1sums_of (files : list value) (acc : list (value * value))
  : result (list (value * value)) :=
  match files with
  | [] => Ok acc
  | f :: rest =>
      (l <- subscript f "location" ;;
       if hashable l then
         s <- py_get f "sha1sum" VNone ;;
         sha1sums_of rest (vdict_set acc l s)
       else Raise TypeError)%res
  end.

(** [Challenge._get_files_sha1sums]: location to sha1sum *)
Definition _get_files_sha1sums : M (list (value * value)) :=
  r <- request (GET (Url "/api/v1/files?type=challenge")) ;;
  raise_for_status r ;;
  j <- json_of r ;;
  d <- lift (subscript j "data") ;;
  files <- lift (py_iter d) ;;
  lift (sha1sums_of files []).

(** [{f.split("/")[-1]: f for f in files}] (in [sync]) *)
Fixpoint local_files_by_split (files : list value)
    (acc : list (string * string)) : result (list (string * string)) :=
  match files with
  | [] => Ok acc
  | f :: rest =>
      (s <- as_str f ;;
       match Text.last1 (Text.split "/" s) with
       | Some base => local_files_by_split rest (dict_set acc base s)
       | None => Raise IndexError
       end)%res
  end.

(** [{Path(f).name: f for f in files}] (in [verify]) *)
Fixpoint local_files_by_name (files : list value)
    (acc : list (string * string)) : result (list (string * string)) :=
  match files with
  | [] => Ok acc
  | f :: rest =>
      (s <- as_path f ;;
       local_files_by_name rest (dict_set acc (Text.path_name s) s))%res
  end.

(** [d[k]] on the dicts built locally *)
Definition item {V} (d : list (string * V)) (k : string) : M V :=
  match dict_get d k with
  | Some v => ret v
  | None => raise KeyError
  end.

(** The body of the loop of [sync] over the local files (one round per
    local basename). *)
Definition sync_local_file
    (local_files : list (string * string))
    (remote_files : list (string * (string * string)))
    (sha1sums : list (value * value))
    (local_file_name : string) : M unit :=
  if negb (dict_mem remote_files local_file_name) then
    (* Creating a new file *)
    p <- item local_files local_file_name ;;
    _create_file p
  else
    (* Updating an existing file *)
    rf <- item remote_files local_file_name ;;
    let location := snd rf in
    remote_file_sha1sum <-
      match vdict_get sha1sums (VStr location) with
      | Some s => ret s
      | None => raise KeyError
      end ;;
    unchanged <-
      (if negb (is_none remote_file_sha1sum) then
         p <- item local_files local_file_name ;;
         lf <- read_file p ;;
         let local_file_sha1sum := hash_file lf in
         ret (py_eq (VStr local_file_sha1sum) remote_file_sha1sum)
       else ret false) ;;
    if unchanged : bool then ret tt
    else
      (* if sha1sums are not present, or the hashes are different,
         re-upload the file *)
      _delete_file location ;;
      p <- item local_files local_file_name ;;
      _create_file p.

(** The part of [sync] under [# Create / Upload files]. *)
Definition sync_files (remote_challenge : value) : M unit :=
  f <- self_get "files" VNone ;;
  self_set "files" (py_or f (VList [])) ;;
  rf <- lift (py_get remote_challenge "files" VNone) ;;
  let remote_challenge_files := py_or rf (VList []) in
  (* Get basenames of local files to compare against remote files *)
  f <- self_item "files" ;;
  l <- lift (py_iter f) ;;
  local_files <- lift (local_files_by_split l []) ;;
  l <- lift (py_iter remote_challenge_files) ;;
  remote_files <- lift (_normalize_remote_files l []) ;;
  (* Delete remote files which are no longer defined locally *)
  for_each (dict_keys remote_files) (fun remote_file =>
    if negb (dict_mem local_files remote_file) then
      rf <- item remote_files remote_file ;;
      _delete_file (snd rf)
    else ret tt) ;;
  (* Only check for file changes if there are files to upload *)
  match local_files with
  | [] => ret tt
  | _ =>
      sha1sums <- _get_files_sha1sums ;;
      for_each (dict_keys local_files)
        (sync_local_file local_files remote_files sha1sums)
  end.

Fixpoint reset_to_remote (ignore : list string) (remote_challenge : value)
    (props : list string) (challenge_payload : dict) : result dict :=
  match props with
  | [] => Ok challenge_payload
  | p :: rest =>
      if ignored ignore p then
        (v <- subscript remote_challenge p ;;
         reset_to_remote ignore remote_challenge rest
           (dict_set challenge_payload p v))%res
      else reset_to_remote ignore remote_challenge rest challenge_payload
  end.

(** The loop of [create] over [reset_properties_if_ignored]. *)
Definition reset_to_empty (ignore : list string) (props : list string)
    (challenge_payload : dict) : dict :=
  fold_left (fun payload p =>
               if ignored ignore p then dict_set payload p (VStr "")
               else payload)
    props challenge_payload.

Definition visible_patch : M unit :=
  u <- challenge_url ;;
  r <- request (PATCH u (VDict [("state", VStr "visible")])) ;;
  raise_for_status r.

(** [Challenge.sync] *)
Definition sync (ignore : list string) : M unit :=
  when (ignored ignore "name")
    (secho [Lit "Attribute 'name' cannot be ignored when syncing a challenge"]) ;;
  n <- self_get "name" VNone ;;
  if negb (truthy n) then
    raise (InvalidChallengeFile [Lit "Challenge does not provide a name"])
  else
  f <- self_get "files" (VBool false) ;;
  when (truthy f && negb (ignored ignore "files"))
    (* _validate_files will raise if file is not found *)
    _validate_files ;;
  challenge_payload <- _get_initial_challenge_payload ignore ;;
  _load_challenge_id ;;
  cid <- gets challenge_id ;;
  remote_challenge <- load_installed_challenge cid ;;
  (* if value, category, type or description are ignored, revert them to
     the remote state in the initial payload *)
  challenge_payload <-
    lift (reset_to_remote ignore remote_challenge
            ["value"; "category"; "type"; "description"; "attribution"]
            challenge_payload) ;;
  (* Update simple properties *)
  u <- challenge_url ;;
  r <- request (PATCH u (VDict challenge_payload)) ;;
  raise_for_status r ;;
  (* Update flags *)
  when (negb (ignored ignore "flags"))
    (_delete_existing_flags ;;
     x <- self_get "flags" VNone ;;
     when (truthy x) _create_flags) ;;
  (* Update topics *)
  when (negb (ignored ignore "topics"))
    (_delete_existing_topics ;;
     x <- self_get "topics" VNone ;;
     when (truthy x) _create_topics) ;;
  (* Update tags *)
  when (negb (ignored ignore "tags"))
    (_delete_existing_tags ;;
     x <- self_get "tags" VNone ;;
     when (truthy x) _create_tags) ;;
  (* Create / Upload files *)
  when (negb (ignored ignore "files")) (sync_files remote_challenge) ;;
  (* Update hints *)
  when (negb (ignored ignore "hints"))
    (_delete_existing_hints ;;
     x <- self_get "hints" VNone ;;
     when (truthy x) _create_hints) ;;
  (* Update requirements *)
  x <- self_get "requirements" VNone ;;
  when (truthy x && negb (ignored ignore "requirements"))
    _set_required_challenges ;;
  (* Set next *)
  _next <- self_get "next" VNone ;;
  when (negb (ignored ignore "next")) (_set_next _next) ;;
  (* Bring back the challenge to be visible if:
     1. State is not ignored and set to visible, or defaults to visible
     2. State is ignored, but regardless of the local value, the remote
        state was visible *)
  make_challenge_visible <-
    (if negb (ignored ignore "state") then
       s <- self_get "state" (VStr "visible") ;;
       ret (py_eq s (VStr "visible"))
     else
       s <- lift (py_get remote_challenge "state" VNone) ;;
       ret (py_eq s (VStr "visible"))) ;;
  when make_challenge_visible visible_patch.

(** [Challenge.create] *)
Definition create (ignore : list string) : M unit :=
  for_each ["name"; "value"] (fun attr =>
    when (ignored ignore attr)
      (secho [Lit "Attribute '"; Lit attr;
              Lit "' cannot be ignored when creating a challenge"])) ;;
  n <- self_get "name" (VBool false) ;;
  if negb (truthy n) then
    raise (InvalidChallengeDefinition
             [Lit "Challenge does not provide a name"])
  else
  v <- self_get "value" (VBool false) ;;
  t <- self_get "type" (VStr "standard") ;;
  if negb (truthy v) && negb (py_eq t (VStr "dynamic")) then
    raise (InvalidChallengeDefinition
             [Lit "Challenge does not provide a value"])
  else
  f <- self_get "files" (VBool false) ;;
  when (truthy f && negb (ignored ignore "files"))
    (* _validate_files will raise if file is not found *)
    _validate_files ;;
  challenge_payload <- _get_initial_challenge_payload ignore ;;
  (* if category or description are ignored, set them to an empty string *)
  let challenge_payload :=
    reset_to_empty ignore ["category"; "description"; "attribution"]
      challenge_payload in
  r <- request (POST (Url "/api/v1/challenges")
                  (Json (VDict challenge_payload))) ;;
  raise_for_status r ;;
  j <- json_of r ;;
  d <- lift (subscript j "data") ;;
  i <- lift (subscript d "id") ;;
  modify (set_id i) ;;
  (* Create flags *)
  x <- self_get "flags" VNone ;;
  when (truthy x && negb (ignored ignore "flags")) _create_flags ;;
  (* Create topics *)
  x <- self_get "topics" VNone ;;
  when (truthy x && negb (ignored ignore "topics")) _create_topics ;;
  (* Create tags *)
  x <- self_get "tags" VNone ;;
  when (truthy x && negb (ignored ignore "tags")) _create_tags ;;
  (* Upload files *)
  x <- self_get "files" VNone ;;
  when (truthy x && negb (ignored ignore "files")) _create_all_files ;;
  (* Add hints *)
  x <- self_get "hints" VNone ;;
  when (truthy x && negb (ignored ignore "hints")) _create_hints ;;
  (* Add requirements *)
  x <- self_get "requirements" VNone ;;
  when (truthy x && negb (ignored ignore "requirements"))
    _set_required_challenges ;;
  (* Add next *)
  _next <- self_get "next" VNone ;;
  when (negb (ignored ignore "next")) (_set_next _next) ;;
  (* Bring back the challenge if it's supposed to be visible *)
  s <- self_get "state" (VStr "visible") ;;
  when (py_eq s (VStr "visible") || ignored ignore "state") visible_patch.

(** [try: m  except InvalidChallengeFile: handler] *)
Definition except_invalid_file {A} (m handler : M A) : M A :=
  fun w =>
    match m w with
    | (Raise (InvalidChallengeFile _), w') => handler w'
    | other => other
    end.

(** A loop body that can [return]: [None] goes on with the loop,
    [Some b] leaves the function with [b]. *)
Fixpoint for_each_return {A} (l : list A) (f : A -> M (option bool))
  : M (option bool) :=
  match l with
  | [] => ret None
  | x :: l' =>
      r <- f x ;;
      match r with
      | Some b => ret (Some b)
      | None => for_each_return l' f
      end
  end.

(** The body of the loop of [verify] over the keys of the normalized
    remote challenge. *)
Definition verify_key (ignore : list string) (normalized_challenge : dict)
    (key : string) : M (option bool) :=
  if ignored ignore key then ret None
  else
    challenge <- gets doc ;;
    theirs <- item normalized_challenge key ;;
    (* If challenge.yml doesn't have some property from the remote
       Check if it's a default value that can be omitted *)
    if negb (dict_mem challenge key) then
      if is_default_challenge_property key theirs then ret None
      else
        secho [Lit key; Lit " is not in challenge."] ;;
        ret (Some false)
    else
      mine <- self_item key ;;
      if negb (py_eq mine theirs) then
        same_requirements <-
          (if String.eqb key "requirements" then
             ca <- (if is_dict mine then
                      cr <- lift (subscript mine "prerequisites") ;;
                      ca <- lift (py_get mine "anonymize" (VBool false)) ;;
                      ret (cr, ca)
                    else ret (mine, VBool false)) ;;
             let (cr, ca) := ca : value * value in
             p <- lift (subscript theirs "prerequisites") ;;
             same <- _compare_challenge_requirements cr p ;;
             if same : bool then
               a <- lift (subscript theirs "anonymize") ;;
               ret (py_eq ca a)
             else ret false
           else ret false) ;;
        if same_requirements : bool then ret None
        else
          same_next <-
            (if String.eqb key "next"
             then _compare_challenge_next mine theirs
             else ret false) ;;
          if same_next : bool then ret None
          else
            secho [Lit key; Lit " comparison failed."] ;;
            ret (Some false)
      else ret None.

Fixpoint bytes_eqb (a b : bytes) : bool :=
  match a, b with
  | [], [] => true
  | x :: a', y :: b' => Byte.eqb x y && bytes_eqb a' b'
  | _, _ => false
  end.

(** The body of the loop of [verify] over the remote files. *)
Definition verify_remote_file
    (local_files : list (string * string))
    (remote_files : list (string * (string * string)))
    (sha1sums : list (value * value))
    (remote_file_name : string) : M (option bool) :=
  if negb (dict_mem local_files remote_file_name) then
    secho [Lit remote_file_name; Lit " is not in local challenge."] ;;
    ret (Some false)
  else
    rf <- item remote_files remote_file_name ;;
    (* sha1sum is present in CTFd 3.7+, use it instead of downloading the
       file if possible *)
    remote_file_sha1sum <-
      match vdict_get sha1sums (VStr (snd rf)) with
      | Some s => ret s
      | None => raise KeyError
      end ;;
    if negb (is_none remote_file_sha1sum) then
      p <- item local_files remote_file_name ;;
      lf <- read_file p ;;
      let local_file_sha1sum := hash_file lf in
      if negb (py_eq (VStr local_file_sha1sum) remote_file_sha1sum) then
        secho [Lit "sha1sum does not match with remote one."] ;;
        ret (Some false)
      else ret (Some true)
    else
      (* If sha1sum is not present, download the file and compare the
         contents *)
      r <- request (GET (Url (fst rf))) ;;
      raise_for_status r ;;
      let remote_file_contents := content r in
      p <- item local_files remote_file_name ;;
      local_file_contents <- read_file p ;;
      if negb (bytes_eqb remote_file_contents local_file_contents) then
        secho [Lit "the file content does not match with the remote one."] ;;
        ret (Some false)
      else ret None.

(** The part of [verify] under [# Handle a special case for files]. *)
Definition verify_files (remote_challenge_files : value) : M bool :=
  (* Check if files defined in challenge.yml are present *)
  local_files <-
    except_invalid_file
      (_validate_files ;;
       f <- self_item "files" ;;
       l <- lift (py_iter f) ;;
       lf <- lift (local_files_by_name l []) ;;
       ret (Some lf))
      (secho [Lit "InvalidChallengeFile"] ;; ret None) ;;
  match local_files with
  | None => ret false
  | Some local_files =>
      l <- lift (py_iter remote_challenge_files) ;;
      remote_files <- lift (_normalize_remote_files l []) ;;
      (* Check if there are no extra local files *)
      extra <- for_each_return (dict_keys local_files) (fun local_file =>
        if negb (dict_mem remote_files local_file) then
          secho [Lit local_file; Lit " is not in remote challenge."] ;;
          ret (Some false)
        else ret None) ;;
      match extra with
      | Some b => ret b
      | None =>
          sha1sums <- _get_files_sha1sums ;;
          (* Check if all remote files are present locally *)
          r <- for_each_return (dict_keys remote_files)
                 (verify_remote_file local_files remote_files sha1sums) ;;
          match r with
          | Some b => ret b
          | None => ret true
          end
      end
  end.

(** [Challenge.verify] *)
Definition verify (ignore : list string) : M bool :=
  _load_challenge_id ;;
  cid <- gets challenge_id ;;
  remote_challenge <- load_installed_challenge cid ;;
  normalized_challenge <- _normalize_challenge remote_challenge ;;
  rf <- lift (py_get remote_challenge "files" VNone) ;;
  let remote_challenge_files := py_or rf (VList []) in
  f <- self_get "files" VNone ;;
  self_set "files" (py_or f (VList [])) ;;
  r <- for_each_return (dict_keys normalized_challenge)
         (verify_key ignore normalized_challenge) ;;
  match r with
  | Some b => ret b
  | None =>
      (* Handle a special case for files, unless they are ignored *)
      if negb (ignored ignore "files")
      then verify_files remote_challenge_files
      else ret true
  end.
(** ** Writing to disk: [mirror] and [save] *)

Definition set_disk (d : string -> option node) (w : world) : world :=
  mkWorld (doc w) (challenge_id w) (calls w) (echoed w) d.

(** The file system is a parameter, like the remote.  A path is given by
    its components below [challenge_directory]; [mkdir] is
    [Path.mkdir(parents=True, exist_ok=True)] and [write_bytes] is
    [Path.write_bytes]: the disk they leave, or [None] when they raise
    [OSError]. *)
Variable mkdir :
  list string -> (string -> option node) -> option (string -> option node).
Variable write_bytes :
  list string -> bytes -> (string -> option node)
  -> option (string -> option node).

(** What the [try] block of [save] does with the dictionary it is given:
    [yaml.safe_dump], the [re.sub] that puts a blank line before some keys,
    and the writing of the challenge file.  [Saved d] is the disk it leaves,
    [Failed e] the text of the exception it raised. *)
Inductive saved :=
| Saved (d : string -> option node)
| Failed (e : string).
Variable write_yaml : dict -> (string -> option node) -> saved.

(** The order in which a [set] of strings is iterated. *)
Variable set_order : list string -> list string.

Definition fs_mkdir (path : list string) : M unit :=
  fun w =>
    match mkdir path (disk w) with
    | Some d => (Ok tt, set_disk d w)
    | None => (Raise OSError, w)
    end.

Definition fs_write_bytes (path : list string) (c : bytes) : M unit :=
  fun w =>
    match write_bytes path c (disk w) with
    | Some d => (Ok tt, set_disk d w)
    | None => (Raise OSError, w)
    end.

(** [Challenge.key_order] *)
Definition key_order : list string :=
  ["name"; "author"; "category"; "description"; "attribution"; "value";
   "type"; "extra"; "image"; "protocol"; "host";
   "connection_info"; "healthcheck"; "attempts"; "flags"; "geo_flags";
   "files"; "topics"; "tags"; "files"; "hints";
   "requirements"; "next"; "state"; "version"].

(** [{k: challenge_dict[k] for k in self.key_order if k in challenge_dict
      and not self.is_default_challenge_property(k, challenge_dict[k])}] *)
Fixpoint known_keys (challenge_dict : dict) (keys : list string)
    (sorted_challenge_dict : dict) : dict :=
  match keys with
  | [] => sorted_challenge_dict
  | k :: rest =>
      known_keys challenge_dict rest
        (match dict_get challenge_dict k with
         | Some v =>
             if negb (is_default_challenge_property k v)
             then dict_set sorted_challenge_dict k v
             else sorted_challenge_dict
         | None => sorted_challenge_dict
         end)
  end.

(** [for k in unknown_keys: sorted_challenge_dict[k] = challenge_dict[k]] *)
Fixpoint unknown_keys (challenge_dict : dict) (keys : list string)
    (sorted_challenge_dict : dict) : result dict :=
  match keys with
  | [] => Ok sorted_challenge_dict
  | k :: rest =>
      (v <- subscript (VDict challenge_dict) k ;;
       unknown_keys challenge_dict rest (dict_set sorted_challenge_dict k v))%res
  end.

(** The dictionary that [save] writes: the known keys in the order of
    [key_order], without the default values, then the other keys. *)
Definition sorted_challenge_dict (challenge_dict : dict) : result dict :=
  (* sort the challenge dict by the key order defined from the spec
     also strip any default values *)
  let sorted := known_keys challenge_dict key_order [] in
  (* if there are any additional keys append them at the end *)
  unknown_keys challenge_dict
    (set_order
       (filter (fun k => negb (existsb (String.eqb k) key_order))
          (dict_keys challenge_dict)))
    sorted.

(** [Challenge.save] *)
Definition save : M unit :=
  challenge_dict <- gets doc ;;
  sorted <- lift (sorted_challenge_dict challenge_dict) ;;
  d <- gets disk ;;
  match write_yaml sorted d with
  | Saved d' => modify (set_disk d')
  | Failed e =>
      raise (InvalidChallengeFile
               [Lit ("Challenge file could not be saved:"
                     ++ String Text.LF "");
                Lit e])
  end.

(** [remote_file.split("/")[-1].split("?token=")[0]] *)
Definition remote_base_name (remote_file : value) : result string :=
  (s <- as_str remote_file ;;
   match Text.last1 (Text.split "/" s) with
   | Some l => Ok (hd "" (Text.split "?token=" l))
   | None => Raise IndexError
   end)%res.

(** [challenge["files"].append(x)] *)
Definition py_append (l x : value) : result value :=
  match l with
  | VList items => Ok (VList (items ++ [x]))
  | _ => Raise AttributeError
  end.

(** The loop of [mirror] over the remote files; [files] is the list
    [challenge["files"]], which grows by [append]. *)
Fixpoint mirror_files (files_directory_name : string)
    (local_files : list (string * string)) (remote_files : list value)
    (files : value) : M value :=
  match remote_files with
  | [] => ret files
  | remote_file :: rest =>
      (* Get base file name *)
      remote_file_name <- lift (remote_base_name remote_file) ;;
      u <- lift (as_str remote_file) ;;
      if negb (dict_mem local_files remote_file_name) then
        (* The file is only present on the remote - we have to download
           it, and assume a path *)
        r <- request (GET (Url u)) ;;
        raise_for_status r ;;
        (* Ensure the directory for the challenge files exists *)
        fs_mkdir [files_directory_name] ;;
        fs_write_bytes [files_directory_name; remote_file_name]
          (content r) ;;
        files <- lift (py_append files
                         (VStr (files_directory_name ++ "/"
                                ++ remote_file_name))) ;;
        mirror_files files_directory_name local_files rest files
      else
        (* The file is already present in the challenge.yml - we know the
           desired path *)
        r <- request (GET (Url u)) ;;
        raise_for_status r ;;
        p <- item local_files remote_file_name ;;
        fs_write_bytes [p] (content r) ;;
        mirror_files files_directory_name local_files rest files
  end.

(** [[f for f in challenge["files"] if Path(f).name in remote_file_names]] *)
Fixpoint present_remotely (remote_file_names : list string)
    (files : list value) : result (list value) :=
  match files with
  | [] => Ok []
  | f :: rest =>
      (p <- as_path f ;;
       kept <- present_remotely remote_file_names rest ;;
       Ok (if existsb (String.eqb (Text.path_name p)) remote_file_names
           then f :: kept else kept))%res
  end.

(** [Challenge.mirror] *)
Definition mirror (files_directory_name : string) (ignore : list string)
  : M unit :=
  _load_challenge_id ;;
  cid <- gets challenge_id ;;
  remote_challenge <- load_installed_challenge cid ;;
  challenge <- _normalize_challenge remote_challenge ;;
  rf <- lift (py_get remote_challenge "files" VNone) ;;
  let remote_challenge_files := py_or rf (VList []) in
  let challenge :=
    dict_set challenge "files"
      (py_or (get_or challenge "files" VNone) (VList [])) in
  (* Add files which are not handled in _normalize_challenge *)
  challenge <-
    (if negb (ignored ignore "files") then
       files <- lift (subscript (VDict challenge) "files") ;;
       l <- lift (py_iter files) ;;
       local_files <- lift (local_files_by_name l []) ;;
       (* Update files *)
       remote_files <- lift (py_iter remote_challenge_files) ;;
       files <- mirror_files files_directory_name local_files remote_files
                  files ;;
       (* Soft-Delete files that are not present on the remote
          Remove them from challenge.yml but do not delete them from disk *)
       remote_file_names <- lift (Res.mapM remote_base_name remote_files) ;;
       l <- lift (py_iter files) ;;
       kept <- lift (present_remotely remote_file_names l) ;;
       ret (dict_set challenge "files" (VList kept))
     else ret challenge) ;;
  for_each (dict_keys challenge) (fun key =>
    when (negb (ignored ignore key))
      (v <- item challenge key ;;
       self_set key v)) ;;
  save.
End Challenge.

(** ** Concrete remotes and documents, for the examples below *)

Module Fixture.
Definition answer (v : value) : outcome :=
  Responded (mkResponse true (Some v) []).
Definition data (v : value) : value := VDict [("data", v)].

Definition of_string (s : string) : bytes := list_byte_of_string s.

(** A checksum for the examples: the content itself, as text. *)
Definition toy_hash (b : bytes) : string := string_of_list_byte b.

Definition no_disk : string -> option node := fun _ => None.

Definition start (d : dict) (files : string -> option node) : world :=
  mkWorld d VNone [] [] files.

(** A remote that answers every request with an HTML page. *)
Definition html_remote : list call -> outcome :=
  fun _ => Responded (mkResponse true None (of_string "<html></html>")).

(** A remote with one challenge, of id 1 and name "chal": [detail] is
    what it answers to the request for a challenge, [stored] the files it
    lists; it accepts every other request. *)
Definition serving (detail : value) (stored : list value)
  : list call -> outcome :=
  fun history =>
    match history with
    | GET (Url u) :: _ =>
        if String.eqb u "/api/v1/challenges?view=admin" then
          answer (data (VList [VDict [("id", VInt 1);
                                      ("name", VStr "chal")]]))
        else if String.eqb u "/api/v1/files?type=challenge" then
          answer (data (VList stored))
        else answer (data (VList []))
    | GET (UrlId _ _ post) :: _ =>
        if String.eqb post "?view=admin" then answer (data detail)
        else if String.eqb post "/requirements" then answer (data VNone)
        else answer (data (VList []))
    | POST _ _ :: _ => answer (data (VDict [("id", VInt 1)]))
    | _ => answer (data (VList []))
    end.

Definition accepting : list call -> outcome :=
  serving (VDict [("id", VInt 1); ("name", VStr "chal");
                  ("state", VStr "hidden")]) [].

(** A remote that answers every request with an empty JSON object. *)
Definition empty_remote : list call -> outcome :=
  fun _ => answer (VDict []).

(** A remote that refuses every request. *)
Definition refusing : list call -> outcome :=
  fun _ => Responded (mkResponse false None []).

(** The challenge as the remote has it. *)
Definition challenge (max_attempts : Z) (files : list value) : value :=
  VDict [("id", VInt 1); ("name", VStr "chal"); ("category", VStr "misc");
         ("description", VStr "d"); ("attribution", VStr "");
         ("value", VInt 100); ("type", VStr "standard");
         ("state", VStr "visible"); ("connection_info", VNone);
         ("max_attempts", VInt max_attempts); ("files", VList files)].

(** The document of that challenge, without [files]. *)
Definition doc_plain : dict :=
  [("name", VStr "chal"); ("category", VStr "misc");
   ("description", VStr "d"); ("attribution", VStr "");
   ("value", VInt 100); ("flags", VList [])].

(** Two files, local and remote. *)
Definition doc_two_files : dict :=
  doc_plain ++ [("files", VList [VStr "a.txt"; VStr "b.txt"])].

Definition two_on_disk (ca cb : bytes) : string -> option node :=
  fun p =>
    if String.eqb p "a.txt" then Some (File ca)
    else if String.eqb p "b.txt" then Some (File cb)
    else None.

Definition stored_two (sum_a sum_b : value) : list value :=
  [VDict [("id", VInt 10); ("location", VStr "aa/a.txt");
          ("sha1sum", sum_a)];
   VDict [("id", VInt 11); ("location", VStr "bb/b.txt");
          ("sha1sum", sum_b)]].

Definition two_files (sum_a sum_b : value) : list call -> outcome :=
  serving (challenge 0 [VStr "/files/aa/a.txt?token=t";
                        VStr "/files/bb/b.txt?token=t"])
    (stored_two sum_a sum_b).

Definition doc_dup : dict :=
  [("name", VStr "chal"); ("value", VInt 100);
   ("requirements", VList [VInt 3; VInt 3])].

Definition doc_self : dict :=
  [("name", VStr "chal"); ("value", VInt 100);
   ("requirements", VList [VStr "chal"; VInt 1])].

Definition doc_extra_state : dict :=
  [("name", VStr "chal"); ("value", VInt 100);
   ("extra", VDict [("state", VStr "visible")])].

Definition challenge_1 : url := UrlId "/api/v1/challenges/" (VInt 1) "".

(** The state of a challenge whose id is known. *)
Definition known (id : Z) (d : dict) (files : string -> option node)
  : world :=
  mkWorld d (VInt id) [] [] files.

(** A remote that answers every request with the same list of entries. *)
Definition listing_of (entries : list value) : list call -> outcome :=
  fun _ => answer (data (VList entries)).

(** Two flags, of the challenges 1 and 2, and two topics. *)
Definition two_flags : list value :=
  [VDict [("id", VInt 5); ("challenge_id", VInt 1)];
   VDict [("id", VInt 6); ("challenge_id", VInt 2)]].

Definition two_topics : list value :=
  [VDict [("id", VInt 7); ("value", VStr "web")];
   VDict [("id", VInt 8); ("value", VStr "osint")]].

(** A document whose value is written as text, and one without
    [attribution]. *)
Definition doc_text_value : dict :=
  [("name", VStr "chal"); ("value", VStr "100")].

Definition doc_unattributed : dict :=
  [("name", VStr "chal"); ("category", VStr "misc");
   ("description", VStr "d"); ("value", VInt 100); ("flags", VList [])].

(** A document with default values and with a key that [key_order] does
    not name. *)
Definition doc_defaults : dict :=
  [("state", VStr "visible"); ("x-note", VStr "n"); ("value", VInt 100);
   ("attempts", VInt 0); ("name", VStr "chal"); ("tags", VList [])].

(** A file system for the examples: a path is the text of its components
    joined by a slash, and nothing is refused. *)
Definition toy_path (path : list string) : string := String.concat "/" path.

Definition toy_mkdir (path : list string) (d : string -> option node)
  : option (string -> option node) :=
  Some (fun p => if String.eqb p (toy_path path) then Some Directory
                 else d p).

Definition toy_write_bytes (path : list string) (c : bytes)
    (d : string -> option node) : option (string -> option node) :=
  Some (fun p => if String.eqb p (toy_path path) then Some (File c)
                 else d p).

(** A serializer for the examples: the keys, one per line. *)
Definition toy_write_yaml (s : dict) (d : string -> option node) : saved :=
  Saved (fun p =>
           if String.eqb p "challenge.yml"
           then Some (File (of_string
                              (String.concat (String Text.LF "")
                                 (dict_keys s))))
           else d p).

Definition in_order (l : list string) : list string := l.

(** The document of a challenge with a file kept in [src]. *)
Definition doc_src_file : dict :=
  doc_plain ++ [("files", VList [VStr "src/a.txt"])].

(** A hint with a title, the document that has it, and a remote that has
    stored it for the challenge [challenge 0 []]. *)
Definition titled_hint : dict :=
  [("content", VStr "look"); ("cost", VInt 10); ("title", VStr "T")].

Definition doc_titled_hint : dict :=
  doc_plain ++ [("hints", VList [VDict titled_hint])].

Definition hinting : list call -> outcome :=
  fun history =>
    match history with
    | GET (UrlId _ _ "/hints") :: _ =>
        answer (data (VList [VDict (("id", VInt 4) :: titled_hint)]))
    | _ => serving (challenge 0 []) [] history
    end.
End Fixture.

(** * Properties *)

Unset Implicit Arguments.

(** ** Association lists *)

Lemma dict_get_set_same (V : Type) (d : list (string * V)) k v :
  dict_get (dict_set d k v) k = Some v.
Proof.
  induction d as [|[k' v'] d IH]; simpl.
  - now rewrite String.eqb_refl.
  - destruct (String.eqb k' k) eqn:E; simpl; rewrite E; auto.
Qed.

Lemma dict_get_set_other (V : Type) (d : list (string * V)) k k' v :
  k <> k' -> dict_get (dict_set d k v) k' = dict_get d k'.
Proof.
  intros N. induction d as [|[k0 v0] d IH]; simpl.
  - destruct (String.eqb_spec k k'); [contradiction | reflexivity].
  - destruct (String.eqb_spec k0 k) as [->|]; simpl.
    + destruct (String.eqb_spec k k'); [contradiction | reflexivity].
    + now rewrite IH.
Qed.

Lemma dict_set_present (V : Type) (d : list (string * V)) k v :
  dict_get d k = Some v -> dict_set d k v = d.
Proof.
  induction d as [|[k' v'] d IH]; simpl; [discriminate|].
  destruct (String.eqb_spec k' k) as [->|].
  - now intros [= ->].
  - intros H. now rewrite IH.
Qed.

(** ** Running a computation *)

Lemma bind_ok_inv (A B : Type) (m : M A) (k : A -> M B) w b w' :
  bind m k w = (Ok b, w') ->
  exists a w1, m w = (Ok a, w1) /\ k a w1 = (Ok b, w').
Proof.
  unfold bind. destruct (m w) as [[a|e] w1]; [eauto | discriminate].
Qed.

Lemma bind_ok (A B : Type) (m : M A) (k : A -> M B) w a w1 :
  m w = (Ok a, w1) -> bind m k w = k a w1.
Proof. unfold bind. now intros ->. Qed.

Lemma bind_raise (A B : Type) (m : M A) (k : A -> M B) w e w1 :
  m w = (Raise e, w1) -> bind m k w = (Raise e, w1).
Proof. unfold bind. now intros ->. Qed.

Lemma bind_ret (A B : Type) (a : A) (k : A -> M B) w :
  bind (ret a) k w = k a w.
Proof. reflexivity. Qed.

Lemma bind_raise_now (A B : Type) (e : exn) (k : A -> M B) w :
  bind (raise e) k w = (Raise e, w).
Proof. reflexivity. Qed.

Lemma bind_lift_ok (A B : Type) (a : A) (k : A -> M B) w :
  bind (lift (Ok a)) k w = k a w.
Proof. reflexivity. Qed.

Lemma bind_lift_raise (A B : Type) (e : exn) (k : A -> M B) w :
  bind (lift (Raise e)) k w = (Raise e, w).
Proof. reflexivity. Qed.

Lemma bind_gets (A B : Type) (f : world -> A) (k : A -> M B) w :
  bind (gets f) k w = k (f w) w.
Proof. reflexivity. Qed.

Lemma bind_modify (B : Type) (f : world -> world) (k : unit -> M B) w :
  bind (modify f) k w = k tt (f w).
Proof. reflexivity. Qed.

Lemma bind_self_get (B : Type) key dflt (k : value -> M B) w :
  bind (self_get key dflt) k w = k (get_or (doc w) key dflt) w.
Proof. reflexivity. Qed.

Lemma bind_bind (A B C : Type) (m : M A) (f : A -> M B) (g : B -> M C) w :
  bind (bind m f) g w = bind m (fun a => bind (f a) g) w.
Proof. unfold bind. destruct (m w) as [[a|e] w1]; reflexivity. Qed.

Lemma lift_ok_inv (A : Type) (r : result A) w a w' :
  lift r w = (Ok a, w') -> r = Ok a /\ w' = w.
Proof. unfold lift. now intros [= -> ->]. Qed.

Lemma ret_ok_inv (A : Type) (x a : A) w w' :
  ret x w = (Ok a, w') -> x = a /\ w' = w.
Proof. unfold ret. now intros [= -> ->]. Qed.

Lemma gets_ok_inv (A : Type) (f : world -> A) w a w' :
  gets f w = (Ok a, w') -> f w = a /\ w' = w.
Proof. unfold gets. now intros [= -> ->]. Qed.

Lemma dict_get_in_keys (V : Type) (d : list (string * V)) k v :
  dict_get d k = Some v -> In k (dict_keys d).
Proof.
  induction d as [|[k' v'] d IH]; simpl; [discriminate|].
  destruct (String.eqb_spec k' k); auto.
Qed.

(** Splits [H : bind m k w = (Ok _, _)] into the run of [m] and the run of
    the rest. *)
Ltac inv_bind H :=
  let E := fresh "E" in
  apply bind_ok_inv in H; destruct H as (? & ? & E & H);
  cbv beta zeta in H;
  try (apply lift_ok_inv in E; destruct E as [E ->]).

(** The same for [H : Res.bind r k = Ok _]. *)
Ltac inv_res H :=
  match type of H with
  | Res.bind ?r _ = Ok _ =>
      let E := fresh "E" in
      destruct r eqn:E; [cbn [Res.bind] in H | discriminate H]
  end.

(** A computation that leaves the world as it found it. *)
Definition pure {A} (m : M A) : Prop := forall w, snd (m w) = w.

Lemma pure_ret (A : Type) (a : A) : pure (ret a).
Proof. now intros w. Qed.

Lemma pure_raise (A : Type) e : pure (@raise A e).
Proof. now intros w. Qed.

Lemma pure_lift (A : Type) (r : result A) : pure (lift r).
Proof. now intros w. Qed.

Lemma pure_gets (A : Type) (f : world -> A) : pure (gets f).
Proof. now intros w. Qed.

Lemma pure_bind (A B : Type) (m : M A) (k : A -> M B) :
  pure m -> (forall a, pure (k a)) -> pure (bind m k).
Proof.
  intros Hm Hk w. unfold bind. specialize (Hm w).
  destruct (m w) as [[a|e] w1]; simpl in *; subst; [apply Hk | reflexivity].
Qed.

Lemma pure_for_each (A : Type) (l : list A) (f : A -> M unit) :
  (forall x, pure (f x)) -> pure (for_each l f).
Proof.
  intros Hf. induction l; simpl; [apply pure_ret|].
  apply pure_bind; auto.
Qed.

Lemma pure_when b (m : M unit) : pure m -> pure (when b m).
Proof. destruct b; simpl; auto using pure_ret. Qed.

Lemma pure_json_of r : pure (json_of r).
Proof. unfold json_of. destruct (json r); now intros w. Qed.

Lemma pure_raise_for_status r : pure (raise_for_status r).
Proof. unfold raise_for_status. destruct (ok r); now intros w. Qed.

Ltac pure_tac :=
  repeat first
    [ progress intros
    | apply pure_ret | apply pure_raise | apply pure_lift | apply pure_gets
    | apply pure_json_of | apply pure_raise_for_status
    | apply pure_when | apply pure_for_each | apply pure_bind
    | match goal with
      | |- pure (if ?b then _ else _) => destruct b
      | |- pure (match ?x with _ => _ end) => destruct x
      end ].

Lemma pure_validate_files : pure _validate_files.
Proof. unfold _validate_files, self_get, path_exists. pure_tac. Qed.

Lemma pure_initial_payload ignore :
  pure (_get_initial_challenge_payload ignore).
Proof. unfold _get_initial_challenge_payload, self_item. pure_tac. Qed.

Lemma pure_ok_inv (A : Type) (m : M A) w a w' :
  pure m -> m w = (Ok a, w') -> w' = w.
Proof. intros Hm H. specialize (Hm w). now rewrite H in Hm. Qed.

Create HintDb keeps.

Arguments bind_ok {A B} m k {w a w1} _.
Arguments bind_raise {A B} m k {w e w1} _.

Lemma for_each_app (A : Type) (l k : list A) (f : A -> M unit) w :
  for_each (l ++ k) f w = bind (for_each l f) (fun _ => for_each k f) w.
Proof.
  revert w. induction l as [|a l IH]; intros w; [reflexivity|].
  cbn [for_each app]. rewrite bind_bind.
  destruct (f a w) as [[[]|e] w1] eqn:E.
  - rewrite !(bind_ok _ _ E). apply IH.
  - now rewrite !(bind_raise _ _ E).
Qed.


Section Properties.
Variable remote : list call -> outcome.
Variable hash_file : bytes -> string.

(** *** The listing of the remote challenges *)

Definition listing : call := GET (Url "/api/v1/challenges?view=admin").

(** The response has no usable data: the request failed, or its JSON
    object has no [data], or an empty one. *)
Definition no_data (r : response) : Prop :=
  ok r = false \/
  exists d, json r = Some (VDict d) /\ truthy (get_or d "data" VNone) = false.

Lemma load_installed_challenges_no_data w r :
  remote (listing :: calls w) = Responded r ->
  no_data r ->
  load_installed_challenges remote w = (Ok (VList []), add_call listing w).
Proof.
  intros Hr Hn. unfold load_installed_challenges, bind, request. simpl.
  fold listing. rewrite Hr.
  destruct Hn as [Hok | (d & Hj & Ht)].
  - now rewrite Hok.
  - destruct (ok r); simpl; [|reflexivity].
    unfold json_of. rewrite Hj. unfold lift, ret. simpl. now rewrite Ht.
Qed.

(** C10, as the code has it: a listing request that fails, and one whose
    JSON object carries no data, both give the empty list without raising;
    [_load_challenge_id] then raises [RemoteChallengeNotFound] with one and
    the same message, and leaves the same state, in both cases. *)
Theorem listing_failure_is_not_found w r :
  remote (listing :: calls w) = Responded r ->
  no_data r ->
  load_installed_challenges remote w = (Ok (VList []), add_call listing w)
  /\ _load_challenge_id remote w
     = (Raise (RemoteChallengeNotFound
                 [Lit "Could not load any remote challenges"]),
        add_call listing w).
Proof.
  intros Hr Hn.
  pose proof (load_installed_challenges_no_data w r Hr Hn) as H.
  split; [exact H|].
  unfold _load_challenge_id. now rewrite (bind_ok _ _ H).
Qed.

(** *** The next link *)

(** C5: for a positive integer the code reads the loop variable of the
    branch it did not take: [_set_next] raises [UnboundLocalError] and sends
    nothing. *)
Theorem set_next_positive_int_raises (n : Z) w :
  (0 < n)%Z ->
  _set_next remote (VInt n) w
  = (Raise (UnboundLocalError "remote_challenge"), w).
Proof.
  intros Hn. unfold _set_next, bind. simpl.
  destruct (Z.ltb_spec 0 n); [reflexivity | lia].
Qed.

(** *** Validation before any request *)

Definition is_invalid (e : exn) : Prop :=
  match e with
  | InvalidChallengeDefinition _ | InvalidChallengeFile _ => True
  | _ => False
  end.

(** Nothing but the terminal output changed. *)
Definition only_echoed (w w' : world) : Prop :=
  doc w' = doc w /\ challenge_id w' = challenge_id w
  /\ calls w' = calls w /\ disk w' = disk w.

Lemma validate_loop_missing (fs : list string) (f : string) w :
  In f fs -> disk w f = None ->
  exists m,
    for_each (map VStr fs) (fun challenge_file =>
      p <- lift (as_path challenge_file) ;;
      e <- path_exists p ;;
      if negb e then
        raise (InvalidChallengeFile
                 [Lit "File "; Fmt challenge_file;
                  Lit " could not be loaded"])
      else ret tt) w
    = (Raise (InvalidChallengeFile m), w).
Proof.
  intros Hin Hd. induction fs as [|g fs IH]; [contradiction|].
  simpl. unfold bind at 1. unfold bind at 1. unfold lift, path_exists, bind, gets, ret.
  simpl.
  destruct (disk w g) eqn:Eg; simpl.
  - destruct Hin as [->|Hin]; [congruence|]. apply IH, Hin.
  - eexists. reflexivity.
Qed.

Lemma validate_files_missing (fs : list string) (f : string) w :
  dict_get (doc w) "files" = Some (VList (map VStr fs)) ->
  In f fs -> disk w f = None ->
  exists m, _validate_files w = (Raise (InvalidChallengeFile m), w).
Proof.
  intros Hf Hin Hd. unfold _validate_files.
  unfold bind at 1. unfold self_get, bind at 1, gets, ret. unfold get_or.
  rewrite Hf. unfold bind at 1.
  assert (py_or (VList (map VStr fs)) (VList []) = VList (map VStr fs)) as ->.
  { destruct fs; [contradiction | reflexivity]. }
  simpl. apply (validate_loop_missing fs f w Hin Hd).
Qed.

Lemma create_preamble (ignore : list string) w :
  exists w1,
    for_each ["name"; "value"] (fun attr =>
      when (ignored ignore attr)
        (secho [Lit "Attribute '"; Lit attr;
                Lit "' cannot be ignored when creating a challenge"])) w
    = (Ok tt, w1)
    /\ only_echoed w w1.
Proof.
  simpl. unfold bind, when, secho, modify, ret.
  destruct (ignored ignore "name"), (ignored ignore "value");
    eexists; (split; [reflexivity | repeat split]).
Qed.

(** What [create] refuses before it sends anything. *)
Definition lacks_name (d : dict) : Prop := dict_get d "name" = None.
Definition lacks_value (d : dict) : Prop :=
  dict_get d "value" = None
  /\ py_eq (get_or d "type" (VStr "standard")) (VStr "dynamic") = false.
Definition lists_missing_file (ignore : list string) (w : world) : Prop :=
  ignored ignore "files" = false
  /\ exists fs f,
       dict_get (doc w) "files" = Some (VList (map VStr fs))
       /\ In f fs /\ disk w f = None.

(** C9: [create] raises [InvalidChallengeDefinition] or
    [InvalidChallengeFile], having sent no request, when the document has
    no name, or no value while its type is not dynamic, or (files not
    ignored) lists a file that is not on disk. *)
Theorem create_fails_before_any_call (ignore : list string) w :
  lacks_name (doc w) \/ lacks_value (doc w) \/ lists_missing_file ignore w ->
  exists e w',
    create remote ignore w = (Raise e, w')
    /\ is_invalid e
    /\ calls w' = calls w /\ doc w' = doc w /\ disk w' = disk w.
Proof.
  intros H.
  destruct (create_preamble ignore w) as (w1 & Hpre & Hd & Hi & Hc & Hk).
  unfold create. rewrite (bind_ok _ _ Hpre), bind_self_get.
  destruct (truthy (get_or (doc w1) "name" (VBool false))) eqn:En; simpl.
  2:{ do 2 eexists. split; [reflexivity|]. simpl. auto. }
  rewrite !bind_self_get.
  destruct (negb (truthy (get_or (doc w1) "value" (VBool false)))
            && negb (py_eq (get_or (doc w1) "type" (VStr "standard"))
                       (VStr "dynamic"))) eqn:Ev.
  { do 2 eexists. split; [reflexivity|]. simpl. auto. }
  destruct H as [H | [H | H]].
  - unfold lacks_name in H. unfold get_or in En. rewrite Hd, H in En.
    discriminate.
  - destruct H as [Hv Ht]. unfold get_or in Ev at 1. rewrite Hd in Ev.
    rewrite Hv in Ev. rewrite Ht in Ev. discriminate.
  - destruct H as (Hig & fs & f & Hf & Hin & Hdisk).
    rewrite <- Hd in Hf. rewrite <- Hk in Hdisk.
    destruct (validate_files_missing fs f w1 Hf Hin Hdisk) as (m & Hval).
    rewrite bind_self_get.
    unfold get_or at 1. rewrite Hf, Hig.
    assert (truthy (VList (map VStr fs)) = true) as ->.
    { destruct fs; [contradiction | reflexivity]. }
    simpl. rewrite (bind_raise _ _ Hval).
    do 2 eexists. split; [reflexivity|]. simpl. auto.
Qed.

Lemma request_ok_inv c w r w' :
  request remote c w = (Ok r, w') ->
  remote (c :: calls w) = Responded r /\ w' = add_call c w.
Proof.
  unfold request. simpl.
  destruct (remote (c :: calls w)); [|discriminate].
  now intros [= -> <-].
Qed.

(** *** What an operation leaves alone

    [frame D Q w w']: the disk is the same, the document changed within
    [D], the requests issued in between all satisfy [Q], and the terminal
    output only grew. *)

Section Frame.
Variable D : dict -> dict -> Prop.
Variable Q : call -> Prop.
Hypothesis D_refl : forall d, D d d.
Hypothesis D_trans : forall a b c, D a b -> D b c -> D a c.

Definition frame (w w' : world) : Prop :=
  D (doc w) (doc w')
  /\ disk w' = disk w
  /\ (exists new, calls w' = new ++ calls w /\ Forall Q new)
  /\ (exists msgs, echoed w' = msgs ++ echoed w).

Definition keeps {A} (m : M A) : Prop := forall w, frame w (snd (m w)).

Lemma frame_refl w : frame w w.
Proof.
  repeat split; auto; exists []; auto.
Qed.

Lemma frame_trans a b c : frame a b -> frame b c -> frame a c.
Proof.
  intros (H1 & H2 & (n1 & H3 & H4) & (m1 & H5))
         (G1 & G2 & (n2 & G3 & G4) & (m2 & G5)).
  repeat split.
  - eauto.
  - congruence.
  - exists (n2 ++ n1). split.
    + now rewrite G3, H3, app_assoc.
    + apply Forall_app; auto.
  - exists (m2 ++ m1). now rewrite G5, H5, app_assoc.
Qed.

Lemma keeps_ret A (a : A) : keeps (ret a).
Proof. intros w. apply frame_refl. Qed.

Lemma keeps_raise A e : keeps (@raise A e).
Proof. intros w. apply frame_refl. Qed.

Lemma keeps_lift A (r : result A) : keeps (lift r).
Proof. intros w. apply frame_refl. Qed.

Lemma keeps_gets A (f : world -> A) : keeps (gets f).
Proof. intros w. apply frame_refl. Qed.

Lemma keeps_bind A B (m : M A) (k : A -> M B) :
  keeps m -> (forall a, keeps (k a)) -> keeps (bind m k).
Proof.
  intros Hm Hk w. unfold bind. specialize (Hm w).
  destruct (m w) as [[a|e] w1]; simpl in *; [|exact Hm].
  eapply frame_trans; [exact Hm | apply Hk].
Qed.

Lemma keeps_secho m : keeps (secho m).
Proof.
  intros w. repeat split; simpl; auto.
  - exists []; auto.
  - exists [m]; auto.
Qed.

Lemma keeps_set_id i : keeps (modify (set_id i)).
Proof.
  intros w. repeat split; simpl; auto; exists []; auto.
Qed.

Lemma keeps_request c : Q c -> keeps (request remote c).
Proof.
  intros Hc w. unfold request.
  assert (frame w (add_call c w)) as F.
  { repeat split; simpl; auto.
    - exists [c]; auto.
    - exists []; auto. }
  destruct (remote (calls (add_call c w))); exact F.
Qed.

Lemma keeps_self_set k v :
  (forall d, D d (dict_set d k v)) -> keeps (self_set k v).
Proof.
  intros H w. repeat split; simpl; auto; exists []; auto.
Qed.

Lemma keeps_when b (m : M unit) : keeps m -> keeps (when b m).
Proof. destruct b; simpl; auto using keeps_ret. Qed.

Lemma keeps_for_each A (l : list A) (f : A -> M unit) :
  (forall x, keeps (f x)) -> keeps (for_each l f).
Proof.
  intros Hf. induction l; simpl; auto using keeps_ret, keeps_bind.
Qed.

Lemma keeps_for_each_return A (l : list A) (f : A -> M (option bool)) :
  (forall x, keeps (f x)) -> keeps (for_each_return l f).
Proof.
  intros Hf. induction l; simpl; [apply keeps_ret|].
  apply keeps_bind; [apply Hf|]. intros [b|]; auto using keeps_ret.
Qed.

Lemma keeps_except A (m h : M A) :
  keeps m -> keeps h -> keeps (except_invalid_file m h).
Proof.
  intros Hm Hh w. unfold except_invalid_file. specialize (Hm w).
  destruct (m w) as [[a|e] w1]; simpl in *; [exact Hm|].
  destruct e; try exact Hm.
  eapply frame_trans; [exact Hm | apply Hh].
Qed.

Lemma keeps_raise_for_status r : keeps (raise_for_status r).
Proof. unfold raise_for_status. destruct (ok r); intros w; apply frame_refl. Qed.

Lemma keeps_json_of r : keeps (json_of r).
Proof. unfold json_of. destruct (json r); intros w; apply frame_refl. Qed.

Lemma keeps_item V (d : list (string * V)) k : keeps (item d k).
Proof. unfold item. destruct (dict_get d k); intros w; apply frame_refl. Qed.

Lemma keeps_self_get k d : keeps (self_get k d).
Proof. intros w. apply frame_refl. Qed.

Lemma keeps_self_item k : keeps (self_item k).
Proof. intros w. apply frame_refl. Qed.

Lemma keeps_read_file p : keeps (read_file p).
Proof.
  intros w. unfold read_file, bind, gets. simpl.
  destruct (disk w p) as [[c|]|]; apply frame_refl.
Qed.

Lemma keeps_path_exists p : keeps (path_exists p).
Proof. intros w. apply frame_refl. Qed.

Lemma keeps_unbound_local n : keeps (unbound_local n).
Proof. intros w. apply frame_refl. Qed.

Ltac keeps_tac :=
  repeat first
    [ progress intros
    | apply keeps_ret | apply keeps_raise | apply keeps_lift
    | apply keeps_gets | apply keeps_secho | apply keeps_set_id
    | apply keeps_raise_for_status | apply keeps_json_of
    | apply keeps_item | apply keeps_self_get | apply keeps_self_item
    | apply keeps_read_file | apply keeps_path_exists
    | apply keeps_unbound_local
    | apply keeps_request; solve [auto]
    | solve [auto with keeps]
    | apply keeps_when | apply keeps_for_each
    | apply keeps_for_each_return | apply keeps_except
    | apply keeps_bind
    | match goal with
      | |- keeps (if ?b then _ else _) => destruct b
      | |- keeps (match ?x with _ => _ end) => destruct x
      | |- keeps (let (_, _) := ?x in _) => destruct x
      end ].

(** **** Operations that only read the remote *)

Hypothesis Q_get : forall u, Q (GET u).

Lemma keeps_load_installed_challenges :
  keeps (load_installed_challenges remote).
Proof. unfold load_installed_challenges. keeps_tac. Qed.

Lemma keeps_load_installed_challenge i :
  keeps (load_installed_challenge remote i).
Proof. unfold load_installed_challenge. keeps_tac. Qed.
#[local] Hint Resolve keeps_load_installed_challenges
  keeps_load_installed_challenge : keeps.

Lemma keeps_load_challenge_id_loop l : keeps (load_challenge_id_loop l).
Proof. induction l; simpl; keeps_tac. Qed.
#[local] Hint Resolve keeps_load_challenge_id_loop : keeps.

Lemma keeps_load_challenge_id : keeps (_load_challenge_id remote).
Proof. unfold _load_challenge_id. keeps_tac. Qed.

Lemma keeps_validate_files : keeps _validate_files.
Proof. unfold _validate_files. keeps_tac. Qed.

Lemma keeps_get_part p : keeps (get_part remote p).
Proof. unfold get_part. keeps_tac. Qed.
#[local] Hint Resolve keeps_load_challenge_id keeps_validate_files
  keeps_get_part : keeps.

Lemma keeps_normalize_challenge cd :
  keeps (_normalize_challenge remote cd).
Proof. unfold _normalize_challenge. keeps_tac. Qed.

Lemma keeps_compare_challenge_requirements r1 r2 :
  keeps (_compare_challenge_requirements remote r1 r2).
Proof. unfold _compare_challenge_requirements. keeps_tac. Qed.

Lemma keeps_normalize_next r : keeps (normalize_next remote r).
Proof. unfold normalize_next. keeps_tac. Qed.
#[local] Hint Resolve keeps_normalize_challenge
  keeps_compare_challenge_requirements keeps_normalize_next : keeps.

Lemma keeps_compare_challenge_next r1 r2 :
  keeps (_compare_challenge_next remote r1 r2).
Proof. unfold _compare_challenge_next. keeps_tac. Qed.
#[local] Hint Resolve keeps_compare_challenge_next : keeps.

Lemma keeps_verify_key ignore n k : keeps (verify_key remote ignore n k).
Proof. unfold verify_key. keeps_tac. Qed.

Lemma keeps_get_files_sha1sums : keeps (_get_files_sha1sums remote).
Proof. unfold _get_files_sha1sums. keeps_tac. Qed.
#[local] Hint Resolve keeps_verify_key keeps_get_files_sha1sums : keeps.

(** Splits [H : bind m k w = (Ok _, _)] and records the frame of [m]. *)
Ltac split_bind H :=
  match type of H with
  | bind ?m ?k ?w = (Ok _, _) =>
      let Hm := fresh "F" in
      let He := fresh "E" in
      assert (Hm : keeps m) by keeps_tac;
      specialize (Hm w);
      apply bind_ok_inv in H; destruct H as (? & ? & He & H);
      rewrite He in Hm; simpl in Hm; clear He; cbv beta in H
  end.

Ltac case_if H :=
  match type of H with
  | (if ?b then _ else _) _ = _ => destruct b
  end.

(** When the body of the key loop leaves [verify], it is with [False],
    and right after a diagnostic. *)
Lemma verify_key_returns ignore n k w b w1 :
  verify_key remote ignore n k w = (Ok (Some b), w1) ->
  b = false /\ exists w0 m, frame w w0 /\ w1 = add_echo m w0.
Proof.
  unfold verify_key. destruct (ignored ignore k); [discriminate|].
  rewrite bind_gets. unfold item.
  destruct (dict_get n k) as [theirs|]; [|discriminate].
  rewrite bind_ret.
  destruct (negb (dict_mem (doc w) k)).
  - destruct (is_default_challenge_property k theirs); [discriminate|].
    intros [= <- <-]. split; auto.
    exists w. eexists. split; [apply frame_refl | reflexivity].
  - intros H. split_bind H.
    case_if H; [|discriminate].
    split_bind H. case_if H; [discriminate|].
    split_bind H. case_if H; [discriminate|].
    injection H as <- <-. split; auto.
    eexists. eexists. split; [|reflexivity].
    eauto using frame_trans.
Qed.

Lemma keeps_verify_remote_file lf rf sums n :
  keeps (verify_remote_file remote hash_file lf rf sums n).
Proof. unfold verify_remote_file. keeps_tac. Qed.
#[local] Hint Resolve keeps_verify_remote_file : keeps.

Lemma keeps_verify_files f : keeps (verify_files remote hash_file f).
Proof. unfold verify_files. keeps_tac. Qed.
#[local] Hint Resolve keeps_verify_files : keeps.

(** [self["files"] = self.get("files") or []] *)
Hypothesis D_default_files :
  forall d,
    D d (dict_set d "files" (py_or (get_or d "files" VNone) (VList []))).

Lemma keeps_default_files A (k : unit -> M A) :
  (forall u, keeps (k u)) ->
  keeps (f <- self_get "files" VNone ;;
         bind (self_set "files" (py_or f (VList []))) k).
Proof.
  intros Hk w. rewrite bind_self_get. unfold self_set.
  rewrite bind_modify.
  eapply frame_trans; [|apply Hk].
  repeat split; simpl; auto; exists []; auto.
Qed.

Lemma keeps_verify ignore : keeps (verify remote hash_file ignore).
Proof.
  unfold verify.
  do 5 (apply keeps_bind; [solve [keeps_tac] | intros ?]).
  apply keeps_default_files. keeps_tac.
Qed.

(** **** Operations that change the sub-resources of the challenge *)

Hypothesis Q_delete : forall u, Q (DELETE u).
Hypothesis Q_post : forall u b, Q (POST u b).
Hypothesis Q_patch :
  forall u d, dict_get d "state" = None -> Q (PATCH u (VDict d)).

Lemma keeps_delete_existing_of c : keeps (delete_existing_of remote c).
Proof. unfold delete_existing_of. keeps_tac. Qed.
#[local] Hint Resolve keeps_delete_existing_of : keeps.

Lemma keeps_create_flags : keeps (_create_flags remote).
Proof. unfold _create_flags. keeps_tac. Qed.

Lemma keeps_delete_existing_topics : keeps (_delete_existing_topics remote).
Proof. unfold _delete_existing_topics. keeps_tac. Qed.

Lemma keeps_create_topics : keeps (_create_topics remote).
Proof. unfold _create_topics. keeps_tac. Qed.

Lemma keeps_create_tags : keeps (_create_tags remote).
Proof. unfold _create_tags. keeps_tac. Qed.

Lemma keeps_delete_file l : keeps (_delete_file remote l).
Proof. unfold _delete_file. keeps_tac. Qed.

Lemma keeps_create_file p : keeps (_create_file remote p).
Proof. unfold _create_file, files_form. keeps_tac. Qed.

Lemma keeps_open_all l : keeps (open_all l).
Proof. induction l; simpl; keeps_tac. Qed.
#[local] Hint Resolve keeps_create_flags keeps_delete_existing_topics
  keeps_create_topics keeps_create_tags keeps_delete_file
  keeps_create_file keeps_open_all : keeps.

Lemma keeps_create_all_files : keeps (_create_all_files remote).
Proof. unfold _create_all_files, files_form. keeps_tac. Qed.

Lemma keeps_create_hints : keeps (_create_hints remote).
Proof. unfold _create_hints. keeps_tac. Qed.

Lemma keeps_resolve_requirements rc l acc :
  keeps (resolve_requirements rc l acc).
Proof. revert acc. induction l; simpl; keeps_tac. Qed.
#[local] Hint Resolve keeps_create_all_files keeps_create_hints
  keeps_resolve_requirements : keeps.

Lemma keeps_set_required_challenges :
  keeps (_set_required_challenges remote).
Proof.
  unfold _set_required_challenges, challenge_url. keeps_tac.
Qed.

Lemma keeps_set_next n : keeps (_set_next remote n).
Proof.
  unfold _set_next, challenge_url. keeps_tac.
Qed.

Lemma keeps_sync_local_file lf rf sums n :
  keeps (sync_local_file remote hash_file lf rf sums n).
Proof. unfold sync_local_file. keeps_tac. Qed.
#[local] Hint Resolve keeps_set_required_challenges keeps_set_next
  keeps_sync_local_file : keeps.

Lemma keeps_sync_files rc : keeps (sync_files remote hash_file rc).
Proof.
  unfold sync_files. apply keeps_default_files. keeps_tac.
Qed.
#[local] Hint Resolve keeps_sync_files : keeps.

(** **** The stages of [create] and [sync] *)

Ltac join_frames :=
  repeat match goal with
         | F1 : frame ?a ?b, F2 : frame ?b ?c |- _ =>
             pose proof (frame_trans _ _ _ F1 F2); clear F1 F2
         end.

(** A [create] that returns has validated and built its payload without
    a request, then sent the payload, then run the steps framed by
    [frame], and last decided on the visibility request. *)
Lemma create_stages ignore w w' :
  create remote ignore w = (Ok tt, w') ->
  exists w0 p w3,
    only_echoed w w0
    /\ _get_initial_challenge_payload ignore w0 = (Ok p, w0)
    /\ frame
         (add_call
            (POST (Url "/api/v1/challenges")
               (Json (VDict (reset_to_empty ignore
                               ["category"; "description"; "attribution"]
                               p))))
            w0)
         w3
    /\ when (py_eq (get_or (doc w3) "state" (VStr "visible"))
               (VStr "visible")
             || ignored ignore "state")
         (visible_patch remote) w3
       = (Ok tt, w').
Proof.
  intros H. destruct (create_preamble ignore w) as (w1 & Hpre & Hecho).
  unfold create in H. rewrite (bind_ok _ _ Hpre) in H.
  rewrite bind_self_get in H. case_if H; [discriminate|].
  rewrite !bind_self_get in H. case_if H; [discriminate|].
  rewrite bind_self_get in H.
  inv_bind H.
  apply pure_ok_inv in E; [subst | apply pure_when, pure_validate_files].
  inv_bind H.
  pose proof (pure_ok_inv _ _ _ _ _ (pure_initial_payload ignore) E).
  subst.
  inv_bind H. apply request_ok_inv in E0. destruct E0 as [_ ->].
  do 5 split_bind H.
  do 7 (rewrite bind_self_get in H; split_bind H).
  rewrite bind_self_get in H.
  join_frames.
  eexists. eexists. eexists.
  split; [exact Hecho|]. split; [exact E|]. split; eassumption.
Qed.

(** The same for [sync], which first finds the challenge ([w1]) and
    loads it ([rc], [w2]). *)
Lemma sync_stages ignore w w' :
  sync remote hash_file ignore w = (Ok tt, w') ->
  exists w0 p w1 rc w2 p' w3 b,
    only_echoed w w0
    /\ _get_initial_challenge_payload ignore w0 = (Ok p, w0)
    /\ _load_challenge_id remote w0 = (Ok tt, w1)
    /\ load_installed_challenge remote (challenge_id w1) w1 = (Ok rc, w2)
    /\ reset_to_remote ignore rc
         ["value"; "category"; "type"; "description"; "attribution"] p
       = Ok p'
    /\ frame
         (add_call
            (PATCH (UrlId "/api/v1/challenges/" (challenge_id w2) "")
               (VDict p'))
            w2)
         w3
    /\ (if negb (ignored ignore "state")
        then b = py_eq (get_or (doc w3) "state" (VStr "visible"))
                   (VStr "visible")
        else exists s,
               py_get rc "state" VNone = Ok s
               /\ b = py_eq s (VStr "visible"))
    /\ when b (visible_patch remote) w3 = (Ok tt, w').
Proof.
  intros H. unfold sync in H.
  inv_bind H.
  assert (only_echoed w x0) as Hecho.
  { destruct (ignored ignore "name"); simpl in E;
      inversion E; subst; repeat split. }
  clear E.
  rewrite bind_self_get in H. case_if H; [discriminate|].
  rewrite bind_self_get in H.
  inv_bind H.
  apply pure_ok_inv in E; [subst | apply pure_when, pure_validate_files].
  inv_bind H.
  pose proof (pure_ok_inv _ _ _ _ _ (pure_initial_payload ignore) E).
  subst.
  inv_bind H. destruct x. inv_bind H. injection E1 as <-.
  inv_bind H. inv_bind H.
  unfold challenge_url in H. rewrite bind_bind, bind_gets, bind_ret in H.
  inv_bind H. apply request_ok_inv in E3. destruct E3 as [_ ->].
  split_bind H.
  do 5 split_bind H.
  rewrite bind_self_get in H. split_bind H.
  rewrite bind_self_get in H. split_bind H.
  inv_bind H.
  join_frames.
  match type of E3 with
  | _ ?wa = (Ok ?b, ?wb) =>
      assert (wb = wa
              /\ if negb (ignored ignore "state")
                 then b = py_eq (get_or (doc wa) "state" (VStr "visible"))
                            (VStr "visible")
                 else exists s,
                        py_get x "state" VNone = Ok s
                        /\ b = py_eq s (VStr "visible")) as [-> Hb]
  end.
  { destruct (negb (ignored ignore "state")).
    - rewrite bind_self_get in E3. apply ret_ok_inv in E3.
      destruct E3 as [<- ->]. auto.
    - inv_bind E3. apply ret_ok_inv in E3. destruct E3 as [<- ->].
      eauto. }
  destruct x3.
  do 8 eexists.
  split; [exact Hecho|]. split; [exact E|]. split; [exact E0|].
  split; [exact E1|]. split; [exact E2|]. split; [exact H0|].
  split; [exact Hb | exact H].
Qed.

End Frame.

(** *** [verify] reads, and defaults [files] *)

Definition is_get (c : call) : Prop :=
  match c with
  | GET _ => True
  | _ => False
  end.

(** The one change [verify] makes to the document: a missing or empty
    [files] becomes the empty list. *)
Definition files_defaulted (d d' : dict) : Prop :=
  d' = d
  \/ (truthy (get_or d "files" VNone) = false
      /\ d' = dict_set d "files" (VList [])).

Lemma files_defaulted_refl d : files_defaulted d d.
Proof. now left. Qed.

Lemma files_defaulted_trans a b c :
  files_defaulted a b -> files_defaulted b c -> files_defaulted a c.
Proof.
  intros [->|[Ha ->]] [->|[Hb ->]]; try (now left); try (now right).
  right. split; [exact Ha|].
  apply dict_set_present, dict_get_set_same.
Qed.

Lemma files_defaulted_default d :
  files_defaulted d
    (dict_set d "files" (py_or (get_or d "files" VNone) (VList []))).
Proof.
  unfold py_or. destruct (truthy (get_or d "files" VNone)) eqn:E.
  - left. apply dict_set_present. unfold get_or in *.
    destruct (dict_get d "files"); [reflexivity | discriminate].
  - right. auto.
Qed.

(** C2, as the code has it: whatever its outcome, [verify] sends only
    [GET] requests and leaves the disk as it was; in the document it
    changes nothing but [files], which it sets to the empty list when the
    key is missing or holds an empty value. *)
Theorem verify_reads_and_defaults_files (ignore : list string) w :
  (exists new,
      calls (snd (verify remote hash_file ignore w)) = new ++ calls w
      /\ Forall is_get new)
  /\ disk (snd (verify remote hash_file ignore w)) = disk w
  /\ (doc (snd (verify remote hash_file ignore w)) = doc w
      \/ (truthy (get_or (doc w) "files" VNone) = false
          /\ doc (snd (verify remote hash_file ignore w))
             = dict_set (doc w) "files" (VList []))).
Proof.
  destruct (@keeps_verify files_defaulted is_get files_defaulted_refl
              files_defaulted_trans (fun _ => I) files_defaulted_default
              ignore w) as (Hd & Hk & Hc & _).
  auto.
Qed.

(** *** Default elision of [attempts] in [verify] *)

Lemma lift_keys_loop_other group cd keys c c' k :
  lift_keys_loop group cd keys c = Ok c' ->
  group <> k -> dict_get c' k = dict_get c k.
Proof.
  intros H N. revert c H.
  induction keys as [|key keys IH]; cbn [lift_keys_loop]; intros c H.
  - now injection H as <-.
  - inv_res H. destruct a; [|auto].
    do 3 inv_res H.
    apply IH in H. rewrite H.
    rewrite dict_get_set_other by assumption.
    destruct (negb (dict_mem c group)); [|reflexivity].
    now rewrite dict_get_set_other.
Qed.

Lemma normalize_challenge_attempts rc w n w' :
  _normalize_challenge remote rc w = (Ok n, w') ->
  exists cd m,
    rc = VDict cd
    /\ dict_get cd "max_attempts" = Some m
    /\ dict_get n "attempts" = Some m.
Proof.
  intros H. unfold _normalize_challenge in H.
  do 8 inv_bind H.
  repeat inv_bind H.
  apply ret_ok_inv in H. destruct H as [<- _].
  destruct rc; try discriminate.
  exists d, x4. split; [reflexivity|]. split.
  - simpl in E4. destruct (dict_get d "max_attempts"); congruence.
  - rewrite !dict_get_set_other by discriminate.
    erewrite lift_keys_loop_other; [| exact E6 | discriminate].
    erewrite lift_keys_loop_other; [| exact E5 | discriminate].
    apply dict_get_set_same.
Qed.

Definition response_data (r : response) : option value :=
  match json r with
  | Some (VDict d) => dict_get d "data"
  | _ => None
  end.

(** The request for one challenge, as an administrator. *)
Definition detail (id : value) : call :=
  GET (UrlId "/api/v1/challenges/" id "?view=admin").

Lemma load_installed_challenge_inv id w rc w' :
  load_installed_challenge remote id w = (Ok rc, w') ->
  exists r,
    remote (detail id :: calls w) = Responded r
    /\ response_data r = Some rc
    /\ w' = add_call (detail id) w.
Proof.
  intros H. unfold load_installed_challenge in H.
  inv_bind H. apply request_ok_inv in E. destruct E as [E ->].
  case_eq (ok x); intros Hok; rewrite Hok in H; [|discriminate].
  simpl in H. inv_bind H. unfold json_of in E0.
  destruct (json x) as [j|] eqn:Ej; [|discriminate].
  apply ret_ok_inv in E0. destruct E0 as [-> ->].
  inv_bind H. destruct x0; try discriminate. simpl in E0.
  injection E0 as <-.
  destruct (truthy (get_or d "data" VNone)) eqn:Et; [|discriminate].
  apply ret_ok_inv in H. destruct H as [H ->].
  exists x. repeat split; auto.
  unfold response_data. rewrite Ej. unfold get_or in H, Et.
  destruct (dict_get d "data"); [congruence | discriminate].
Qed.

(** Whenever the remote answers the request for a challenge with a
    challenge, its [max_attempts] is [n]. *)
Definition remote_max_attempts (n : Z) : Prop :=
  forall history id r cd,
    remote (detail id :: history) = Responded r ->
    response_data r = Some (VDict cd) ->
    dict_get cd "max_attempts" = Some (VInt n).

(** A diagnostic was printed between [w] and [w']. *)
Definition diagnosed (w w' : world) : Prop :=
  exists m msgs, echoed w' = m :: msgs ++ echoed w.

Definition same_doc (d d' : dict) : Prop := d' = d.
Definition any_call (c : call) : Prop := True.

Lemma same_doc_trans a b c : same_doc a b -> same_doc b c -> same_doc a c.
Proof. unfold same_doc. congruence. Qed.

Lemma diagnosed_after w w1 w' :
  frame same_doc any_call w w1 -> diagnosed w1 w' -> diagnosed w w'.
Proof.
  intros (_ & _ & _ & (ms & H1)) (m & msgs & H2).
  exists m, (msgs ++ ms). now rewrite H2, H1, app_assoc.
Qed.

Lemma verify_key_attempts_mismatch ignore n w :
  ignored ignore "attempts" = false ->
  dict_get n "attempts" = Some (VInt 3) ->
  dict_get (doc w) "attempts" = None ->
  verify_key remote ignore n "attempts" w
  = (Ok (Some false),
     add_echo [Lit "attempts"; Lit " is not in challenge."] w).
Proof.
  intros Hi Hn Hd. unfold verify_key. rewrite Hi, bind_gets.
  unfold item. rewrite Hn, bind_ret. unfold dict_mem. rewrite Hd.
  reflexivity.
Qed.

Lemma verify_keys_stop_at_attempts ignore n keys w r w' :
  ignored ignore "attempts" = false ->
  dict_get n "attempts" = Some (VInt 3) ->
  dict_get (doc w) "attempts" = None ->
  In "attempts" keys ->
  for_each_return keys (verify_key remote ignore n) w = (Ok r, w') ->
  r = Some false /\ diagnosed w w'.
Proof.
  intros Hi Hn. revert w.
  induction keys as [|key keys IH]; intros w Hd Hin H; [contradiction|].
  simpl in H. inv_bind H.
  pose proof (@keeps_verify_key same_doc any_call (fun d => eq_refl)
                same_doc_trans (fun _ => I) ignore n key w) as F.
  rewrite E in F. simpl in F.
  destruct x as [b|].
  - apply ret_ok_inv in H. destruct H as [<- <-].
    apply (@verify_key_returns same_doc any_call (fun d => eq_refl)
             same_doc_trans (fun _ => I)) in E.
    destruct E as (-> & w0 & m & F0 & ->). split; [reflexivity|].
    destruct F0 as (_ & _ & _ & (ms & F0)).
    exists m, ms. simpl. now rewrite F0.
  - destruct Hin as [->|Hin].
    { rewrite (verify_key_attempts_mismatch _ _ _ Hi Hn Hd) in E.
      discriminate. }
    destruct (IH x0) as [-> Hdiag]; auto.
    + destruct F as (F & _). unfold same_doc in F. now rewrite F.
    + split; [reflexivity|]. eapply diagnosed_after; eauto.
Qed.

(** Against a remote whose [max_attempts] is 3, [verify] of a document
    without [attempts] ([attempts] not in the ignore-set), when it returns,
    returns [False] after a diagnostic. *)
Lemma verify_stops_at_attempts (ignore : list string) w :
  ignored ignore "attempts" = false ->
  dict_get (doc w) "attempts" = None ->
  remote_max_attempts 3 ->
  forall b w',
    verify remote hash_file ignore w = (Ok b, w') ->
    b = false /\ diagnosed w w'.
Proof.
  intros Hi Hd Hremote b w' H. unfold verify in H.
  inv_bind H.
  pose proof (@keeps_load_challenge_id same_doc any_call
                (fun d => eq_refl) same_doc_trans (fun _ => I) w) as F1.
  rewrite E in F1. simpl in F1.
  inv_bind H. injection E0 as <-.
  inv_bind H.
  pose proof (@keeps_load_installed_challenge same_doc any_call
                (fun d => eq_refl) same_doc_trans (fun _ => I)
                (challenge_id x0) x0) as F2.
  rewrite E0 in F2. simpl in F2.
  inv_bind H.
  pose proof (@keeps_normalize_challenge same_doc any_call
                (fun d => eq_refl) same_doc_trans (fun _ => I) x1 x2) as F3.
  rewrite E1 in F3. simpl in F3.
  destruct (normalize_challenge_attempts _ _ _ _ E1) as (cd & m & -> & Hm & Hn).
  destruct (load_installed_challenge_inv _ _ _ _ E0) as (r & Hr & Hdata & _).
  rewrite (Hremote _ _ _ _ Hr Hdata) in Hm. injection Hm as <-.
  inv_bind H. rewrite bind_self_get in H. unfold self_set in H.
  rewrite bind_modify in H.
  inv_bind H.
  pose proof (frame_trans same_doc any_call same_doc_trans _ _ _
                (frame_trans same_doc any_call same_doc_trans _ _ _ F1 F2)
                F3) as F.
  apply verify_keys_stop_at_attempts in E3; auto.
  - destruct E3 as [-> Hdiag].
    apply ret_ok_inv in H. destruct H as [<- <-].
    split; [reflexivity|].
    eapply diagnosed_after; [exact F|].
    destruct Hdiag as (msg & msgs & Hdiag).
    exists msg, msgs. exact Hdiag.
  - simpl. rewrite dict_get_set_other by discriminate.
    destruct F as (F & _). unfold same_doc in F. now rewrite F.
  - eapply dict_get_in_keys; eauto.
Qed.

(** *** Files during [sync]: re-upload by checksum *)

Lemma request_run c w r :
  remote (c :: calls w) = Responded r ->
  request remote c w = (Ok r, add_call c w).
Proof. intros H. unfold request. simpl. now rewrite H. Qed.

Lemma item_run V (d : list (string * V)) k v :
  dict_get d k = Some v -> item d k = ret v.
Proof. intros H. unfold item. now rewrite H. Qed.

Lemma read_file_run p c w :
  disk w p = Some (File c) -> read_file p w = (Ok c, w).
Proof. intros H. unfold read_file. rewrite bind_gets. now rewrite H. Qed.

Definition files_listing : call := GET (Url "/api/v1/files?type=challenge").

(** An entry of the remote file listing that is stored elsewhere. *)
Definition other_location (location : string) (entry : value) : Prop :=
  exists l,
    subscript entry "location" = Ok l /\ py_eq l (VStr location) = false.

Lemma delete_loop_skips location (l : list value) w :
  Forall (other_location location) l ->
  for_each l (fun remote_file =>
    l <- lift (subscript remote_file "location") ;;
    if py_eq l (VStr location) then
      i <- lift (subscript remote_file "id") ;;
      r <- request remote (DELETE (UrlId "/api/v1/files/" i "")) ;;
      raise_for_status r
    else ret tt) w
  = (Ok tt, w).
Proof.
  induction 1 as [|entry l (v & Hv & Hne) _ IH]; [reflexivity|].
  cbn [for_each]. rewrite Hv, bind_bind, bind_lift_ok, Hne, bind_ret.
  exact IH.
Qed.

(** The remote lists one file at [location], of id [i], and accepts its
    deletion and the upload of [path]: the three requests it then sees,
    newest first. *)
Definition reupload (i : value) (path : string) (c : bytes) (w : world)
  : list call :=
  [POST (Url "/api/v1/files")
     (Multipart [(path, c)]
        (VDict [("challenge_id", challenge_id w);
                ("type", VStr "challenge")]));
   DELETE (UrlId "/api/v1/files/" i "");
   files_listing].

Definition accepts_reupload (location : string) (i : value)
    (path : string) (c : bytes) (w : world) : Prop :=
  (exists r before entry after,
      remote (files_listing :: calls w) = Responded r
      /\ response_data r = Some (VList (before ++ VDict entry :: after))
      /\ dict_get entry "location" = Some (VStr location)
      /\ dict_get entry "id" = Some i
      /\ Forall (other_location location) before
      /\ Forall (other_location location) after)
  /\ (exists r,
         remote (skipn 1 (reupload i path c w) ++ calls w) = Responded r
         /\ ok r = true)
  /\ (exists r,
         remote (reupload i path c w ++ calls w) = Responded r
         /\ ok r = true).

Lemma delete_file_one location i path c w :
  accepts_reupload location i path c w ->
  _delete_file remote location w
  = (Ok tt, add_call (DELETE (UrlId "/api/v1/files/" i ""))
              (add_call files_listing w)).
Proof.
  intros ((r & before & entry & after & Hr & Hdata & Hloc & Hid & Hb & Ha)
          & (r2 & Hr2 & Hok2) & _).
  unfold _delete_file. fold files_listing.
  rewrite (bind_ok _ _ (request_run _ _ _ Hr)).
  unfold response_data in Hdata. unfold json_of.
  destruct (json r) as [[]|]; try discriminate.
  rewrite bind_ret. cbn [subscript]. rewrite Hdata, bind_lift_ok.
  cbn [py_iter]. rewrite bind_lift_ok.
  set (body := fun remote_file : value => _).
  rewrite for_each_app.
  rewrite (bind_ok _ _ (delete_loop_skips _ _ _ Hb)).
  cbn [for_each]. unfold body at 1. cbn [subscript]. rewrite Hloc.
  rewrite bind_bind, bind_lift_ok. simpl py_eq. rewrite String.eqb_refl.
  rewrite Hid, !bind_bind, bind_lift_ok, !bind_bind.
  rewrite (bind_ok _ _ (request_run (DELETE (UrlId "/api/v1/files/" i "")) (add_call files_listing w) _ Hr2)).
  unfold raise_for_status. rewrite Hok2, bind_ret.
  apply delete_loop_skips, Ha.
Qed.

Lemma create_file_run path c w r :
  disk w path = Some (File c) ->
  remote (POST (Url "/api/v1/files")
            (Multipart [(path, c)]
               (VDict [("challenge_id", challenge_id w);
                       ("type", VStr "challenge")])) :: calls w)
  = Responded r ->
  ok r = true ->
  exists w',
    _create_file remote path w = (Ok tt, w')
    /\ calls w'
       = POST (Url "/api/v1/files")
           (Multipart [(path, c)]
              (VDict [("challenge_id", challenge_id w);
                      ("type", VStr "challenge")])) :: calls w.
Proof.
  intros Hd Hr Hok. unfold _create_file.
  rewrite (bind_ok _ _ (read_file_run _ _ _ Hd)).
  unfold files_form. rewrite bind_bind, bind_gets, bind_ret.
  rewrite (bind_ok _ _ (request_run _ _ _ Hr)).
  unfold raise_for_status. rewrite Hok. eexists. split; reflexivity.
Qed.

(** One round of the loop of [sync] over the local files does return, for
    a file [name] that the remote has too (at [location]) and whose local
    content is [c]: with a remote checksum equal to the local one, having
    sent nothing; with a differing checksum, or none, on a remote that
    lists the file once and accepts the requests, having sent the listing
    it looks the file up in, one [DELETE] and one [POST]. *)
Lemma sync_local_file_runs
    local_files remote_files sha1sums name path u location c w :
  dict_get local_files name = Some path ->
  dict_get remote_files name = Some (u, location) ->
  disk w path = Some (File c) ->
  (forall s,
      vdict_get sha1sums (VStr location) = Some (VStr s) ->
      s = hash_file c ->
      sync_local_file remote hash_file local_files remote_files sha1sums
        name w
      = (Ok tt, w))
  /\ (forall s i,
         vdict_get sha1sums (VStr location) = Some s ->
         s = VNone \/ py_eq (VStr (hash_file c)) s = false ->
         accepts_reupload location i path c w ->
         exists w',
           sync_local_file remote hash_file local_files remote_files
             sha1sums name w
           = (Ok tt, w')
           /\ calls w' = reupload i path c w ++ calls w).
Proof.
  intros Hl Hr Hd.
  assert (dict_mem remote_files name = true) as Hmem
      by (unfold dict_mem; now rewrite Hr).
  split.
  - intros s Hs ->. unfold sync_local_file.
    rewrite Hmem. cbn [negb].
    rewrite (item_run _ _ _ _ Hr), bind_ret. cbn [snd].
    rewrite Hs, bind_ret. cbn [is_none negb].
    rewrite (item_run _ _ _ _ Hl).
    repeat (rewrite bind_bind || rewrite bind_ret).
    rewrite (bind_ok _ _ (read_file_run _ _ _ Hd)), bind_ret.
    cbn [py_eq]. now rewrite String.eqb_refl.
  - intros s i Hs Hdiff Hacc. unfold sync_local_file.
    rewrite Hmem. cbn [negb].
    rewrite (item_run _ _ _ _ Hr), bind_ret. cbn [snd].
    rewrite Hs, bind_ret.
    assert ((if negb (is_none s)
             then p <- item local_files name ;;
                  lf <- read_file p ;;
                  ret (py_eq (VStr (hash_file lf)) s)
             else ret false) w = (Ok false, w)) as Hun.
    { destruct Hdiff as [->|Hne]; [reflexivity|].
      destruct (is_none s); [reflexivity|]. cbn [negb].
      rewrite (item_run _ _ _ _ Hl), bind_ret.
      rewrite (bind_ok _ _ (read_file_run _ _ _ Hd)).
      unfold ret. now rewrite Hne. }
    rewrite (bind_ok _ _ Hun).
    rewrite (bind_ok _ _ (delete_file_one _ _ _ _ _ Hacc)).
    rewrite (item_run _ _ _ _ Hl), bind_ret.
    destruct Hacc as (_ & _ & (r3 & Hr3 & Hok3)).
    destruct (create_file_run path c
                (add_call (DELETE (UrlId "/api/v1/files/" i ""))
                   (add_call files_listing w)) r3 Hd Hr3 Hok3)
      as (w' & Hrun & Hcalls).
    exists w'. split; [exact Hrun | exact Hcalls].
Qed.

(** *** The visibility bracket of [create] and [sync] *)

(** The request sets the state of the challenge to visible. *)
Definition sets_visible (c : call) : bool :=
  match c with
  | PATCH _ (VDict d) =>
      match dict_get d "state" with
      | Some v => py_eq v (VStr "visible")
      | None => false
      end
  | _ => false
  end.

(** The newest request of a history sets the state to visible. *)
Definition ends_visible (history : list call) : bool :=
  match history with
  | c :: _ => sets_visible c
  | [] => false
  end.

(** [extra] or [geo_flags], merged into the payload, has a [state] key. *)
Definition group_sets_state (ignore : list string) (d : dict)
    (group : string) : bool :=
  negb (ignored ignore group)
  && match get_or d group (VDict []) with
     | VDict m => dict_mem m "state"
     | _ => false
     end.

Definition no_state_override (ignore : list string) (d : dict) : Prop :=
  group_sets_state ignore d "extra" = false
  /\ group_sets_state ignore d "geo_flags" = false.

Lemma dict_merge_other (a b : dict) k :
  dict_mem b k = false -> dict_get (dict_merge a b) k = dict_get a k.
Proof.
  unfold dict_merge. revert a.
  induction b as [|[k' v'] b IH]; intros a H; [reflexivity|].
  unfold dict_mem in H. simpl in H. simpl.
  destruct (String.eqb_spec k' k) as [->|N]; [discriminate|].
  rewrite IH.
  - now apply dict_get_set_other.
  - unfold dict_mem. exact H.
Qed.

Lemma merged_group_keeps_state ignore d group (payload : dict) w x w' :
  group_sets_state ignore d group = false ->
  (if negb (ignored ignore group) then
     m <- lift (as_mapping (get_or d group (VDict []))) ;;
     ret (dict_merge payload m)
   else ret payload) w = (Ok x, w') ->
  dict_get x "state" = dict_get payload "state".
Proof.
  unfold group_sets_state. intros Hg H.
  destruct (negb (ignored ignore group)).
  - inv_bind H. apply ret_ok_inv in H. destruct H as [<- _].
    destruct (get_or d group (VDict [])); try discriminate.
    injection E as <-. now apply dict_merge_other.
  - apply ret_ok_inv in H. now destruct H as [<- _].
Qed.

Lemma initial_payload_hidden ignore w p w' :
  _get_initial_challenge_payload ignore w = (Ok p, w') ->
  no_state_override ignore (doc w) ->
  dict_get p "state" = Some (VStr "hidden").
Proof.
  intros H [Hx Hg]. unfold _get_initial_challenge_payload in H.
  inv_bind H. inv_bind H. injection E0 as <-.
  inv_bind H. inv_bind H. apply ret_ok_inv in H. destruct H as [<- _].
  rewrite (merged_group_keeps_state _ _ _ _ _ _ _ Hg E1).
  rewrite (merged_group_keeps_state _ _ _ _ _ _ _ Hx E0).
  repeat match goal with
         | |- context [if ?b then _ else _] => destruct b
         | |- context [match ?v with VStr _ => _ | _ => _ end] => destruct v
         end;
    repeat rewrite dict_get_set_other by discriminate; reflexivity.
Qed.

Lemma reset_to_remote_other ignore rc props p p' k :
  reset_to_remote ignore rc props p = Ok p' ->
  ~ In k props -> dict_get p' k = dict_get p k.
Proof.
  revert p. induction props as [|q props IH]; intros p H N.
  - now injection H as <-.
  - cbn [reset_to_remote] in H. destruct (ignored ignore q).
    + inv_res H. rewrite (IH _ H) by (simpl in N; tauto).
      apply dict_get_set_other. simpl in N. tauto.
    + apply IH; [exact H | simpl in N; tauto].
Qed.

Lemma reset_to_empty_other ignore props p k :
  ~ In k props -> dict_get (reset_to_empty ignore props p) k = dict_get p k.
Proof.
  unfold reset_to_empty. revert p.
  induction props as [|q props IH]; intros p N; [reflexivity|].
  simpl. rewrite IH by (simpl in N; tauto).
  destruct (ignored ignore q); [|reflexivity].
  apply dict_get_set_other. simpl in N. tauto.
Qed.

(** The [state] entry of the document is the same. *)
Definition state_kept (d d' : dict) : Prop :=
  dict_get d' "state" = dict_get d "state".

(** The request does not make the challenge visible. *)
Definition quiet (c : call) : Prop := sets_visible c = false.

Lemma state_kept_trans a b c :
  state_kept a b -> state_kept b c -> state_kept a c.
Proof. unfold state_kept. congruence. Qed.

Lemma state_kept_default_files d :
  state_kept d
    (dict_set d "files" (py_or (get_or d "files" VNone) (VList []))).
Proof. apply dict_get_set_other. discriminate. Qed.

Lemma quiet_patch u d : dict_get d "state" = None -> quiet (PATCH u (VDict d)).
Proof. unfold quiet. simpl. now intros ->. Qed.

Lemma load_installed_challenges_world w :
  snd (load_installed_challenges remote w) = add_call listing w.
Proof.
  unfold load_installed_challenges. fold listing.
  unfold bind at 1, request.
  destruct (remote (calls (add_call listing w))); [|reflexivity].
  match goal with
  | |- snd (?k (add_call listing w)) = _ =>
      assert (pure k) as K by pure_tac; apply K
  end.
Qed.

Lemma load_challenge_id_calls w r w' :
  _load_challenge_id remote w = (r, w') ->
  calls w' = listing :: calls w /\ doc w' = doc w.
Proof.
  unfold _load_challenge_id, bind at 1.
  pose proof (load_installed_challenges_world w) as Hw.
  destruct (load_installed_challenges remote w) as [[l|e] w1];
    simpl in Hw; subst w1.
  2:{ now intros [= _ <-]. }
  intros H.
  assert (keeps same_doc (fun _ => False)
            (if negb (truthy l)
             then raise (RemoteChallengeNotFound
                           [Lit "Could not load any remote challenges"])
             else
               l0 <- lift (py_iter l) ;;
               load_challenge_id_loop l0 ;;
               cid <- gets challenge_id ;;
               if is_none cid
               then
                 mine <- self_item "name" ;;
                 raise (RemoteChallengeNotFound
                          [Lit "Could not load remote challenge with name '";
                           Fmt mine; Lit "'"])
               else ret tt)) as K.
  { assert (forall d, same_doc d d) as R by (intros; reflexivity).
    pose proof same_doc_trans as T.
    destruct (negb (truthy l)); [now apply keeps_raise|].
    apply keeps_bind; [exact T | now apply keeps_lift | intros l0].
    apply keeps_bind;
      [exact T | now apply keeps_load_challenge_id_loop | intros _].
    apply keeps_bind; [exact T | now apply keeps_gets | intros cid].
    destruct (is_none cid); [|now apply keeps_ret].
    apply keeps_bind; [exact T | now apply keeps_self_item | intros mine].
    now apply keeps_raise. }
  specialize (K (add_call listing w)). rewrite H in K.
  destruct K as (Hd & _ & (new & Hc & Hn) & _). simpl in *.
  split; [|exact Hd].
  destruct new as [|c new]; [exact Hc|].
  inversion Hn; contradiction.
Qed.

Lemma visibility_decision b w3 w' mid first base :
  when b (visible_patch remote) w3 = (Ok tt, w') ->
  calls w3 = mid ++ first :: base ->
  Forall quiet mid ->
  sets_visible first = false ->
  exists later,
    calls w' = later ++ first :: base /\ ends_visible (calls w') = b.
Proof.
  intros H Hc Hq Hf. destruct b; simpl in H.
  - unfold visible_patch, challenge_url in H.
    rewrite bind_bind, bind_gets, bind_ret in H.
    inv_bind H. apply request_ok_inv in E. destruct E as [_ ->].
    unfold raise_for_status in H. destruct (ok x); [|discriminate].
    apply ret_ok_inv in H. destruct H as [_ ->].
    eexists (_ :: mid). simpl. rewrite Hc. split; reflexivity.
  - apply ret_ok_inv in H. destruct H as [_ ->].
    exists mid. split; [exact Hc|]. rewrite Hc.
    destruct Hq as [|c mid Hcq _]; [exact Hf | exact Hcq].
Qed.

Definition remote_state (rc : value) : value :=
  match rc with
  | VDict d => get_or d "state" VNone
  | _ => VNone
  end.

(** What [create] and [sync] resolve the desired state to. *)
Definition create_wants_visible (ignore : list string) (d : dict) : bool :=
  py_eq (get_or d "state" (VStr "visible")) (VStr "visible")
  || ignored ignore "state".

Definition sync_wants_visible (ignore : list string) (d : dict)
    (rc : value) : bool :=
  if ignored ignore "state"
  then py_eq (remote_state rc) (VStr "visible")
  else py_eq (get_or d "state" (VStr "visible")) (VStr "visible").

(** C6, as the code has it, for a [create] and a [sync] that return and a
    document whose [extra] and [geo_flags] (unless ignored) have no
    [state] key of their own: the challenge payload, sent first after the
    lookups, has state "hidden", and the last request sets the state to
    "visible" exactly when the resolved desired state is visible. *)
Theorem visibility_bracket (ignore : list string) w w' :
  no_state_override ignore (doc w) ->
  (create remote ignore w = (Ok tt, w') ->
   exists payload later,
     calls w'
     = later ++ POST (Url "/api/v1/challenges") (Json (VDict payload))
                :: calls w
     /\ dict_get payload "state" = Some (VStr "hidden")
     /\ ends_visible (calls w') = create_wants_visible ignore (doc w))
  /\ (sync remote hash_file ignore w = (Ok tt, w') ->
      exists id r rc payload later,
        calls w'
        = later ++ PATCH (UrlId "/api/v1/challenges/" id "") (VDict payload)
                   :: detail id :: listing :: calls w
        /\ dict_get payload "state" = Some (VStr "hidden")
        /\ remote (detail id :: listing :: calls w) = Responded r
        /\ response_data r = Some rc
        /\ ends_visible (calls w') = sync_wants_visible ignore (doc w) rc).
Proof.
  intros Hno. split; intros H.
  - apply (create_stages state_kept quiet) in H;
      try (now intros); try apply state_kept_trans; try apply quiet_patch.
    destruct H as (w0 & p & w3 & (Hd & _ & Hc & _) & Hp & F & H).
    rewrite <- Hd in Hno.
    pose proof (initial_payload_hidden _ _ _ _ Hp Hno) as Hs.
    destruct F as (Fd & _ & (mid & Fc & Fq) & _).
    cbn [calls doc add_call] in Fd, Fc.
    destruct (visibility_decision _ _ _ _ _ _ H Fc Fq eq_refl)
      as (later & Hl & He).
    eexists. exists later. rewrite <- Hc. split; [exact Hl|]. split.
    + rewrite reset_to_empty_other; [exact Hs|].
      simpl. intros [|[|[|[]]]]; discriminate.
    + rewrite He. unfold create_wants_visible, get_or.
      unfold state_kept in Fd. now rewrite Fd, Hd.
  - apply (sync_stages state_kept quiet) in H;
      try (now intros); try apply state_kept_trans;
      try apply quiet_patch; try apply state_kept_default_files.
    destruct H as (w0 & p & w1 & rc & w2 & p' & w3 & b
                   & (Hd & _ & Hc & _) & Hp & Hid & Hload & Hreset
                   & F & Hb & H).
    rewrite <- Hd in Hno.
    pose proof (initial_payload_hidden _ _ _ _ Hp Hno) as Hs.
    destruct (load_challenge_id_calls _ _ _ Hid) as [Hc1 Hd1].
    destruct (load_installed_challenge_inv _ _ _ _ Hload)
      as (r & Hr & Hdata & ->).
    assert (dict_get p' "state" = Some (VStr "hidden")) as Hs'.
    { rewrite (reset_to_remote_other _ _ _ _ _ _ Hreset); [exact Hs|].
      simpl. intros [|[|[|[|[|[]]]]]]; discriminate. }
    destruct F as (Fd & _ & (mid & Fc & Fq) & _). simpl in Fd, Fc.
    assert (sets_visible
              (PATCH (UrlId "/api/v1/challenges/" (challenge_id w1) "")
                 (VDict p')) = false) as Hq
        by (simpl; now rewrite Hs').
    destruct (visibility_decision _ _ _ _ _ _ H Fc Fq Hq)
      as (later & Hl & He).
    exists (challenge_id w1), r, rc, p', later.
    rewrite Hc1, Hc in Hl, Hr.
    split; [exact Hl|]. split; [exact Hs'|]. split; [exact Hr|].
    split; [exact Hdata|].
    rewrite He. unfold sync_wants_visible.
    destruct (ignored ignore "state"); simpl in Hb.
    + destruct Hb as (s & Hget & ->).
      destruct rc; try discriminate. simpl in Hget. now injection Hget as <-.
    + rewrite Hb. unfold get_or. unfold state_kept in Fd.
      now rewrite Fd, Hd1, Hd.
Qed.
End Properties.

(** * Further properties of the operations *)

Section Further.
Variable remote : list call -> outcome.
Variable hash_file : bytes -> string.

(** ** Loading one challenge *)

(** X1: A refused request for a challenge, and an answer without data, both end
    in [RemoteChallengeNotFound] for that id, after the one request. *)
Theorem load_installed_challenge_not_found (id : value) w r :
  remote (detail id :: calls w) = Responded r ->
  no_data r ->
  load_installed_challenge remote id w
  = (Raise (RemoteChallengeNotFound
              [Lit "Could not load challenge with id="; Fmt id]),
     add_call (detail id) w).
Proof.
  intros Hr Hn. unfold load_installed_challenge.
  rewrite (bind_ok _ _ (request_run remote _ _ _ Hr)).
  destruct Hn as [Hok | (d & Hj & Ht)].
  - now rewrite Hok.
  - destruct (ok r); [|reflexivity]. cbn [negb].
    unfold json_of. rewrite Hj, bind_ret. cbn [py_get].
    rewrite bind_lift_ok. now rewrite Ht.
Qed.

(** ** The checks of [sync] before its first request *)

(** X2: [sync] raises [InvalidChallengeFile], having sent nothing and changed
    nothing, when the document has no (or an empty) name, and when it lists
    (files not ignored) a file that is not on disk. *)
Theorem sync_fails_before_any_call (ignore : list string) w :
  truthy (get_or (doc w) "name" VNone) = false
  \/ lists_missing_file ignore w ->
  exists m w',
    sync remote hash_file ignore w = (Raise (InvalidChallengeFile m), w')
    /\ calls w' = calls w /\ doc w' = doc w /\ disk w' = disk w.
Proof.
  intros H. unfold sync.
  assert (exists w1,
             when (ignored ignore "name")
               (secho [Lit "Attribute 'name' cannot be ignored when syncing a challenge"])
               w = (Ok tt, w1) /\ only_echoed w w1) as (w1 & Hpre & Hd & Hi & Hc & Hk).
  { destruct (ignored ignore "name"); eexists;
      (split; [reflexivity | repeat split]). }
  rewrite (bind_ok _ _ Hpre), bind_self_get.
  destruct (truthy (get_or (doc w1) "name" VNone)) eqn:En; cbn [negb].
  2:{ do 2 eexists. split; [reflexivity|]. auto. }
  destruct H as [H | (Hig & fs & f & Hf & Hin & Hdisk)].
  { rewrite Hd, H in En. discriminate. }
  rewrite <- Hd in Hf. rewrite <- Hk in Hdisk.
  destruct (validate_files_missing fs f w1 Hf Hin Hdisk) as (m & Hval).
  rewrite bind_self_get. unfold get_or at 1. rewrite Hf, Hig.
  assert (truthy (VList (map VStr fs)) = true) as ->
      by (destruct fs; [contradiction | reflexivity]).
  simpl. rewrite (bind_raise _ _ Hval).
  do 2 eexists. split; [reflexivity|]. auto.
Qed.

(** ** Ignored fields in the payload of [sync] and [create] *)

Lemma reset_to_remote_set ignore rc props p p' k :
  reset_to_remote ignore rc props p = Ok p' ->
  In k props -> ignored ignore k = true ->
  exists v, subscript rc k = Ok v /\ dict_get p' k = Some v.
Proof.
  revert p. induction props as [|q props IH]; intros p H Hin Hig;
    [contradiction|].
  cbn [reset_to_remote] in H.
  destruct (in_dec string_dec k props) as [Hk|Hk].
  - destruct (ignored ignore q); [inv_res H|]; eapply IH; eauto.
  - destruct Hin as [->|Hin]; [|contradiction].
    rewrite Hig in H. inv_res H.
    exists a. split; [reflexivity|].
    rewrite (reset_to_remote_other _ _ _ _ _ _ H Hk).
    apply dict_get_set_same.
Qed.

Lemma reset_to_empty_set ignore props p k :
  In k props -> ignored ignore k = true ->
  dict_get (reset_to_empty ignore props p) k = Some (VStr "").
Proof.
  unfold reset_to_empty. revert p.
  induction props as [|q props IH]; intros p Hin Hig; [contradiction|].
  cbn [fold_left].
  destruct (in_dec string_dec k props) as [Hk|Hk]; [now apply IH|].
  destruct Hin as [->|Hin]; [|contradiction].
  rewrite Hig.
  fold (reset_to_empty ignore props (dict_set p k (VStr ""))).
  rewrite reset_to_empty_other by assumption.
  apply dict_get_set_same.
Qed.

(** The properties that [sync] takes from the remote when they are ignored. *)
Definition reset_properties : list string :=
  ["value"; "category"; "type"; "description"; "attribution"].

(** X3: A [sync] that returns has sent, right after its two lookups, a payload
    in which every ignored property among value, category, type, description
    and attribution has the value of the challenge it loaded from the
    remote, whatever the document says. *)
Theorem sync_sends_remote_value_of_ignored (ignore : list string) w w' :
  sync remote hash_file ignore w = (Ok tt, w') ->
  exists id r rc payload later,
    calls w'
    = later ++ PATCH (UrlId "/api/v1/challenges/" id "") (VDict payload)
               :: detail id :: listing :: calls w
    /\ remote (detail id :: listing :: calls w) = Responded r
    /\ response_data r = Some rc
    /\ forall k,
         In k reset_properties -> ignored ignore k = true ->
         exists v, subscript rc k = Ok v /\ dict_get payload k = Some v.
Proof.
  intros H.
  apply (sync_stages remote hash_file state_kept any_call) in H;
    try (now intros); try apply state_kept_trans;
    try apply state_kept_default_files.
  destruct H as (w0 & p & w1 & rc & w2 & p' & w3 & b
                 & (Hd & _ & Hc & _) & Hp & Hid & Hload & Hreset
                 & F & Hb & H).
  destruct (load_challenge_id_calls remote _ _ _ Hid) as [Hc1 Hd1].
  destruct (load_installed_challenge_inv remote _ _ _ _ Hload)
    as (r & Hr & Hdata & ->).
  destruct F as (_ & _ & (mid & Fc & _) & _).
  cbn [calls add_call] in Fc.
  assert (exists later, calls w' = later ++ calls w3) as (l & Hl).
  { destruct b; simpl in H.
    - unfold visible_patch, challenge_url in H.
      rewrite bind_bind, bind_gets, bind_ret in H.
      inv_bind H. apply request_ok_inv in E. destruct E as [_ ->].
      unfold raise_for_status in H. destruct (ok x); [|discriminate].
      apply ret_ok_inv in H. destruct H as [_ ->].
      eexists [_]. reflexivity.
    - apply ret_ok_inv in H. destruct H as [_ ->]. now exists []. }
  exists (challenge_id w1), r, rc, p', (l ++ mid).
  rewrite Hc1, Hc in Fc, Hr.
  split; [now rewrite Hl, Fc, app_assoc|].
  split; [exact Hr|]. split; [exact Hdata|].
  intros k Hk Hig. exact (reset_to_remote_set _ _ _ _ _ _ Hreset Hk Hig).
Qed.

(** X4: A [create] that returns has sent first a payload in which every ignored
    property among category, description and attribution is the empty
    string, whatever the document and its [extra] say. *)
Theorem create_blanks_ignored_text (ignore : list string) w w' :
  create remote ignore w = (Ok tt, w') ->
  exists payload later,
    calls w'
    = later ++ POST (Url "/api/v1/challenges") (Json (VDict payload))
               :: calls w
    /\ forall k,
         In k ["category"; "description"; "attribution"] ->
         ignored ignore k = true ->
         dict_get payload k = Some (VStr "").
Proof.
  intros H.
  apply (create_stages remote state_kept any_call) in H;
    try (now intros); try apply state_kept_trans.
  destruct H as (w0 & p & w3 & (Hd & _ & Hc & _) & Hp & F & H).
  destruct F as (_ & _ & (mid & Fc & _) & _).
  cbn [calls add_call] in Fc.
  assert (exists later, calls w' = later ++ calls w3) as (l & Hl).
  { destruct (_ || _); simpl in H.
    - unfold visible_patch, challenge_url in H.
      rewrite bind_bind, bind_gets, bind_ret in H.
      inv_bind H. apply request_ok_inv in E. destruct E as [_ ->].
      unfold raise_for_status in H. destruct (ok x); [|discriminate].
      apply ret_ok_inv in H. destruct H as [_ ->].
      eexists [_]. reflexivity.
    - apply ret_ok_inv in H. destruct H as [_ ->]. now exists []. }
  eexists. exists (l ++ mid). rewrite Hc in Fc.
  split; [now rewrite Hl, Fc, app_assoc|].
  intros k Hk Hig. now apply reset_to_empty_set.
Qed.

(** ** What the requests for the parts of a challenge carry *)

(** The requests issued from [w] to [w'] all satisfy [P]; the id of the
    challenge is the same. *)
Definition issued (P : call -> Prop) (w w' : world) : Prop :=
  (exists new, calls w' = new ++ calls w /\ Forall P new)
  /\ challenge_id w' = challenge_id w.

Lemma issued_refl P w : issued P w w.
Proof. split; [exists []; auto | reflexivity]. Qed.

Lemma issued_trans P a b c : issued P a b -> issued P b c -> issued P a c.
Proof.
  intros [(n1 & H1 & F1) I1] [(n2 & H2 & F2) I2]. split; [|congruence].
  exists (n2 ++ n1). split; [now rewrite H2, H1, app_assoc|].
  apply Forall_app; auto.
Qed.

Lemma issued_one (P : call -> Prop) c w : P c -> issued P w (add_call c w).
Proof. intros H. split; [exists [c]; auto | reflexivity]. Qed.

Lemma issued_request (P : call -> Prop) c (k : response -> M unit) w :
  P c ->
  (forall r w1, issued P w1 (snd (k r w1))) ->
  issued P w (snd (bind (request remote c) k w)).
Proof.
  intros Hc Hk. unfold bind, request.
  destruct (remote (calls (add_call c w))); simpl.
  - eapply issued_trans; [apply issued_one, Hc | apply Hk].
  - apply issued_one, Hc.
Qed.

Lemma issued_raise_for_status P r w :
  issued P w (snd (raise_for_status r w)).
Proof. unfold raise_for_status. destruct (ok r); apply issued_refl. Qed.

Lemma issued_for_each (P : value -> call -> Prop) A (l : list A)
    (f : A -> M unit) :
  (forall x w, issued (P (challenge_id w)) w (snd (f x w))) ->
  forall w, issued (P (challenge_id w)) w (snd (for_each l f w)).
Proof.
  intros Hf. induction l as [|x l IH]; intros w; [apply issued_refl|].
  simpl. unfold bind. specialize (Hf x w).
  destruct (f x w) as [[[]|e] w1]; simpl in *; [|exact Hf].
  eapply issued_trans; [exact Hf|].
  specialize (IH w1). destruct Hf as [_ Hid]. now rewrite Hid in IH.
Qed.

(** A request that creates an entry of [collection] for the challenge
    [cid]. *)
Definition creates_for (collection : string) (cid : value) (c : call)
  : Prop :=
  exists p,
    c = POST (Url collection) (Json (VDict p))
    /\ dict_get p "challenge_id" = Some cid.

(** X5: Every request of [_create_flags], [_create_hints], [_create_tags] and
    [_create_topics], whether they return or raise, is a POST to their
    collection whose JSON names this challenge as [challenge_id]: a flag
    given as a mapping with a [challenge_id] of its own is sent with the id
    of this challenge. *)
Theorem created_parts_name_this_challenge w :
  issued (creates_for "/api/v1/flags" (challenge_id w)) w
    (snd (_create_flags remote w))
  /\ issued (creates_for "/api/v1/hints" (challenge_id w)) w
       (snd (_create_hints remote w))
  /\ issued (creates_for "/api/v1/tags" (challenge_id w)) w
       (snd (_create_tags remote w))
  /\ issued (creates_for "/api/v1/topics" (challenge_id w)) w
       (snd (_create_topics remote w)).
Proof.
  assert (forall (P : value -> call -> Prop) key
                 (f : value -> M unit),
             (forall x w, issued (P (challenge_id w)) w (snd (f x w))) ->
             issued (P (challenge_id w)) w
               (snd ((v <- self_item key ;;
                      l <- lift (py_iter v) ;;
                      for_each l f) w))) as loop.
  { intros P key f Hf. unfold self_item.
    rewrite bind_bind, bind_gets. unfold bind at 1, lift.
    destruct (subscript (VDict (doc w)) key) as [v|]; [|apply issued_refl].
    unfold bind. destruct (py_iter v); [|apply issued_refl].
    now apply issued_for_each. }
  split; [|split; [|split]].
  - apply (loop (creates_for "/api/v1/flags")). clear. intros flag w.
    rewrite bind_gets.
    destruct (is_str flag).
    + rewrite bind_ret. apply issued_request.
      * eexists. split; reflexivity.
      * intros. apply issued_raise_for_status.
    + rewrite bind_bind. unfold bind at 1, lift.
      destruct (as_mapping flag) as [m|]; [|apply issued_refl].
      rewrite bind_ret. apply issued_request.
      * eexists. split; [reflexivity | apply dict_get_set_same].
      * intros. apply issued_raise_for_status.
  - apply (loop (creates_for "/api/v1/hints")). clear. intros hint w.
    rewrite bind_gets.
    destruct (is_str hint).
    + rewrite bind_ret. apply issued_request.
      * eexists. split; reflexivity.
      * intros. apply issued_raise_for_status.
    + rewrite !bind_bind. unfold bind at 1, lift.
      destruct (subscript hint "content"); [|apply issued_refl].
      rewrite !bind_bind. unfold bind at 1.
      destruct (py_get hint "title" _); [|apply issued_refl].
      rewrite !bind_bind. unfold bind at 1.
      destruct (py_get hint "cost" _); [|apply issued_refl].
      rewrite bind_ret. apply issued_request.
      * eexists. split; reflexivity.
      * intros. apply issued_raise_for_status.
  - apply (loop (creates_for "/api/v1/tags")). clear. intros tag w.
    rewrite bind_gets. apply issued_request.
    + eexists. split; reflexivity.
    + intros. apply issued_raise_for_status.
  - apply (loop (creates_for "/api/v1/topics")). clear. intros topic w.
    rewrite bind_gets. apply issued_request.
    + eexists. split; reflexivity.
    + intros. apply issued_raise_for_status.
Qed.

(** ** Deleting the parts of a challenge *)

(** The entries that the response to a listing request carries. *)
Definition listed (r : response) : option (list value) :=
  match json r with
  | Some j =>
      match subscript j "data" with
      | Ok d => match py_iter d with Ok l => Some l | Raise _ => None end
      | Raise _ => None
      end
  | None => None
  end.

(** [entry] is recorded for the challenge [cid] and has the id [i]. *)
Definition own_entry (cid entry i : value) : Prop :=
  exists c,
    subscript entry "challenge_id" = Ok c
    /\ py_eq c cid = true
    /\ subscript entry "id" = Ok i.

(** The requests that delete the entries [ids] of [collection], the first
    one last. *)
Definition deletions (collection : string) (ids : list value) : list call :=
  rev (map (fun i => DELETE (UrlId (collection ++ "/") i "")) ids).

Lemma delete_own_step collection entry w res w1 :
  (c <- lift (subscript entry "challenge_id") ;;
   cid <- gets challenge_id ;;
   if py_eq c cid then
     i <- lift (subscript entry "id") ;;
     r <- request remote (DELETE (UrlId (collection ++ "/") i "")) ;;
     raise_for_status r
   else ret tt) w = (res, w1) ->
  (w1 = w
   /\ (res = Ok tt ->
       forall c, subscript entry "challenge_id" = Ok c ->
                 py_eq c (challenge_id w) = false))
  \/ (exists i,
         own_entry (challenge_id w) entry i
         /\ w1 = add_call (DELETE (UrlId (collection ++ "/") i "")) w).
Proof.
  unfold bind at 1, lift.
  destruct (subscript entry "challenge_id") as [c|e] eqn:Ec.
  2:{ intros [= <- <-]. left. split; [reflexivity | discriminate]. }
  rewrite bind_gets.
  destruct (py_eq c (challenge_id w)) eqn:Eo.
  2:{ intros [= <- <-]. left. split; [reflexivity|]. congruence. }
  unfold bind at 1.
  destruct (subscript entry "id") as [i|e] eqn:Ei.
  2:{ intros [= <- <-]. left. split; [reflexivity | discriminate]. }
  intros H. right. exists i. split; [exists c; auto|].
  unfold bind, request in H.
  destruct (remote _); [|now injection H as _ <-].
  unfold raise_for_status in H. destruct (ok r); now injection H as _ <-.
Qed.

Lemma delete_own_loop collection entries w res w' :
  for_each entries (fun entry =>
    c <- lift (subscript entry "challenge_id") ;;
    cid <- gets challenge_id ;;
    if py_eq c cid then
      i <- lift (subscript entry "id") ;;
      r <- request remote (DELETE (UrlId (collection ++ "/") i "")) ;;
      raise_for_status r
    else ret tt) w = (res, w') ->
  exists deleted,
    calls w' = deletions collection deleted ++ calls w
    /\ challenge_id w' = challenge_id w
    /\ (forall i, In i deleted ->
          exists entry, In entry entries /\ own_entry (challenge_id w) entry i)
    /\ (res = Ok tt ->
        forall entry c,
          In entry entries ->
          subscript entry "challenge_id" = Ok c ->
          py_eq c (challenge_id w) = true ->
          exists i, subscript entry "id" = Ok i /\ In i deleted).
Proof.
  revert w. induction entries as [|entry entries IH]; intros w H.
  - injection H as <- <-. exists []. repeat split; try contradiction.
  - cbn [for_each] in H. unfold bind at 1 in H.
    match type of H with
    | (let (_, _) := ?m w in _) = _ => destruct (m w) as [[[]|e] w1] eqn:E
    end.
    + apply delete_own_step in E.
      apply IH in H. destruct H as (deleted & Hc & Hid & Hown & Hall).
      destruct E as [[-> Hnot] | (i & Hi & ->)].
      * exists deleted. split; [exact Hc|]. split; [exact Hid|]. split.
        -- intros j Hj. destruct (Hown j Hj) as (e & He & Ho).
           exists e. split; [now right | exact Ho].
        -- intros Hres e c [<-|He] Hsub Heq.
           ++ rewrite (Hnot eq_refl c Hsub) in Heq. discriminate.
           ++ eauto.
      * exists (i :: deleted). cbn [calls add_call challenge_id] in *.
        split.
        { unfold deletions in *. cbn [map rev]. rewrite Hc.
          now rewrite <- app_assoc. }
        split; [exact Hid|]. split.
        -- intros j [<-|Hj].
           ++ exists entry. split; [now left | exact Hi].
           ++ destruct (Hown j Hj) as (e & He & Ho).
              exists e. split; [now right | exact Ho].
        -- intros Hres e c [<-|He] Hsub Heq.
           ++ destruct Hi as (c' & _ & _ & Hi). exists i. split; auto.
              now left.
           ++ destruct (Hall Hres e c He Hsub Heq) as (j & Hj & Hin).
              exists j. split; [exact Hj | now right].
    + injection H as <- <-.
      apply delete_own_step in E.
      destruct E as [[-> _] | (i & Hi & ->)].
      * exists []. repeat split; try contradiction. discriminate.
      * exists [i]. split; [reflexivity|]. split; [reflexivity|]. split.
        -- intros j [<-|[]]. exists entry. split; [now left | exact Hi].
        -- discriminate.
Qed.

(** X6: [_delete_existing_flags], [_delete_existing_tags] and
    [_delete_existing_hints] list their collection once and then only
    delete: each entry they delete is one that the listing recorded for this
    challenge, and when they return they have deleted every such entry. *)
Theorem delete_existing_deletes_own_entries
    (collection : string) w res w' r entries :
  remote (GET (Url collection) :: calls w) = Responded r ->
  listed r = Some entries ->
  delete_existing_of remote collection w = (res, w') ->
  exists deleted,
    calls w'
    = deletions collection deleted ++ GET (Url collection) :: calls w
    /\ (forall i, In i deleted ->
          exists entry, In entry entries /\ own_entry (challenge_id w) entry i)
    /\ (res = Ok tt ->
        forall entry c,
          In entry entries ->
          subscript entry "challenge_id" = Ok c ->
          py_eq c (challenge_id w) = true ->
          exists i, subscript entry "id" = Ok i /\ In i deleted).
Proof.
  intros Hr Hl H. unfold delete_existing_of in H.
  rewrite (bind_ok _ _ (request_run remote _ _ _ Hr)) in H.
  unfold listed in Hl. unfold json_of in H.
  destruct (json r) as [j|]; [|discriminate].
  rewrite bind_ret in H.
  destruct (subscript j "data") as [d|]; [|discriminate].
  rewrite bind_lift_ok in H.
  destruct (py_iter d) as [l|]; [|discriminate].
  injection Hl as ->. rewrite bind_lift_ok in H.
  apply delete_own_loop in H.
  destruct H as (deleted & Hc & _ & Hown & Hall).
  exists deleted. split; [exact Hc|]. split; assumption.
Qed.

(** ** Finding the challenge on the remote *)

(** [entry] has a name, and [b] tells whether it equals [name]. *)
Definition named (name : value) (b : bool) (entry : value) : Prop :=
  exists n, subscript entry "name" = Ok n /\ py_eq n name = b.

Lemma load_installed_challenges_inv w v w' :
  load_installed_challenges remote w = (Ok v, w') ->
  truthy v = true ->
  exists r,
    remote (listing :: calls w) = Responded r
    /\ response_data r = Some v
    /\ w' = add_call listing w.
Proof.
  intros H Ht. unfold load_installed_challenges in H. fold listing in H.
  inv_bind H. apply request_ok_inv in E. destruct E as [Hr ->].
  exists x. split; [exact Hr|].
  destruct (ok x); cbn [negb] in H.
  2:{ apply ret_ok_inv in H. destruct H as [<- _]. discriminate. }
  unfold json_of in H. destruct (json x) as [j|] eqn:Ej; [|discriminate].
  rewrite bind_ret in H. inv_bind H.
  destruct j; try discriminate. cbn [py_get] in E. injection E as <-.
  destruct (truthy (get_or d "data" VNone)) eqn:Et; cbn [negb] in H;
    apply ret_ok_inv in H; destruct H as [<- <-]; [|discriminate].
  split; [|reflexivity].
  unfold response_data. rewrite Ej. unfold get_or in *.
  destruct (dict_get d "data"); [reflexivity | discriminate].
Qed.

Lemma load_challenge_id_loop_first l w w' :
  load_challenge_id_loop l w = (Ok tt, w') ->
  (w' = w
   /\ forall name,
        dict_get (doc w) "name" = Some name -> Forall (named name false) l)
  \/ exists before entry after name i,
       l = before ++ entry :: after
       /\ dict_get (doc w) "name" = Some name
       /\ Forall (named name false) before
       /\ named name true entry
       /\ subscript entry "id" = Ok i
       /\ w' = set_id i w.
Proof.
  induction l as [|entry l IH]; cbn [load_challenge_id_loop]; intros H.
  - apply ret_ok_inv in H. destruct H as [_ <-]. left. split; auto.
  - inv_bind H. unfold self_item in H. rewrite bind_bind, bind_gets in H.
    inv_bind H. cbn [subscript] in E0.
    destruct (dict_get (doc w) "name") as [name|] eqn:En; [|discriminate].
    injection E0 as <-.
    destruct (py_eq x name) eqn:Eq.
    + inv_bind H. unfold modify in H. injection H as <-.
      right. exists [], entry, l, name, x0.
      repeat split; auto. exists x. auto.
    + destruct (IH H) as [[-> Hall] | (b & e & a & nm & i & -> & Hn & Hb & He & Hi & ->)].
      * left. split; [reflexivity|]. intros nm [= <-].
        constructor; [exists x; auto | auto].
      * right. injection Hn as <-.
        exists (entry :: b), e, a, name, i.
        repeat split; auto.
        constructor; [exists x; auto | exact Hb].
Qed.

(** X7: A [_load_challenge_id] that returns, for a challenge whose id is not
    known yet, has asked for the listing once; the id it has set is the [id]
    of the first listed challenge whose name equals the document's [name], and
    it is not [None]. *)
Theorem load_challenge_id_takes_first_match w w' :
  challenge_id w = VNone ->
  _load_challenge_id remote w = (Ok tt, w') ->
  exists r remote_challenges before entry after name,
    remote (listing :: calls w) = Responded r
    /\ response_data r = Some remote_challenges
    /\ py_iter remote_challenges = Ok (before ++ entry :: after)
    /\ dict_get (doc w) "name" = Some name
    /\ Forall (named name false) before
    /\ named name true entry
    /\ subscript entry "id" = Ok (challenge_id w')
    /\ challenge_id w' <> VNone
    /\ w' = set_id (challenge_id w') (add_call listing w).
Proof.
  intros Hid H. unfold _load_challenge_id in H.
  inv_bind H.
  destruct (truthy x) eqn:Et; cbn [negb] in H; [|discriminate].
  destruct (load_installed_challenges_inv _ _ _ E Et) as (r & Hr & Hdata & ->).
  inv_bind H. inv_bind H. rewrite bind_gets in H.
  match type of H with
  | (if is_none (challenge_id ?w2) then _ else _) _ = _ =>
      destruct (is_none (challenge_id w2)) eqn:Enone
  end.
  { unfold self_item in H. rewrite bind_bind, bind_gets in H.
    unfold bind, lift in H. destruct (subscript _ _); discriminate. }
  apply ret_ok_inv in H. destruct H as [_ <-].
  match type of E1 with _ = (Ok ?u, _) => destruct u end.
  apply load_challenge_id_loop_first in E1.
  destruct E1 as [[-> _] | (b & e & a & nm & i & -> & Hn & Hb & He & Hi & ->)].
  { cbn [challenge_id add_call] in Enone. rewrite Hid in Enone.
    discriminate. }
  cbn [challenge_id set_id] in *.
  exists r, x, b, e, a, nm. repeat split; auto.
  intros ->. discriminate.
Qed.

(** ** The prerequisites that are sent *)

(** The order of [sort] on the lists it accepts: numbers by value, strings
    by code point. *)
Definition py_le (a b : value) : Prop :=
  num_leb a b = true \/ str_leb a b = true.

Section InsertionSort.
Variable A : Type.
Variable leb : A -> A -> bool.
Variable P : A -> Prop.
Hypothesis leb_total :
  forall a b, P a -> P b -> leb a b = true \/ leb b a = true.

Lemma insert_sorted_Sorted x l :
  P x -> Forall P l ->
  Sorted (fun a b => leb a b = true) l ->
  Sorted (fun a b => leb a b = true) (insert_sorted leb x l).
Proof.
  intros Hx Hl Hs. induction l as [|y l IH]; cbn [insert_sorted].
  - repeat constructor.
  - destruct (leb x y) eqn:E.
    + constructor; [exact Hs | constructor; exact E].
    + inversion Hl; subst. inversion Hs; subst.
      constructor; [auto|].
      destruct l as [|z l]; cbn [insert_sorted].
      * constructor. destruct (leb_total x y); congruence.
      * destruct (leb x z).
        -- constructor. destruct (leb_total x y); congruence.
        -- constructor. match goal with H : HdRel _ _ _ |- _ => now inversion H end.
Qed.

Lemma insert_sorted_Forall x l :
  P x -> Forall P l -> Forall P (insert_sorted leb x l).
Proof.
  intros Hx Hl. induction Hl; cbn [insert_sorted]; [auto|].
  destruct (leb x x0); auto.
Qed.

Lemma insertion_sort_Sorted l :
  Forall P l ->
  Sorted (fun a b => leb a b = true) (insertion_sort leb l)
  /\ Forall P (insertion_sort leb l).
Proof.
  unfold insertion_sort.
  induction 1 as [|x l Hx Hl [IH1 IH2]]; cbn [fold_right].
  - split; constructor.
  - split; [now apply insert_sorted_Sorted | now apply insert_sorted_Forall].
Qed.
End InsertionSort.

Lemma Sorted_weaken (A : Type) (R S : A -> A -> Prop) l :
  (forall a b, R a b -> S a b) -> Sorted R l -> Sorted S l.
Proof.
  intros H. induction 1 as [|x l Hs IH Hh]; constructor; auto.
  destruct Hh; constructor; auto.
Qed.

(** What [sort] returns is in ascending order. *)
Lemma py_sort_Sorted l l' : py_sort l = Ok l' -> Sorted py_le l'.
Proof.
  unfold py_sort. destruct l as [|x [|y l]].
  - intros [= <-]. constructor.
  - intros [= <-]. repeat constructor.
  - destruct (forallb is_num (x :: y :: l)) eqn:En.
    + intros [= <-].
      apply (Sorted_weaken _ (fun a b => num_leb a b = true));
        [intros; now left|].
      refine (proj1 (insertion_sort_Sorted _ num_leb
                       (fun v => is_num v = true) _ (x :: y :: l) _)).
      * intros a b Ha Hb. unfold is_num, num_leb in *.
        destruct (as_num a), (as_num b); try discriminate.
        destruct (Z.leb_spec z z0); [now left|].
        right. apply Z.leb_le. lia.
      * rewrite forallb_forall in En. now apply Forall_forall.
    + destruct (forallb is_str (x :: y :: l)) eqn:Es; [|discriminate].
      intros [= <-].
      apply (Sorted_weaken _ (fun a b => str_leb a b = true));
        [intros; now right|].
      refine (proj1 (insertion_sort_Sorted _ str_leb
                       (fun v => is_str v = true) _ (x :: y :: l) _)).
      * intros a b Ha Hb. destruct a, b; try discriminate.
        apply String.leb_total.
      * rewrite forallb_forall in Es. now apply Forall_forall.
Qed.

Lemma resolve_requirements_only_echoes rcs l acc w x w1 :
  resolve_requirements rcs l acc w = (Ok x, w1) -> only_echoed w w1.
Proof.
  revert acc w. induction l as [|r l IH]; intros acc w H;
    cbn [resolve_requirements] in H.
  - apply ret_ok_inv in H. destruct H as [_ <-]. repeat split.
  - destruct (is_str r).
    + inv_bind H. inv_bind H. destruct x1 as [i|]; [eauto|].
      unfold secho in H. rewrite bind_modify in H.
      apply IH in H. exact H.
    + destruct (is_int r); eauto.
Qed.

(** The [anonymize] flag of the document's [requirements]. *)
Definition anonymize_of (d : dict) : value :=
  match dict_get d "requirements" with
  | Some (VDict r) => get_or r "anonymize" (VBool false)
  | _ => VBool false
  end.

(** X8: A [_set_required_challenges] that returns has asked for the listing and
    then sent one PATCH to this challenge, whose prerequisites are in
    ascending order and whose [anonymize] is the one of the document. *)
Theorem set_required_challenges_sends_sorted w w' :
  _set_required_challenges remote w = (Ok tt, w') ->
  exists prerequisites,
    calls w'
    = PATCH (UrlId "/api/v1/challenges/" (challenge_id w) "")
        (VDict [("requirements",
                 VDict [("prerequisites", VList prerequisites);
                        ("anonymize", anonymize_of (doc w))])])
      :: listing :: calls w
    /\ Sorted py_le prerequisites.
Proof.
  intros H. unfold _set_required_challenges in H.
  inv_bind H.
  pose proof (load_installed_challenges_world remote w) as Hw.
  rewrite E in Hw. cbn [snd] in Hw. subst.
  unfold self_item in H. rewrite bind_bind, bind_gets in H.
  inv_bind H. cbn [doc add_call subscript] in E0.
  inv_bind H.
  assert (snd x1 = anonymize_of (doc w) /\ x2 = add_call listing w)
    as [Ha ->].
  { unfold anonymize_of.
    destruct (dict_get (doc w) "requirements") as [req|]; [|discriminate].
    injection E0 as <-.
    destruct req; apply ret_ok_inv in E1; destruct E1 as [<- <-];
      split; reflexivity. }
  destruct x1 as [rc anonymize]. cbn [snd] in Ha. subst anonymize.
  inv_bind H. inv_bind H.
  match goal with
  | E : resolve_requirements _ _ _ _ = _ |- _ =>
      apply resolve_requirements_only_echoes in E;
      destruct E as (_ & Hid & Hc & _)
  end.
  cbn [calls challenge_id add_call] in Hid, Hc.
  inv_bind H. rewrite bind_gets in H. inv_bind H.
  match goal with
  | E : (if py_mem _ _ then _ else _) ?wa = (Ok _, ?wb) |- _ =>
      assert (calls wb = calls wa /\ challenge_id wb = challenge_id wa)
        as [Hc' Hid'];
      [ match type of E with
        | (if ?b then _ else _) _ = _ => destruct b
        end;
        [ unfold secho in E; rewrite bind_modify in E | ];
        apply ret_ok_inv in E; destruct E as [_ ->]; split; reflexivity
      | clear E ]
  end.
  inv_bind H.
  match goal with
  | E : py_sort _ = Ok _ |- _ => apply py_sort_Sorted in E; rename E into Hs
  end.
  unfold challenge_url in H. rewrite bind_bind, bind_gets, bind_ret in H.
  inv_bind H.
  match goal with
  | E : request _ _ _ = _ |- _ =>
      apply request_ok_inv in E; destruct E as [_ ->]
  end.
  match type of H with
  | raise_for_status ?r _ = _ =>
      unfold raise_for_status in H; destruct (ok r); [|discriminate]
  end.
  apply ret_ok_inv in H. destruct H as [_ ->].
  eexists. split; [|exact Hs].
  cbn [calls add_call]. now rewrite Hc', Hid', Hc, Hid.
Qed.

(** ** The next link that is sent *)


(** ** Comparing requirements without a listing *)

Lemma normalize_requirements_unlisted (ids : list Z) acc :
  normalize_requirements (VList []) (map VInt ids) acc = Ok acc.
Proof.
  induction ids as [|i ids IH]; [reflexivity | exact IH].
Qed.

(** X10: When the listing request fails or carries no data, the prerequisites
    given by id cannot be resolved and are all dropped:
    [_compare_challenge_requirements] then finds any two lists of ids
    equal. *)
Theorem compare_requirements_blind_without_listing
    (ids1 ids2 : list Z) w r :
  remote (listing :: calls w) = Responded r ->
  no_data r ->
  _compare_challenge_requirements remote
    (VList (map VInt ids1)) (VList (map VInt ids2)) w
  = (Ok true, add_call listing w).
Proof.
  intros Hr Hn. unfold _compare_challenge_requirements.
  rewrite (bind_ok _ _ (load_installed_challenges_no_data remote w r Hr Hn)).
  cbn [py_iter]. rewrite bind_lift_ok.
  rewrite normalize_requirements_unlisted, bind_lift_ok.
  cbn [py_sort]. rewrite bind_lift_ok, bind_lift_ok.
  rewrite normalize_requirements_unlisted, bind_lift_ok.
  reflexivity.
Qed.

(** ** Files during [verify] *)

(** X11: When the document lists a file that is not on disk, the file check of
    [verify] prints "InvalidChallengeFile" and answers [False]: the
    exception of [_validate_files] does not leave [verify], and no request
    is made for the files. *)
Theorem verify_files_missing_local_file
    (remote_challenge_files : value) (fs : list string) (f : string) w :
  dict_get (doc w) "files" = Some (VList (map VStr fs)) ->
  In f fs -> disk w f = None ->
  verify_files remote hash_file remote_challenge_files w
  = (Ok false, add_echo [Lit "InvalidChallengeFile"] w).
Proof.
  intros Hf Hin Hd.
  destruct (validate_files_missing fs f w Hf Hin Hd) as (m & Hv).
  unfold verify_files, bind at 1, except_invalid_file.
  rewrite (bind_raise _ _ Hv). reflexivity.
Qed.

(** ** Keys that [verify] requires in the document *)

(** The keys that every normalized remote challenge has and that no value
    makes a default. *)
Definition required_keys : list string :=
  ["description"; "attribution"; "flags"].

Lemma required_key_never_default k v :
  In k required_keys -> is_default_challenge_property k v = false.
Proof.
  intros [<-|[<-|[<-|[]]]]; reflexivity.
Qed.

Lemma normalize_challenge_required_key rc w n w' k :
  _normalize_challenge remote rc w = (Ok n, w') ->
  In k required_keys ->
  exists v, dict_get n k = Some v.
Proof.
  intros H Hk. unfold _normalize_challenge in H.
  do 8 inv_bind H.
  repeat inv_bind H.
  apply ret_ok_inv in H. destruct H as [<- _].
  destruct Hk as [<-|[<-|[<-|[]]]].
  - eexists. rewrite !dict_get_set_other by discriminate.
    erewrite lift_keys_loop_other; [| eassumption | discriminate].
    erewrite lift_keys_loop_other; [| eassumption | discriminate].
    rewrite !dict_get_set_other by discriminate.
    apply dict_get_set_same.
  - eexists. rewrite !dict_get_set_other by discriminate.
    erewrite lift_keys_loop_other; [| eassumption | discriminate].
    erewrite lift_keys_loop_other; [| eassumption | discriminate].
    rewrite !dict_get_set_other by discriminate.
    apply dict_get_set_same.
  - eexists. rewrite !dict_get_set_other by discriminate.
    apply dict_get_set_same.
Qed.

Lemma verify_key_missing ignore n k theirs w :
  ignored ignore k = false ->
  dict_get n k = Some theirs ->
  is_default_challenge_property k theirs = false ->
  dict_get (doc w) k = None ->
  verify_key remote ignore n k w
  = (Ok (Some false), add_echo [Lit k; Lit " is not in challenge."] w).
Proof.
  intros Hi Hn Hdef Hd. unfold verify_key. rewrite Hi, bind_gets.
  unfold item. rewrite Hn, bind_ret. unfold dict_mem. rewrite Hd.
  cbn [negb]. rewrite Hdef. reflexivity.
Qed.

Lemma verify_keys_stop_at_missing ignore n k theirs keys w r w' :
  ignored ignore k = false ->
  dict_get n k = Some theirs ->
  is_default_challenge_property k theirs = false ->
  dict_get (doc w) k = None ->
  In k keys ->
  for_each_return keys (verify_key remote ignore n) w = (Ok r, w') ->
  r = Some false /\ diagnosed w w'.
Proof.
  intros Hi Hn Hdef. revert w.
  induction keys as [|key keys IH]; intros w Hd Hin H; [contradiction|].
  simpl in H. inv_bind H.
  pose proof (keeps_verify_key remote same_doc any_call (fun d => eq_refl)
                same_doc_trans (fun _ => I) ignore n key w) as F.
  rewrite E in F. simpl in F.
  destruct x as [b|].
  - apply ret_ok_inv in H. destruct H as [<- <-].
    apply (verify_key_returns remote same_doc any_call (fun d => eq_refl)
             same_doc_trans (fun _ => I)) in E.
    destruct E as (-> & w0 & m & F0 & ->). split; [reflexivity|].
    destruct F0 as (_ & _ & _ & (ms & F0)).
    exists m, ms. simpl. now rewrite F0.
  - destruct Hin as [->|Hin].
    { rewrite (verify_key_missing _ _ _ _ _ Hi Hn Hdef Hd) in E.
      discriminate. }
    destruct (IH x0) as [-> Hdiag]; auto.
    + destruct F as (F & _). unfold same_doc in F. now rewrite F.
    + split; [reflexivity|]. eapply diagnosed_after; eauto.
Qed.

(** X12: A document without [description], without [attribution] or without
    [flags] never verifies unless that key is ignored: the normalized remote
    challenge always has the three keys and none of their values counts as a
    default, so [verify], when it returns, returns [False] after a
    diagnostic. *)
Theorem verify_requires_description_attribution_flags
    (ignore : list string) (k : string) w b w' :
  In k required_keys ->
  ignored ignore k = false ->
  dict_get (doc w) k = None ->
  verify remote hash_file ignore w = (Ok b, w') ->
  b = false /\ diagnosed w w'.
Proof.
  intros Hk Hi Hd H. unfold verify in H.
  inv_bind H.
  pose proof (keeps_load_challenge_id remote same_doc any_call
                (fun d => eq_refl) same_doc_trans (fun _ => I) w) as F1.
  rewrite E in F1. simpl in F1.
  inv_bind H. injection E0 as <-.
  inv_bind H.
  pose proof (keeps_load_installed_challenge remote same_doc any_call
                (fun d => eq_refl) same_doc_trans (fun _ => I)
                (challenge_id x0) x0) as F2.
  rewrite E0 in F2. simpl in F2.
  inv_bind H.
  pose proof (keeps_normalize_challenge remote same_doc any_call
                (fun d => eq_refl) same_doc_trans (fun _ => I) x1 x2) as F3.
  rewrite E1 in F3. simpl in F3.
  destruct (normalize_challenge_required_key _ _ _ _ _ E1 Hk) as (v & Hv).
  inv_bind H. rewrite bind_self_get in H. unfold self_set in H.
  rewrite bind_modify in H.
  inv_bind H.
  pose proof (frame_trans same_doc any_call same_doc_trans _ _ _
                (frame_trans same_doc any_call same_doc_trans _ _ _ F1 F2)
                F3) as F.
  apply (verify_keys_stop_at_missing ignore _ k v) in E3; auto.
  - destruct E3 as [-> Hdiag].
    apply ret_ok_inv in H. destruct H as [<- <-].
    split; [reflexivity|].
    eapply diagnosed_after; [exact F|].
    destruct Hdiag as (msg & msgs & Hdiag).
    exists msg, msgs. exact Hdiag.
  - now apply required_key_never_default.
  - simpl. rewrite dict_get_set_other.
    + destruct F as (F & _). unfold same_doc in F. now rewrite F.
    + destruct Hk as [<-|[<-|[<-|[]]]]; discriminate.
  - eapply dict_get_in_keys; eauto.
Qed.

(** ** The value in the payload *)

(** [extra] or [geo_flags], merged into the payload, has the key [key]. *)
Definition group_sets (key : string) (ignore : list string) (d : dict)
    (group : string) : bool :=
  negb (ignored ignore group)
  && match get_or d group (VDict []) with
     | VDict m => dict_mem m key
     | _ => false
     end.

Lemma merged_group_keeps key ignore d group (payload : dict) w x w' :
  group_sets key ignore d group = false ->
  (if negb (ignored ignore group) then
     m <- lift (as_mapping (get_or d group (VDict []))) ;;
     ret (dict_merge payload m)
   else ret payload) w = (Ok x, w') ->
  dict_get x key = dict_get payload key.
Proof.
  unfold group_sets. intros Hg H.
  destruct (negb (ignored ignore group)).
  - inv_bind H. apply ret_ok_inv in H. destruct H as [<- _].
    destruct (get_or d group (VDict [])); try discriminate.
    injection E as <-. now apply dict_merge_other.
  - apply ret_ok_inv in H. now destruct H as [<- _].
Qed.

(** X13: The payload carries the [value] of the document as it is, whenever the
    document has one that is not [None] (and [extra] and [geo_flags] do not
    set a [value] of their own): a value written as a string of digits is
    sent as that string, the conversion to an integer is overwritten. *)
Theorem initial_payload_value_verbatim (ignore : list string) w p w' v :
  _get_initial_challenge_payload ignore w = (Ok p, w') ->
  dict_get (doc w) "value" = Some v ->
  is_none v = false ->
  group_sets "value" ignore (doc w) "extra" = false ->
  group_sets "value" ignore (doc w) "geo_flags" = false ->
  dict_get p "value" = Some v.
Proof.
  intros H Hv Hn Hx Hg. unfold _get_initial_challenge_payload in H.
  inv_bind H. inv_bind H. injection E0 as <-.
  inv_bind H. inv_bind H. apply ret_ok_inv in H. destruct H as [<- _].
  rewrite (merged_group_keeps _ _ _ _ _ _ _ _ Hg E1).
  rewrite (merged_group_keeps _ _ _ _ _ _ _ _ Hx E0).
  assert (get_or (doc w) "value" VNone = v) as ->
      by (unfold get_or; now rewrite Hv).
  rewrite Hn. cbn [negb].
  destruct (negb (ignored ignore "connection_info"));
    destruct (negb (ignored ignore "attempts"));
    repeat rewrite dict_get_set_other by discriminate;
    apply dict_get_set_same.
Qed.

(** ** Deleting the topics *)

Definition topics_of (cid : value) : call :=
  GET (UrlId "/api/v1/challenges/" cid "/topics").

Definition topic_deletions (ids : list value) : list call :=
  rev (map (fun i =>
              DELETE (UrlId "/api/v1/topics?type=challenge&target_id=" i ""))
         ids).

Lemma delete_topics_loop topics w res w' :
  for_each topics (fun topic =>
    i <- lift (subscript topic "id") ;;
    r <- request remote
           (DELETE (UrlId "/api/v1/topics?type=challenge&target_id=" i "")) ;;
    raise_for_status r) w = (res, w') ->
  exists deleted,
    calls w' = topic_deletions deleted ++ calls w
    /\ Forall2 (fun topic i => subscript topic "id" = Ok i)
         (firstn (List.length deleted) topics) deleted
    /\ (res = Ok tt -> List.length deleted = List.length topics).
Proof.
  revert w. induction topics as [|topic topics IH]; intros w H.
  - injection H as <- <-. exists []. repeat split. constructor.
  - cbn [for_each] in H. unfold bind at 1 in H. unfold bind at 1 in H.
    unfold lift in H.
    destruct (subscript topic "id") as [i|e] eqn:Ei.
    2:{ injection H as <- <-. exists []. repeat split;
          [constructor | discriminate]. }
    unfold bind at 1, request in H.
    destruct (remote _) as [r|].
    2:{ injection H as <- <-. exists [i]. repeat split;
          [constructor; [exact Ei | constructor] | discriminate]. }
    unfold raise_for_status in H. destruct (ok r).
    2:{ injection H as <- <-. exists [i]. repeat split;
          [constructor; [exact Ei | constructor] | discriminate]. }
    apply IH in H. destruct H as (deleted & Hc & Hf & Hall).
    exists (i :: deleted). cbn [calls add_call] in Hc. split.
    { unfold topic_deletions in *. cbn [map rev]. rewrite Hc.
      now rewrite <- app_assoc. }
    split.
    + cbn [List.length firstn]. constructor; assumption.
    + intros Hres. cbn [List.length]. now rewrite (Hall Hres).
Qed.

(** X14: [_delete_existing_topics] asks for the topics of this challenge and
    then only deletes: it deletes the listed topics in their order, each by
    its [id], and when it returns it has deleted all of them. *)
Theorem delete_existing_topics_deletes_listed w res w' r topics :
  remote (topics_of (challenge_id w) :: calls w) = Responded r ->
  listed r = Some topics ->
  _delete_existing_topics remote w = (res, w') ->
  exists deleted,
    calls w'
    = topic_deletions deleted ++ topics_of (challenge_id w) :: calls w
    /\ Forall2 (fun topic i => subscript topic "id" = Ok i)
         (firstn (List.length deleted) topics) deleted
    /\ (res = Ok tt -> List.length deleted = List.length topics).
Proof.
  intros Hr Hl H. unfold _delete_existing_topics in H.
  rewrite bind_gets in H. fold (topics_of (challenge_id w)) in H.
  rewrite (bind_ok _ _ (request_run remote _ _ _ Hr)) in H.
  unfold listed in Hl. unfold json_of in H.
  destruct (json r) as [j|]; [|discriminate].
  rewrite bind_ret in H.
  destruct (subscript j "data") as [d|]; [|discriminate].
  rewrite bind_lift_ok in H.
  destruct (py_iter d) as [l|]; [|discriminate].
  injection Hl as ->. rewrite bind_lift_ok in H.
  apply delete_topics_loop in H. exact H.
Qed.

(** ** Uploading the files of a new challenge *)

Lemma open_all_run (fs : list string) (contents : list bytes) w :
  Forall2 (fun f c => disk w f = Some (File c)) fs contents ->
  open_all (map VStr fs) w = (Ok (combine fs contents), w).
Proof.
  induction 1 as [|f c fs contents Hf Hfs IH]; [reflexivity|].
  cbn [map open_all as_path combine]. rewrite bind_lift_ok.
  unfold read_file. rewrite bind_bind, bind_gets, Hf, bind_ret.
  now rewrite (bind_ok _ _ IH).
Qed.

Lemma open_all_unreadable (fs : list string) (f : string) w :
  In f fs -> (forall c, disk w f <> Some (File c)) ->
  open_all (map VStr fs) w = (Raise OSError, w).
Proof.
  intros Hin Hf. induction fs as [|g fs IH]; [contradiction|].
  cbn [map open_all as_path]. rewrite bind_lift_ok.
  unfold read_file. rewrite bind_bind, bind_gets.
  destruct (disk w g) as [[c|]|] eqn:Eg; try reflexivity.
  rewrite bind_ret.
  destruct Hin as [->|Hin]; [now destruct (Hf c)|].
  now rewrite (bind_raise _ _ (IH Hin)).
Qed.

(** X15: [_create_all_files] opens every listed file before it sends anything:
    when one of them cannot be read it raises without a request; otherwise
    its one request is a POST of all the files, in the order of the
    document, with their content on disk, for this challenge. *)
Theorem create_all_files_all_or_nothing (fs : list string) w :
  dict_get (doc w) "files" = Some (VList (map VStr fs)) ->
  (forall f,
      In f fs -> (forall c, disk w f <> Some (File c)) ->
      _create_all_files remote w = (Raise OSError, w))
  /\ (forall contents,
         Forall2 (fun f c => disk w f = Some (File c)) fs contents ->
         snd (_create_all_files remote w)
         = add_call
             (POST (Url "/api/v1/files")
                (Multipart (combine fs contents)
                   (VDict [("challenge_id", challenge_id w);
                           ("type", VStr "challenge")])))
             w).
Proof.
  intros Hf.
  assert (_create_all_files remote w
          = (new_files <- open_all (map VStr fs) ;;
             files_payload <- files_form ;;
             r <- request remote
                    (POST (Url "/api/v1/files")
                       (Multipart new_files files_payload)) ;;
             raise_for_status r) w) as Hrun.
  { unfold _create_all_files. rewrite bind_self_get.
    unfold get_or. rewrite Hf.
    assert (py_or (VList (map VStr fs)) (VList []) = VList (map VStr fs))
      as -> by (destruct fs; reflexivity).
    cbn [py_iter]. now rewrite bind_lift_ok. }
  split.
  - intros f Hin Hd. rewrite Hrun.
    now rewrite (bind_raise _ _ (open_all_unreadable fs f w Hin Hd)).
  - intros contents Hc. rewrite Hrun.
    rewrite (bind_ok _ _ (open_all_run fs contents w Hc)).
    unfold files_form. rewrite bind_bind, bind_gets, bind_ret.
    unfold bind, request. cbn [calls add_call].
    destruct (remote _) as [r|]; [|reflexivity].
    unfold raise_for_status. destruct (ok r); reflexivity.
Qed.

(** ** What [save] writes *)

Section Saving.
Variable set_order : list string -> list string.
(** Iterating a set visits its elements: all of them, and nothing else. *)
Hypothesis set_order_enumerates :
  forall l k, In k (set_order l) <-> In k l.

Definition is_key (k : string) (keys : list string) : bool :=
  existsb (String.eqb k) keys.

Lemma is_key_In k keys : is_key k keys = true <-> In k keys.
Proof.
  unfold is_key. rewrite existsb_exists. split.
  - intros (x & Hx & E). apply String.eqb_eq in E. now subst.
  - intros H. exists k. split; [exact H | apply String.eqb_refl].
Qed.

Lemma dict_get_key (V : Type) (d : list (string * V)) k :
  In k (dict_keys d) -> exists v, dict_get d k = Some v.
Proof.
  induction d as [|[k' v'] d IH]; simpl; [contradiction|].
  destruct (String.eqb_spec k' k); [eauto|].
  intros [E|H]; [contradiction | auto].
Qed.

Lemma dict_get_no_key (V : Type) (d : list (string * V)) k :
  ~ In k (dict_keys d) -> dict_get d k = None.
Proof.
  intros H. destruct (dict_get d k) eqn:E; [|reflexivity].
  destruct H. eapply dict_get_in_keys; eauto.
Qed.

(** What [save] keeps of the entry of [k]. *)
Definition kept (d : dict) (k : string) : option value :=
  match dict_get d k with
  | Some v => if is_default_challenge_property k v then None else Some v
  | None => None
  end.

Lemma known_keys_get d keys acc k :
  dict_get (known_keys d keys acc) k
  = if is_key k keys
    then match kept d k with Some v => Some v | None => dict_get acc k end
    else dict_get acc k.
Proof.
  revert acc. induction keys as [|q keys IH]; intros acc; [reflexivity|].
  cbn [known_keys]. rewrite IH. unfold is_key. cbn [existsb].
  fold (is_key k keys). unfold kept.
  destruct (String.eqb_spec k q) as [->|N]; cbn [orb].
  - destruct (dict_get d q) as [v|]; [|now destruct (is_key q keys)].
    destruct (is_default_challenge_property q v); cbn [negb];
      [now destruct (is_key q keys)|].
    rewrite dict_get_set_same. now destruct (is_key q keys).
  - assert (forall a : dict,
               dict_get
                 match dict_get d q with
                 | Some v =>
                     if negb (is_default_challenge_property q v)
                     then dict_set a q v else a
                 | None => a
                 end k = dict_get a k) as ->.
    { intros a. destruct (dict_get d q) as [v|]; [|reflexivity].
      destruct (negb _); [|reflexivity].
      apply dict_get_set_other. congruence. }
    reflexivity.
Qed.

Lemma unknown_keys_get d keys acc :
  (forall k, In k keys -> In k (dict_keys d)) ->
  exists s,
    unknown_keys d keys acc = Ok s
    /\ forall k,
         dict_get s k
         = if is_key k keys then dict_get d k else dict_get acc k.
Proof.
  revert acc. induction keys as [|q keys IH]; intros acc Hin.
  - exists acc. split; reflexivity.
  - destruct (dict_get_key _ d q (Hin q (or_introl eq_refl))) as (v & Hv).
    destruct (IH (dict_set acc q v)) as (s & Hs & Hget).
    { intros k Hk. apply Hin. now right. }
    exists s. split.
    + cbn [unknown_keys subscript]. rewrite Hv. exact Hs.
    + intros k. rewrite Hget. unfold is_key. cbn [existsb].
      fold (is_key k keys).
      destruct (String.eqb_spec k q) as [->|N]; cbn [orb].
      * destruct (is_key q keys); [reflexivity|].
        now rewrite dict_get_set_same.
      * destruct (is_key k keys); [reflexivity|].
        apply dict_get_set_other. congruence.
Qed.

Lemma default_key_is_known k v :
  is_default_challenge_property k v = true -> is_key k key_order = true.
Proof.
  unfold is_default_challenge_property. intros H.
  repeat match type of H with
         | (if ?a && _ then _ else _) = true =>
             let E := fresh "E" in
             destruct a eqn:E; cbn [andb] in H;
             [ clear H; first
                 [ apply String.eqb_eq in E; subst k; reflexivity
                 | idtac ]
             | ]
         end.
  all: try discriminate.
  cbn [existsb] in E3.
  repeat match type of E3 with
         | (String.eqb k ?s || _) = true =>
             destruct (String.eqb_spec k s); [subst k; reflexivity|];
             cbn [orb] in E3
         end.
  discriminate.
Qed.

(** X16: The dictionary that [save] writes has, for every key, the value of the
    document unless that value is a default for the key, and no other
    entry: defaults are left out, nothing else is lost or added. *)
Theorem save_keeps_what_is_not_default (d : dict) :
  exists s,
    sorted_challenge_dict set_order d = Ok s
    /\ forall k, dict_get s k = kept d k.
Proof.
  unfold sorted_challenge_dict.
  set (unknown := set_order
                    (filter (fun k => negb (existsb (String.eqb k) key_order))
                       (dict_keys d))).
  assert (forall k, In k unknown
                    <-> In k (dict_keys d) /\ is_key k key_order = false)
    as Hu.
  { intros k. unfold unknown. rewrite set_order_enumerates, filter_In.
    unfold is_key. now rewrite negb_true_iff. }
  destruct (unknown_keys_get d unknown (known_keys d key_order []))
    as (s & Hs & Hget).
  { intros k Hk. now apply Hu. }
  exists s. split; [exact Hs|]. intros k. rewrite Hget, known_keys_get.
  destruct (is_key k unknown) eqn:Ek.
  - apply is_key_In, Hu in Ek. destruct Ek as [Hin Hk].
    unfold kept. destruct (dict_get d k) as [v|]; [|reflexivity].
    destruct (is_default_challenge_property k v) eqn:Ed; [|reflexivity].
    apply default_key_is_known in Ed. congruence.
  - destruct (is_key k key_order) eqn:Eo.
    + now destruct (kept d k).
    + cbn [dict_get]. unfold kept.
      rewrite dict_get_no_key; [reflexivity|].
      intros Hin. assert (In k unknown) as H by (apply Hu; split; assumption).
      apply is_key_In in H. congruence.
Qed.

(** The first occurrences of the elements of a list. *)
Fixpoint distinct (l : list string) : list string :=
  match l with
  | [] => []
  | k :: rest => k :: filter (fun k' => negb (String.eqb k' k)) (distinct rest)
  end.

(** The order of the known keys: [key_order] names [files] twice. *)
Example distinct_key_order :
  distinct key_order
  = ["name"; "author"; "category"; "description"; "attribution"; "value";
     "type"; "extra"; "image"; "protocol"; "host";
     "connection_info"; "healthcheck"; "attempts"; "flags"; "geo_flags";
     "files"; "topics"; "tags"; "hints";
     "requirements"; "next"; "state"; "version"].
Proof. reflexivity. Qed.

Definition is_kept (d : dict) (k : string) : bool :=
  match kept d k with Some _ => true | None => false end.

Lemma dict_keys_set (V : Type) (d : list (string * V)) k v :
  dict_keys (dict_set d k v)
  = if is_key k (dict_keys d) then dict_keys d else dict_keys d ++ [k].
Proof.
  unfold dict_keys, is_key.
  induction d as [|[k' v'] d IH]; [reflexivity|].
  cbn [dict_set map fst existsb].
  rewrite (String.eqb_sym k k').
  destruct (String.eqb k' k) eqn:E; cbn [orb map fst].
  - apply String.eqb_eq in E. now subst.
  - rewrite IH. now destruct (existsb (String.eqb k) (map fst d)).
Qed.

Lemma filter_filter (A : Type) (p q : A -> bool) l :
  filter p (filter q l) = filter (fun x => p x && q x) l.
Proof.
  induction l as [|x l IH]; [reflexivity|]. cbn [filter].
  destruct (q x); cbn [filter]; rewrite IH, ?andb_true_r, ?andb_false_r;
    reflexivity.
Qed.

Lemma is_key_app k l1 l2 : is_key k (l1 ++ l2) = is_key k l1 || is_key k l2.
Proof. unfold is_key. apply existsb_app. Qed.

Lemma known_keys_step d q (acc : dict) :
  dict_keys
    match dict_get d q with
    | Some v =>
        if negb (is_default_challenge_property q v)
        then dict_set acc q v else acc
    | None => acc
    end
  = if is_kept d q && negb (is_key q (dict_keys acc))
    then dict_keys acc ++ [q] else dict_keys acc.
Proof.
  unfold is_kept, kept. destruct (dict_get d q) as [v|]; [|reflexivity].
  destruct (is_default_challenge_property q v); cbn [negb andb];
    [reflexivity|].
  rewrite dict_keys_set. now destruct (is_key q (dict_keys acc)).
Qed.

Lemma known_keys_order d keys acc :
  dict_keys (known_keys d keys acc)
  = dict_keys acc
    ++ filter (fun k => is_kept d k && negb (is_key k (dict_keys acc)))
         (distinct keys).
Proof.
  revert acc. induction keys as [|q keys IH]; intros acc.
  - cbn. now rewrite app_nil_r.
  - cbn [known_keys distinct filter]. rewrite IH, filter_filter.
    rewrite known_keys_step.
    destruct (is_kept d q && negb (is_key q (dict_keys acc))) eqn:E.
    + rewrite <- app_assoc. cbn [app]. do 2 f_equal.
      apply filter_ext. intros k. rewrite is_key_app.
      unfold is_key at 2. cbn [existsb]. rewrite orb_false_r.
      now rewrite negb_orb, andb_assoc.
    + f_equal. apply filter_ext. intros k.
      destruct (String.eqb_spec k q) as [->|N]; cbn [negb].
      * now rewrite E.
      * now rewrite andb_true_r.
Qed.

Lemma unknown_keys_order d keys acc s :
  unknown_keys d keys acc = Ok s ->
  exists others,
    dict_keys s = dict_keys acc ++ others
    /\ forall k, In k others -> In k keys.
Proof.
  revert acc. induction keys as [|q keys IH]; intros acc H.
  - injection H as <-. exists []. split; [now rewrite app_nil_r|].
    contradiction.
  - cbn [unknown_keys] in H. inv_res H.
    apply IH in H. destruct H as (others & Hk & Hin).
    rewrite dict_keys_set in Hk.
    destruct (is_key q (dict_keys acc)).
    + exists others. split; [exact Hk|]. intros k Hk'. right. auto.
    + exists (q :: others). split; [now rewrite Hk, <- app_assoc|].
      intros k [<-|Hk']; [now left | right; auto].
Qed.

(** X17: The dictionary that [save] writes has the known keys first, in the
    order of [key_order], and after them the keys that [key_order] does not
    name. *)
Theorem save_orders_known_keys_first (d s : dict) :
  sorted_challenge_dict set_order d = Ok s ->
  exists others,
    dict_keys s = filter (is_kept d) (distinct key_order) ++ others
    /\ forall k, In k others -> is_key k key_order = false.
Proof.
  unfold sorted_challenge_dict. intros H.
  apply unknown_keys_order in H. destruct H as (others & Hk & Hin).
  exists others. split.
  - rewrite Hk, known_keys_order. cbn [dict_keys map app].
    f_equal. apply filter_ext. intros k. apply andb_true_r.
  - intros k Hk'. apply Hin, set_order_enumerates, filter_In in Hk'.
    destruct Hk' as [_ Hk']. now apply negb_true_iff in Hk'.
Qed.
End Saving.

(** ** What [mirror] leaves alone *)

(** [changes R m]: whatever [m] does and however it ends, the state it
    leaves is related by [R] to the one it found. *)
Section Changes.
Variable R : world -> world -> Prop.
Hypothesis R_refl : forall w, R w w.
Hypothesis R_trans : forall a b c, R a b -> R b c -> R a c.

Definition changes {A} (m : M A) : Prop := forall w, R w (snd (m w)).

Lemma changes_ret A (a : A) : changes (ret a).
Proof. intros w. apply R_refl. Qed.

Lemma changes_raise A e : changes (@raise A e).
Proof. intros w. apply R_refl. Qed.

Lemma changes_lift A (r : result A) : changes (lift r).
Proof. intros w. apply R_refl. Qed.

Lemma changes_gets A (f : world -> A) : changes (gets f).
Proof. intros w. apply R_refl. Qed.

(** [P] holds of what [m] returns. *)
Definition returns {A} (P : A -> Prop) (m : M A) : Prop :=
  forall w a w', m w = (Ok a, w') -> P a.

Lemma changes_bind_returns A B (P : A -> Prop) (m : M A) (k : A -> M B) :
  changes m -> returns P m -> (forall a, P a -> changes (k a)) ->
  changes (bind m k).
Proof.
  intros Hm HP Hk w. unfold bind. specialize (Hm w). specialize (HP w).
  destruct (m w) as [[a|e] w1]; simpl in *; [|exact Hm].
  eapply R_trans; [exact Hm | apply Hk; eapply HP; reflexivity].
Qed.

Lemma changes_bind A B (m : M A) (k : A -> M B) :
  changes m -> (forall a, changes (k a)) -> changes (bind m k).
Proof.
  intros Hm Hk. apply (changes_bind_returns _ _ (fun _ => True)); auto.
  intros w a w' _. exact I.
Qed.

Lemma changes_when b (m : M unit) : changes m -> changes (when b m).
Proof. destruct b; simpl; auto using changes_ret. Qed.

Lemma changes_for_each A (l : list A) (f : A -> M unit) :
  (forall x, In x l -> changes (f x)) -> changes (for_each l f).
Proof.
  induction l as [|x l IH]; intros Hf; cbn [for_each];
    [apply changes_ret|].
  apply changes_bind; [apply Hf; now left|].
  intros _. apply IH. intros y Hy. apply Hf. now right.
Qed.

Lemma changes_keeps D Q A (m : M A) :
  (forall w w', frame D Q w w' -> R w w') -> keeps D Q m -> changes m.
Proof. intros H Hm w. apply H, Hm. Qed.
End Changes.

Section Mirroring.
Variable mkdir :
  list string -> (string -> option node) -> option (string -> option node).
Variable write_bytes :
  list string -> bytes -> (string -> option node)
  -> option (string -> option node).
Variable write_yaml : dict -> (string -> option node) -> saved.
Variable set_order : list string -> list string.

(** The keys of a normalized remote challenge, and [files]. *)
Definition mirrored_keys : list string :=
  ["name"; "category"; "attribution"; "value"; "type"; "state";
   "connection_info"; "description"; "attempts"; "extra"; "geo_flags";
   "flags"; "tags"; "hints"; "topics"; "requirements"; "next"; "files"].

(** Between [w] and [w'] only GET requests were issued, and the document
    has kept its entry for every key that is ignored and for every key that
    is not one of [mirrored_keys]. *)
Definition mirrored (ignore : list string) (w w' : world) : Prop :=
  (forall k,
      ignored ignore k = true \/ ~ In k mirrored_keys ->
      dict_get (doc w') k = dict_get (doc w) k)
  /\ exists new, calls w' = new ++ calls w /\ Forall is_get new.

Lemma mirrored_refl ignore w : mirrored ignore w w.
Proof. split; [reflexivity | exists []; auto]. Qed.

Lemma mirrored_trans ignore a b c :
  mirrored ignore a b -> mirrored ignore b c -> mirrored ignore a c.
Proof.
  intros [D1 (n1 & C1 & G1)] [D2 (n2 & C2 & G2)]. split.
  - intros k Hk. now rewrite D2, D1.
  - exists (n2 ++ n1). split; [now rewrite C2, C1, app_assoc|].
    apply Forall_app; auto.
Qed.

Lemma mirrored_frame ignore w w' :
  frame same_doc is_get w w' -> mirrored ignore w w'.
Proof.
  intros (Hd & _ & Hc & _). split; [|exact Hc].
  intros k _. unfold same_doc in Hd. now rewrite Hd.
Qed.

Lemma dict_keys_set_in (V : Type) (d : list (string * V)) q v k :
  In k (dict_keys (dict_set d q v)) -> k = q \/ In k (dict_keys d).
Proof.
  rewrite dict_keys_set. destruct (is_key q (dict_keys d)); [auto|].
  rewrite in_app_iff. intros [H|[<-|[]]]; auto.
Qed.

Lemma copy_keys_loop_keys cd keys c c' k :
  copy_keys_loop cd keys c = Ok c' ->
  In k (dict_keys c') -> In k keys \/ In k (dict_keys c).
Proof.
  revert c. induction keys as [|q keys IH]; cbn [copy_keys_loop]; intros c H.
  - injection H as <-. auto.
  - inv_res H. destruct a.
    + inv_res H. intros Hk. destruct (IH _ H Hk) as [Hk'|Hk'].
      * left. now right.
      * apply dict_keys_set_in in Hk'. destruct Hk' as [->|Hk'];
          [left; now left | now right].
    + intros Hk. destruct (IH _ H Hk); [left; now right | now right].
Qed.

Lemma lift_keys_loop_keys group cd keys c c' k :
  lift_keys_loop group cd keys c = Ok c' ->
  In k (dict_keys c') -> k = group \/ In k (dict_keys c).
Proof.
  revert c. induction keys as [|q keys IH]; cbn [lift_keys_loop]; intros c H.
  - injection H as <-. auto.
  - inv_res H. destruct a; [|eauto].
    do 3 inv_res H. intros Hk.
    destruct (IH _ H Hk) as [Hk'|Hk']; [now left|].
    apply dict_keys_set_in in Hk'. destruct Hk' as [->|Hk']; [now left|].
    destruct (negb (dict_mem c group)); [|now right].
    apply dict_keys_set_in in Hk'. destruct Hk' as [->|Hk']; auto.
Qed.

Ltac mirrored_key :=
  split; [cbn; tauto | discriminate].

Lemma normalize_challenge_keys rc w n w' k :
  _normalize_challenge remote rc w = (Ok n, w') ->
  In k (dict_keys n) -> In k mirrored_keys /\ k <> "files".
Proof.
  intros H Hk. unfold _normalize_challenge in H.
  do 8 inv_bind H.
  repeat inv_bind H.
  apply ret_ok_inv in H. destruct H as [<- _].
  do 6 (apply dict_keys_set_in in Hk;
        destruct Hk as [->|Hk]; [mirrored_key|]).
  eapply lift_keys_loop_keys in Hk; [|eassumption].
  destruct Hk as [->|Hk]; [mirrored_key|].
  eapply lift_keys_loop_keys in Hk; [|eassumption].
  destruct Hk as [->|Hk]; [mirrored_key|].
  do 3 (apply dict_keys_set_in in Hk;
        destruct Hk as [->|Hk]; [mirrored_key|]).
  eapply copy_keys_loop_keys in Hk; [|eassumption].
  destruct Hk as [Hk|[]].
  cbn [In] in Hk.
  repeat (destruct Hk as [<-|Hk]; [mirrored_key|]).
  contradiction.
Qed.

Section Mirrored.
Variable ignore : list string.

Definition unchanged {A} (m : M A) : Prop := changes (mirrored ignore) m.

Lemma unchanged_bind A B (m : M A) (k : A -> M B) :
  unchanged m -> (forall a, unchanged (k a)) -> unchanged (bind m k).
Proof. apply changes_bind, mirrored_trans. Qed.

Lemma unchanged_same A (m : M A) :
  (forall w, doc (snd (m w)) = doc w /\ calls (snd (m w)) = calls w) ->
  unchanged m.
Proof.
  intros H w. destruct (H w) as [Hd Hc]. split.
  - intros k _. now rewrite Hd.
  - exists []. split; [exact Hc | constructor].
Qed.

Lemma unchanged_get u : unchanged (request remote (GET u)).
Proof.
  intros w. unfold request.
  assert (mirrored ignore w (add_call (GET u) w)) as H.
  { split; [reflexivity|]. exists [GET u]. split; [reflexivity|].
    repeat constructor. }
  destruct (remote _); exact H.
Qed.

Lemma unchanged_raise_for_status r : unchanged (raise_for_status r).
Proof.
  unfold raise_for_status. destruct (ok r);
    [apply changes_ret | apply changes_raise]; apply mirrored_refl.
Qed.

Lemma unchanged_fs_mkdir p : unchanged (fs_mkdir mkdir p).
Proof.
  apply unchanged_same. intros w. unfold fs_mkdir.
  destruct (mkdir p (disk w)); split; reflexivity.
Qed.

Lemma unchanged_fs_write_bytes p c :
  unchanged (fs_write_bytes write_bytes p c).
Proof.
  apply unchanged_same. intros w. unfold fs_write_bytes.
  destruct (write_bytes p c (disk w)); split; reflexivity.
Qed.

Lemma unchanged_item V (d : list (string * V)) k : unchanged (item d k).
Proof.
  unfold item. destruct (dict_get d k);
    [apply changes_ret | apply changes_raise]; apply mirrored_refl.
Qed.

Lemma unchanged_save : unchanged (save write_yaml set_order).
Proof.
  apply unchanged_same. intros w. unfold save.
  rewrite bind_gets.
  destruct (sorted_challenge_dict set_order (doc w)) as [s|e].
  - rewrite bind_lift_ok, bind_gets.
    destruct (write_yaml s (disk w)); split; reflexivity.
  - rewrite bind_lift_raise. split; reflexivity.
Qed.

Lemma unchanged_mirror_files dir local_files remote_files files :
  unchanged
    (mirror_files remote mkdir write_bytes dir local_files remote_files
       files).
Proof.
  revert files.
  induction remote_files as [|remote_file rest IH]; intros files;
    cbn [mirror_files].
  - apply changes_ret, mirrored_refl.
  - apply unchanged_bind; [apply changes_lift, mirrored_refl | intros name].
    apply unchanged_bind; [apply changes_lift, mirrored_refl | intros u].
    destruct (negb (dict_mem local_files name)).
    + apply unchanged_bind; [apply unchanged_get | intros r].
      apply unchanged_bind; [apply unchanged_raise_for_status | intros _].
      apply unchanged_bind; [apply unchanged_fs_mkdir | intros _].
      apply unchanged_bind; [apply unchanged_fs_write_bytes | intros _].
      apply unchanged_bind; [apply changes_lift, mirrored_refl | intros f].
      apply IH.
    + apply unchanged_bind; [apply unchanged_get | intros r].
      apply unchanged_bind; [apply unchanged_raise_for_status | intros _].
      apply unchanged_bind; [apply unchanged_item | intros p].
      apply unchanged_bind; [apply unchanged_fs_write_bytes | intros _].
      apply IH.
Qed.

Lemma unchanged_self_set key v :
  ignored ignore key = false -> In key mirrored_keys ->
  unchanged (self_set key v).
Proof.
  intros Hi Hk w. split; [|exists []; split; [reflexivity | constructor]].
  intros k Hu. cbn. apply dict_get_set_other.
  intros <-. destruct Hu as [Hu|Hu]; [congruence | contradiction].
Qed.

(** X18: However [mirror] ends, it has only issued GET requests, so that the
    remote is as it was, and the document has the entry it had for every
    key of the ignore-set and for every key that a normalized challenge does
    not have ([author], [image], [version] and the like). *)
Theorem mirror_reads_and_respects_ignore (files_directory_name : string) w :
  mirrored ignore w
    (snd (mirror remote mkdir write_bytes write_yaml set_order
            files_directory_name ignore w)).
Proof.
  revert w. change (unchanged (mirror remote mkdir write_bytes write_yaml
                                 set_order files_directory_name ignore)).
  assert (forall A (m : M A), keeps same_doc is_get m -> unchanged m) as K.
  { intros A m. apply changes_keeps. intros w w'. apply mirrored_frame. }
  unfold mirror.
  apply unchanged_bind.
  { apply K, keeps_load_challenge_id; try (now intros); apply same_doc_trans. }
  intros _.
  apply unchanged_bind; [apply changes_gets, mirrored_refl | intros cid].
  apply unchanged_bind.
  { apply K, keeps_load_installed_challenge; try (now intros);
      apply same_doc_trans. }
  intros rc.
  apply (changes_bind_returns (mirrored ignore) (mirrored_trans ignore)
           _ _ (fun n => forall k, In k (dict_keys n) -> In k mirrored_keys)).
  { apply K, keeps_normalize_challenge; try (now intros);
      apply same_doc_trans. }
  { intros w n w' H k Hk. eapply normalize_challenge_keys; eauto. }
  intros n Hn.
  apply unchanged_bind; [apply changes_lift, mirrored_refl | intros rf].
  apply (changes_bind_returns (mirrored ignore) (mirrored_trans ignore)
           _ _ (fun c => forall k, In k (dict_keys c) -> In k mirrored_keys)).
  - destruct (negb (ignored ignore "files"));
      [|apply changes_ret, mirrored_refl].
    repeat (apply unchanged_bind;
            [first [ apply changes_lift, mirrored_refl
                   | apply unchanged_mirror_files ]
            | intros ?]).
    apply changes_ret, mirrored_refl.
  - intros w c w' H k Hk.
    assert (forall v, In k (dict_keys (dict_set n "files" v)) ->
                      In k mirrored_keys) as Hset.
    { intros v Hv. apply dict_keys_set_in in Hv.
      destruct Hv as [->|Hv]; [cbn; tauto | auto]. }
    destruct (negb (ignored ignore "files")).
    + repeat inv_bind H. apply ret_ok_inv in H. destruct H as [<- _].
      apply dict_keys_set_in in Hk.
      destruct Hk as [->|Hk]; [cbn; tauto | eauto].
    + apply ret_ok_inv in H. destruct H as [<- _]. eauto.
  - intros c Hc. apply unchanged_bind; [|intros _; apply unchanged_save].
    apply changes_for_each; [apply mirrored_refl | apply mirrored_trans |].
    intros key Hkey. destruct (negb (ignored ignore key)) eqn:Ei;
      [|apply changes_ret, mirrored_refl].
    cbn [when]. apply unchanged_bind; [apply unchanged_item | intros v].
    apply unchanged_self_set; [now apply negb_true_iff | auto].
Qed.
End Mirrored.

(** ** Where [mirror] puts the files *)

(** The disk after the downloads (name and content) were written below the
    directory [dir], one after the other. *)
Fixpoint stored (dir : string) (downloads : list (string * bytes))
    (d : string -> option node) : option (string -> option node) :=
  match downloads with
  | [] => Some d
  | (name, c) :: rest =>
      match mkdir [dir] d with
      | Some d1 =>
          match write_bytes [dir; name] c d1 with
          | Some d2 => stored dir rest d2
          | None => None
          end
      | None => None
      end
  end.

(** The contents that the remote answers, successfully, to the requests for
    [urls] made one after the other from [history]. *)
Fixpoint fetched (urls : list string) (history : list call)
  : option (list bytes) :=
  match urls with
  | [] => Some []
  | u :: rest =>
      match remote (GET (Url u) :: history) with
      | Responded r =>
          if ok r
          then option_map (cons (content r))
                 (fetched rest (GET (Url u) :: history))
          else None
      | Unreachable => None
      end
  end.

Definition downloads_of (urls : list string) : list call :=
  rev (map (fun u => GET (Url u)) urls).

Definition below (dir : string) (names : list string) : list value :=
  map (fun n => VStr (dir ++ "/" ++ n)) names.

Lemma mirror_files_downloads dir remote_files acc w files w' :
  mirror_files remote mkdir write_bytes dir [] remote_files (VList acc) w
  = (Ok files, w') ->
  exists urls names contents,
    remote_files = map VStr urls
    /\ Res.mapM remote_base_name remote_files = Ok names
    /\ fetched urls (calls w) = Some contents
    /\ files = VList (acc ++ below dir names)
    /\ calls w' = downloads_of urls ++ calls w
    /\ stored dir (combine names contents) (disk w) = Some (disk w')
    /\ doc w' = doc w.
Proof.
  revert acc w.
  induction remote_files as [|remote_file rest IH]; intros acc w H;
    cbn [mirror_files] in H.
  - apply ret_ok_inv in H. destruct H as [<- ->].
    exists [], [], []. cbn. rewrite app_nil_r. repeat split.
  - inv_bind H. inv_bind H. cbn [dict_mem dict_get negb] in H.
    destruct remote_file as [| | |u| |]; try discriminate.
    cbn [as_str] in E0. injection E0 as <-.
    apply bind_ok_inv in H. destruct H as (resp & w1 & Hreq & H).
    apply request_ok_inv in Hreq. destruct Hreq as [Hr ->].
    apply bind_ok_inv in H. destruct H as ([] & w2 & Hst & H).
    unfold raise_for_status in Hst.
    destruct (ok resp) eqn:Hok; [|discriminate].
    apply ret_ok_inv in Hst. destruct Hst as [_ ->].
    apply bind_ok_inv in H. destruct H as ([] & w3 & Hmk & H).
    unfold fs_mkdir in Hmk. cbn [disk add_call] in Hmk.
    destruct (mkdir [dir] (disk w)) as [d1|] eqn:Emk; [|discriminate].
    inversion Hmk; subst w3; clear Hmk.
    apply bind_ok_inv in H. destruct H as ([] & w4 & Hwr & H).
    unfold fs_write_bytes in Hwr. cbn [disk set_disk] in Hwr.
    destruct (write_bytes [dir; x] (content resp) d1) as [d2|] eqn:Ewr;
      [|discriminate].
    inversion Hwr; subst w4; clear Hwr.
    cbn [py_append] in H. rewrite bind_lift_ok in H.
    apply IH in H.
    destruct H as (urls & names & contents & -> & Hn & Hf & -> & Hc & Hs & Hd).
    cbn [calls disk doc set_disk add_call] in *.
    exists (u :: urls), (x :: names), (content resp :: contents).
    split; [reflexivity|]. split.
    { cbn [Res.mapM]. rewrite E. cbn [Res.bind]. now rewrite Hn. }
    split.
    { cbn [fetched]. now rewrite Hr, Hok, Hf. }
    split.
    { unfold below. cbn [map]. now rewrite <- app_assoc. }
    split.
    { unfold downloads_of in *. cbn [map rev]. rewrite Hc.
      now rewrite <- app_assoc. }
    split; [|exact Hd].
    cbn [combine stored]. now rewrite Emk, Ewr.
Qed.

Lemma copy_to_document ignore (c : dict) keys w w1 :
  for_each keys (fun key =>
    when (negb (ignored ignore key))
      (v <- item c key ;;
       self_set key v)) w = (Ok tt, w1) ->
  (forall k,
      dict_get (doc w1) k
      = if is_key k keys && negb (ignored ignore k)
        then dict_get c k else dict_get (doc w) k)
  /\ calls w1 = calls w /\ disk w1 = disk w.
Proof.
  revert w. induction keys as [|q keys IH]; intros w H.
  - apply ret_ok_inv in H. destruct H as [_ ->]. auto.
  - cbn [for_each] in H. apply bind_ok_inv in H.
    destruct H as ([] & w2 & Hq & H).
    apply IH in H. destruct H as (Hget & Hc & Hd).
    destruct (ignored ignore q) eqn:Ei; cbn [negb when] in Hq.
    + apply ret_ok_inv in Hq. destruct Hq as [_ ->].
      split; [|auto]. intros k. rewrite Hget. unfold is_key.
      cbn [existsb]. destruct (String.eqb_spec k q) as [->|N]; [|reflexivity].
      cbn [orb]. rewrite Ei. cbn [negb]. now rewrite !andb_false_r.
    + unfold item in Hq. destruct (dict_get c q) as [v|] eqn:Ev;
        [|discriminate].
      rewrite bind_ret in Hq. unfold self_set, modify in Hq.
      inversion Hq; subst w2; clear Hq.
      cbn [calls disk doc set_doc] in *.
      split; [|auto]. intros k. rewrite Hget. unfold is_key.
      cbn [existsb]. fold (is_key k keys).
      destruct (String.eqb_spec k q) as [->|N]; cbn [orb].
      * rewrite Ei. cbn [negb]. rewrite andb_true_r, Ev.
        destruct (is_key q keys); [reflexivity | apply dict_get_set_same].
      * destruct (is_key k keys && negb (ignored ignore k)); [reflexivity|].
        apply dict_get_set_other. congruence.
Qed.

(** X19: A [mirror] that returns, with [files] not ignored, has fetched every
    file that the remote challenge lists and written each of them below
    [files_directory_name], under its base name, whatever paths the document
    gave for its files: the local files that the loop consults are those of
    the normalized remote challenge, which has none, so the branch for a file
    that the document already has is never taken.  The [files] of the
    document then are the paths below that directory whose name is a remote
    base name, and the document is saved on the disk that the downloads
    left. *)
Theorem mirror_downloads_into_directory
    (dir : string) (ignore : list string) w w' :
  ignored ignore "files" = false ->
  mirror remote mkdir write_bytes write_yaml set_order dir ignore w
  = (Ok tt, w') ->
  exists id r rc rf urls names contents earlier d kept s,
    remote (detail id :: listing :: calls w) = Responded r
    /\ response_data r = Some rc
    /\ py_get rc "files" VNone = Ok rf
    /\ py_iter (py_or rf (VList [])) = Ok (map VStr urls)
    /\ Res.mapM remote_base_name (map VStr urls) = Ok names
    /\ calls w'
       = downloads_of urls ++ earlier ++ detail id :: listing :: calls w
    /\ fetched urls (earlier ++ detail id :: listing :: calls w)
       = Some contents
    /\ stored dir (combine names contents) (disk w) = Some d
    /\ present_remotely names (below dir names) = Ok kept
    /\ dict_get (doc w') "files" = Some (VList kept)
    /\ sorted_challenge_dict set_order (doc w') = Ok s
    /\ write_yaml s d = Saved (disk w').
Proof.
  intros Hi H. unfold mirror in H. rewrite Hi in H. cbn [negb] in H.
  apply bind_ok_inv in H. destruct H as ([] & w1 & Hid & H).
  pose proof (keeps_load_challenge_id remote same_doc any_call
                (fun d => eq_refl) same_doc_trans (fun _ => I) w) as F1.
  rewrite Hid in F1. destruct F1 as (_ & Hdisk1 & _). cbn [snd] in Hdisk1.
  apply load_challenge_id_calls in Hid. destruct Hid as [Hc1 Hd1].
  rewrite bind_gets in H.
  apply bind_ok_inv in H. destruct H as (rc & w2 & Hload & H).
  apply load_installed_challenge_inv in Hload.
  destruct Hload as (r & Hr & Hdata & ->).
  apply bind_ok_inv in H. destruct H as (n & w3 & Hnorm & H).
  pose proof (keeps_normalize_challenge remote same_doc any_call
                (fun d => eq_refl) same_doc_trans (fun _ => I) rc
                (add_call (detail (challenge_id w1)) w1)) as F3.
  rewrite Hnorm in F3.
  destruct F3 as (Hd3 & Hdisk3 & (earlier & Hc3 & _) & _).
  cbn [snd calls disk doc add_call] in Hd3, Hdisk3, Hc3.
  assert (dict_get n "files" = None) as Hnf.
  { apply dict_get_no_key. intros Hin.
    assert (In "files" mirrored_keys /\ "files" <> "files") as [_ C]
      by (eapply normalize_challenge_keys; eassumption).
    now destruct C. }
  apply bind_ok_inv in H. destruct H as (rf & w4 & Hrf & H).
  apply lift_ok_inv in Hrf. destruct Hrf as [Hrf ->].
  apply bind_ok_inv in H. destruct H as (c & w5 & Hfiles & H).
  unfold get_or in Hfiles. rewrite Hnf in Hfiles.
  cbn [py_or truthy subscript] in Hfiles.
  rewrite dict_get_set_same, bind_lift_ok in Hfiles.
  cbn [py_iter] in Hfiles. rewrite bind_lift_ok in Hfiles.
  cbn [local_files_by_name] in Hfiles. rewrite bind_lift_ok in Hfiles.
  apply bind_ok_inv in Hfiles. destruct Hfiles as (rfs & w6 & Hit & Hfiles).
  apply lift_ok_inv in Hit. destruct Hit as [Hit ->].
  apply bind_ok_inv in Hfiles.
  destruct Hfiles as (files & w7 & Hmf & Hfiles).
  apply mirror_files_downloads in Hmf.
  destruct Hmf as (urls & names & contents & -> & Hn & Hf & -> & Hc & Hs & Hd).
  rewrite Hn, bind_lift_ok in Hfiles. cbn [py_iter app] in Hfiles.
  rewrite bind_lift_ok in Hfiles.
  apply bind_ok_inv in Hfiles. destruct Hfiles as (kept & w8 & Hk & Hfiles).
  apply lift_ok_inv in Hk. destruct Hk as [Hk ->].
  apply ret_ok_inv in Hfiles. destruct Hfiles as [<- <-].
  apply bind_ok_inv in H. destruct H as ([] & w9 & Hloop & H).
  apply copy_to_document in Hloop. destruct Hloop as (Hget & Hc9 & Hdisk9).
  unfold save in H. rewrite bind_gets in H.
  destruct (sorted_challenge_dict set_order (doc w9)) as [s|] eqn:Es;
    [|discriminate].
  rewrite bind_lift_ok, bind_gets in H.
  destruct (write_yaml s (disk w9)) as [d'|] eqn:Ew; [|discriminate].
  unfold modify in H. inversion H; subst w'; clear H.
  cbn [calls disk doc set_disk] in *.
  exists (challenge_id w1), r, rc, rf, urls, names, contents, earlier,
    (disk w9), kept, s.
  rewrite Hc1 in Hr, Hc3.
  split; [exact Hr|]. split; [exact Hdata|]. split; [exact Hrf|].
  split; [exact Hit|]. split; [exact Hn|]. split.
  { now rewrite Hc9, Hc, Hc3. }
  split; [now rewrite <- Hc3|]. split.
  { rewrite Hdisk9, <- Hdisk1, <- Hdisk3. exact Hs. }
  split; [exact Hk|]. split; [|split; [exact Es | exact Ew]].
  rewrite Hget, Hi. cbn [negb]. rewrite andb_true_r.
  assert (is_key "files"
            (dict_keys (dict_set (dict_set n "files" (VList []))
                          "files" (VList kept))) = true) as ->.
  { apply is_key_In. eapply dict_get_in_keys. apply dict_get_set_same. }
  apply dict_get_set_same.
Qed.
End Mirroring.

(** ** Files during [sync], for a document without files *)

(** Neither a POST nor a PATCH. *)
Definition reads_or_deletes (c : call) : Prop :=
  match c with
  | GET _ | DELETE _ => True
  | POST _ _ | PATCH _ _ => False
  end.


(** ** Hints with a title *)

Lemma py_eq_titled (h : dict) (c k : value) :
  dict_mem h "title" = true ->
  py_eq (VDict h) (VDict [("content", c); ("cost", k)]) = false.
Proof.
  intros Ht. cbn [py_eq]. apply andb_false_iff. right.
  induction h as [|[q v] h IH]; [discriminate|].
  unfold dict_mem in Ht. cbn [dict_get] in Ht.
  destruct (String.eqb_spec q "title") as [->|N].
  - reflexivity.
  - apply andb_false_iff. right. apply IH. exact Ht.
Qed.

Lemma py_eq_list_In (x y : list value) (a : value) :
  py_eq (VList x) (VList y) = true -> In a x ->
  exists b, In b y /\ py_eq a b = true.
Proof.
  revert y. induction x as [|a' x IH]; intros y H Hin; [contradiction|].
  destruct y as [|b' y]; [discriminate|].
  cbn [py_eq] in H. apply andb_true_iff in H. destruct H as [H1 H2].
  destruct Hin as [<-|Hin].
  - exists b'. split; [now left | exact H1].
  - destruct (IH y H2 Hin) as (b & Hb & E).
    exists b. split; [now right | exact E].
Qed.

Lemma mapM_In (A B : Type) (f : A -> result B) l l' y :
  Res.mapM f l = Ok l' -> In y l' -> exists x, In x l /\ f x = Ok y.
Proof.
  revert l'. induction l as [|x l IH]; intros l' H Hy; cbn [Res.mapM] in H.
  - injection H as <-. contradiction.
  - inv_res H. inv_res H. injection H as <-.
    destruct Hy as [<-|Hy].
    + exists x. split; [now left | assumption].
    + destruct (IH _ eq_refl Hy) as (x' & Hx & E').
      exists x'. split; [now right | exact E'].
Qed.

Lemma normalize_hint_shape entry n :
  normalize_hint entry = Ok n ->
  (exists c k, n = VDict [("content", c); ("cost", k)])
  \/ subscript entry "content" = Ok n.
Proof.
  unfold normalize_hint. intros H. inv_res H. inv_res H.
  destruct a0.
  - inv_res H. cbn [Res.bind] in H. injection H as <-. left. eauto.
  - right. exact H.
Qed.

Definition hints_of (id : value) : call :=
  GET (UrlId "/api/v1/challenges/" id "/hints").

Lemma normalize_challenge_hints rc w n w' :
  _normalize_challenge remote rc w = (Ok n, w') ->
  exists id history r entries hints,
    remote (hints_of id :: history) = Responded r
    /\ listed r = Some entries
    /\ Res.mapM normalize_hint entries = Ok hints
    /\ dict_get n "hints" = Some (VList hints).
Proof.
  intros H. unfold _normalize_challenge in H.
  do 8 inv_bind H.
  repeat inv_bind H.
  apply ret_ok_inv in H. destruct H as [<- _].
  match goal with
  | Hm : Res.mapM normalize_hint ?l = Ok ?hs,
    Hi : py_iter ?d = Ok ?l,
    Hs : subscript ?j "data" = Ok ?d,
    Hj : json_of ?r _ = (Ok ?j, _),
    Hg : get_part remote "/hints" ?w0 = (Ok ?r, _) |- _ =>
      exists (challenge_id w0), (calls w0), r, l, hs;
      unfold get_part in Hg; rewrite bind_gets in Hg;
      apply bind_ok_inv in Hg; destruct Hg as (r' & w1 & Hreq & Hg);
      apply request_ok_inv in Hreq; destruct Hreq as [Hreq ->];
      apply bind_ok_inv in Hg; destruct Hg as ([] & w2 & _ & Hg);
      apply ret_ok_inv in Hg; destruct Hg as [-> _];
      unfold json_of in Hj;
      destruct (json r) as [j'|] eqn:Ej; [|discriminate];
      apply ret_ok_inv in Hj; destruct Hj as [-> _];
      split; [exact Hreq|]; split;
      [unfold listed; now rewrite Ej, Hs, Hi|]; split; [exact Hm|]
  end.
  rewrite !dict_get_set_other by discriminate.
  apply dict_get_set_same.
Qed.

Lemma verify_key_differs ignore n k mine theirs w :
  ignored ignore k = false ->
  dict_get n k = Some theirs ->
  dict_get (doc w) k = Some mine ->
  py_eq mine theirs = false ->
  String.eqb k "requirements" = false ->
  String.eqb k "next" = false ->
  verify_key remote ignore n k w
  = (Ok (Some false), add_echo [Lit k; Lit " comparison failed."] w).
Proof.
  intros Hi Hn Hd Hne Hr Hx. unfold verify_key. rewrite Hi, bind_gets.
  unfold item. rewrite Hn, bind_ret. unfold dict_mem. rewrite Hd.
  cbn [negb]. unfold self_item. rewrite bind_bind, bind_gets.
  cbn [subscript]. rewrite Hd, bind_lift_ok, Hne. cbn [negb].
  rewrite Hr, bind_ret, Hx, bind_ret. reflexivity.
Qed.

Lemma verify_keys_stop ignore n k keys w r w' :
  (forall w0,
      doc w0 = doc w ->
      exists m,
        verify_key remote ignore n k w0 = (Ok (Some false), add_echo m w0)) ->
  In k keys ->
  for_each_return keys (verify_key remote ignore n) w = (Ok r, w') ->
  r = Some false /\ diagnosed w w'.
Proof.
  revert w.
  induction keys as [|key keys IH]; intros w Hk Hin H; [contradiction|].
  simpl in H. inv_bind H.
  pose proof (keeps_verify_key remote same_doc any_call (fun d => eq_refl)
                same_doc_trans (fun _ => I) ignore n key w) as F.
  rewrite E in F. simpl in F.
  destruct x as [b|].
  - apply ret_ok_inv in H. destruct H as [<- <-].
    apply (verify_key_returns remote same_doc any_call (fun d => eq_refl)
             same_doc_trans (fun _ => I)) in E.
    destruct E as (-> & w0 & m & F0 & ->). split; [reflexivity|].
    destruct F0 as (_ & _ & _ & (ms & F0)).
    exists m, ms. simpl. now rewrite F0.
  - destruct Hin as [->|Hin].
    { destruct (Hk w eq_refl) as (m & Hm). rewrite Hm in E. discriminate. }
    destruct F as (Fd & F'). unfold same_doc in Fd.
    destruct (IH x0) as [-> Hdiag]; auto.
    + intros w0 Hw0. apply Hk. congruence.
    + split; [reflexivity|]. eapply diagnosed_after; [|exact Hdiag].
      split; [exact Fd | exact F'].
Qed.

(** Whenever the remote lists the hints of a challenge, the content of each
    of them is text. *)
Definition hint_contents_are_text : Prop :=
  forall history id r entries entry c,
    remote (hints_of id :: history) = Responded r ->
    listed r = Some entries ->
    In entry entries ->
    subscript entry "content" = Ok c ->
    is_str c = true.

(** X21: A document one of whose hints is a mapping with a [title] never
    verifies unless [hints] is ignored: the normalized remote hints are
    either the bare content or a mapping of [content] and [cost] alone, so
    the comparison of [hints] fails, and [verify], when it returns, returns
    [False] after a diagnostic.  (The remote is taken to report hint contents
    that are text.) *)
Theorem verify_rejects_hint_with_title
    (ignore : list string) (hs : list value) (h : dict) w b w' :
  ignored ignore "hints" = false ->
  dict_get (doc w) "hints" = Some (VList hs) ->
  In (VDict h) hs ->
  dict_mem h "title" = true ->
  hint_contents_are_text ->
  verify remote hash_file ignore w = (Ok b, w') ->
  b = false /\ diagnosed w w'.
Proof.
  intros Hi Hd Hin Ht Hremote H. unfold verify in H.
  inv_bind H.
  pose proof (keeps_load_challenge_id remote same_doc any_call
                (fun d => eq_refl) same_doc_trans (fun _ => I) w) as F1.
  rewrite E in F1. simpl in F1.
  inv_bind H. injection E0 as <-.
  inv_bind H.
  pose proof (keeps_load_installed_challenge remote same_doc any_call
                (fun d => eq_refl) same_doc_trans (fun _ => I)
                (challenge_id x0) x0) as F2.
  rewrite E0 in F2. simpl in F2.
  inv_bind H.
  pose proof (keeps_normalize_challenge remote same_doc any_call
                (fun d => eq_refl) same_doc_trans (fun _ => I) x1 x2) as F3.
  rewrite E1 in F3. simpl in F3.
  destruct (normalize_challenge_hints _ _ _ _ E1)
    as (id & history & r & entries & hints & Hr & Hl & Hm & Hn).
  inv_bind H. rewrite bind_self_get in H. unfold self_set in H.
  rewrite bind_modify in H.
  inv_bind H.
  pose proof (frame_trans same_doc any_call same_doc_trans _ _ _
                (frame_trans same_doc any_call same_doc_trans _ _ _ F1 F2)
                F3) as F.
  assert (py_eq (VList hs) (VList hints) = false) as Hne.
  { destruct (py_eq (VList hs) (VList hints)) eqn:Eq; [|reflexivity].
    destruct (py_eq_list_In _ _ _ Eq Hin) as (y & Hy & Ey).
    destruct (mapM_In _ _ _ _ _ _ Hm Hy) as (entry & He & Hnorm).
    apply normalize_hint_shape in Hnorm.
    destruct Hnorm as [(c & k & ->) | Hc].
    - now rewrite py_eq_titled in Ey.
    - pose proof (Hremote _ _ _ _ _ _ Hr Hl He Hc) as Hs.
      destruct y; discriminate. }
  apply (verify_keys_stop ignore _ "hints") in E3.
  - destruct E3 as [-> Hdiag].
    apply ret_ok_inv in H. destruct H as [<- <-].
    split; [reflexivity|].
    eapply diagnosed_after; [exact F|].
    destruct Hdiag as (msg & msgs & Hdiag).
    exists msg, msgs. exact Hdiag.
  - intros w0 Hw0. eexists.
    apply (verify_key_differs ignore _ "hints" (VList hs) (VList hints));
      auto.
    rewrite Hw0. simpl. rewrite dict_get_set_other by discriminate.
    destruct F as (F & _). unfold same_doc in F. now rewrite F.
  - eapply dict_get_in_keys; eauto.
Qed.

(** ** Deleting a remote file *)

(** [entry] is stored at [location] and has the id [i]. *)
Definition file_at (location : string) (entry i : value) : Prop :=
  exists l,
    subscript entry "location" = Ok l
    /\ py_eq l (VStr location) = true
    /\ subscript entry "id" = Ok i.

Lemma delete_file_step location entry w res w1 :
  (l <- lift (subscript entry "location") ;;
   if py_eq l (VStr location) then
     i <- lift (subscript entry "id") ;;
     r <- request remote (DELETE (UrlId "/api/v1/files/" i "")) ;;
     raise_for_status r
   else ret tt) w = (res, w1) ->
  (w1 = w
   /\ (res = Ok tt ->
       forall l, subscript entry "location" = Ok l ->
                 py_eq l (VStr location) = false))
  \/ (exists i,
         file_at location entry i
         /\ w1 = add_call (DELETE (UrlId "/api/v1/files/" i "")) w).
Proof.
  unfold bind at 1, lift.
  destruct (subscript entry "location") as [l|e] eqn:El.
  2:{ intros [= <- <-]. left. split; [reflexivity | discriminate]. }
  destruct (py_eq l (VStr location)) eqn:Eo.
  2:{ intros [= <- <-]. left. split; [reflexivity|]. congruence. }
  unfold bind at 1.
  destruct (subscript entry "id") as [i|e] eqn:Ei.
  2:{ intros [= <- <-]. left. split; [reflexivity | discriminate]. }
  intros H. right. exists i. split; [exists l; auto|].
  unfold bind, request in H.
  destruct (remote _); [|now injection H as _ <-].
  unfold raise_for_status in H. destruct (ok r); now injection H as _ <-.
Qed.

Lemma delete_file_loop location entries w res w' :
  for_each entries (fun entry =>
    l <- lift (subscript entry "location") ;;
    if py_eq l (VStr location) then
      i <- lift (subscript entry "id") ;;
      r <- request remote (DELETE (UrlId "/api/v1/files/" i "")) ;;
      raise_for_status r
    else ret tt) w = (res, w') ->
  exists deleted,
    calls w' = deletions "/api/v1/files" deleted ++ calls w
    /\ (forall i, In i deleted ->
          exists entry, In entry entries /\ file_at location entry i)
    /\ (res = Ok tt ->
        forall entry l,
          In entry entries ->
          subscript entry "location" = Ok l ->
          py_eq l (VStr location) = true ->
          exists i, subscript entry "id" = Ok i /\ In i deleted).
Proof.
  revert w. induction entries as [|entry entries IH]; intros w H.
  - injection H as <- <-. exists []. repeat split; try contradiction.
  - cbn [for_each] in H. unfold bind at 1 in H.
    match type of H with
    | (let (_, _) := ?m w in _) = _ => destruct (m w) as [[[]|e] w1] eqn:E
    end.
    + apply delete_file_step in E.
      apply IH in H. destruct H as (deleted & Hc & Hown & Hall).
      destruct E as [[-> Hnot] | (i & Hi & ->)].
      * exists deleted. split; [exact Hc|]. split.
        -- intros j Hj. destruct (Hown j Hj) as (e & He & Ho).
           exists e. split; [now right | exact Ho].
        -- intros Hres e l [<-|He] Hsub Heq.
           ++ rewrite (Hnot eq_refl l Hsub) in Heq. discriminate.
           ++ eauto.
      * exists (i :: deleted). cbn [calls add_call] in *.
        split.
        { unfold deletions in *. cbn [map rev]. rewrite Hc.
          now rewrite <- app_assoc. }
        split.
        -- intros j [<-|Hj].
           ++ exists entry. split; [now left | exact Hi].
           ++ destruct (Hown j Hj) as (e & He & Ho).
              exists e. split; [now right | exact Ho].
        -- intros Hres e l [<-|He] Hsub Heq.
           ++ destruct Hi as (l' & _ & _ & Hi). exists i. split; auto.
              now left.
           ++ destruct (Hall Hres e l He Hsub Heq) as (j & Hj & Hin).
              exists j. split; [exact Hj | now right].
    + injection H as <- <-.
      apply delete_file_step in E.
      destruct E as [[-> _] | (i & Hi & ->)].
      * exists []. repeat split; try contradiction. discriminate.
      * exists [i]. split; [reflexivity|]. split.
        -- intros j [<-|[]]. exists entry. split; [now left | exact Hi].
        -- discriminate.
Qed.

(** X22: [_delete_file] asks for the files of all challenges once and then only
    deletes: each file it deletes is one that the listing has at the given
    location, and when it returns it has deleted every such file. *)
Theorem delete_file_deletes_files_at_location
    (location : string) w res w' r entries :
  remote (files_listing :: calls w) = Responded r ->
  listed r = Some entries ->
  _delete_file remote location w = (res, w') ->
  exists deleted,
    calls w' = deletions "/api/v1/files" deleted ++ files_listing :: calls w
    /\ (forall i, In i deleted ->
          exists entry, In entry entries /\ file_at location entry i)
    /\ (res = Ok tt ->
        forall entry l,
          In entry entries ->
          subscript entry "location" = Ok l ->
          py_eq l (VStr location) = true ->
          exists i, subscript entry "id" = Ok i /\ In i deleted).
Proof.
  intros Hr Hl H. unfold _delete_file in H. fold files_listing in H.
  rewrite (bind_ok _ _ (request_run remote _ _ _ Hr)) in H.
  unfold listed in Hl. unfold json_of in H.
  destruct (json r) as [j|]; [|discriminate].
  rewrite bind_ret in H.
  destruct (subscript j "data") as [d|]; [|discriminate].
  rewrite bind_lift_ok in H.
  destruct (py_iter d) as [l|]; [|discriminate].
  injection Hl as ->. rewrite bind_lift_ok in H.
  apply delete_file_loop in H. exact H.
Qed.

End Further.

(** * [verify] and [sync], stage by stage *)

Section Rounds.
Variable remote : list call -> outcome.
Variable hash_file : bytes -> string.

(** ** What an operation preserves

    [preserves m]: a relation [R] on states that every request and every
    message of [P] respects holds between the state [m] finds and the one it
    leaves, however [m] ends. *)
Section Preserved.
Variable R : world -> world -> Prop.
Variable P : message -> Prop.
Hypothesis R_refl : forall w, R w w.
Hypothesis R_trans : forall a b c, R a b -> R b c -> R a c.
Hypothesis R_call : forall c w, R w (add_call c w).
Hypothesis R_echo : forall m w, P m -> R w (add_echo m w).
Hypothesis R_id : forall i w, R w (set_id i w).

Definition preserves {A} (m : M A) : Prop := changes R m.

Lemma preserves_ret A (a : A) : preserves (ret a).
Proof. apply changes_ret, R_refl. Qed.

Lemma preserves_raise A e : preserves (@raise A e).
Proof. apply changes_raise, R_refl. Qed.

Lemma preserves_lift A (r : result A) : preserves (lift r).
Proof. apply changes_lift, R_refl. Qed.

Lemma preserves_gets A (f : world -> A) : preserves (gets f).
Proof. apply changes_gets, R_refl. Qed.

Lemma preserves_bind A B (m : M A) (k : A -> M B) :
  preserves m -> (forall a, preserves (k a)) -> preserves (bind m k).
Proof. apply changes_bind, R_trans. Qed.

Lemma preserves_when b (m : M unit) : preserves m -> preserves (when b m).
Proof. apply changes_when, R_refl. Qed.

Lemma preserves_for_each A (l : list A) (f : A -> M unit) :
  (forall x, preserves (f x)) -> preserves (for_each l f).
Proof.
  intros H. apply changes_for_each; [exact R_refl | exact R_trans |].
  intros x _. apply H.
Qed.

Lemma preserves_for_each_return A (l : list A) (f : A -> M (option bool)) :
  (forall x, preserves (f x)) -> preserves (for_each_return l f).
Proof.
  intros Hf. induction l as [|x l IH]; cbn [for_each_return];
    [apply preserves_ret|].
  apply preserves_bind; [apply Hf|].
  intros [b|]; [apply preserves_ret | exact IH].
Qed.

Lemma preserves_except A (m h : M A) :
  preserves m -> preserves h -> preserves (except_invalid_file m h).
Proof.
  intros Hm Hh w. unfold except_invalid_file. specialize (Hm w).
  destruct (m w) as [[a|e] w1]; cbn [snd] in *; [exact Hm|].
  destruct e; try exact Hm.
  eapply R_trans; [exact Hm | apply Hh].
Qed.

Lemma preserves_request c : preserves (request remote c).
Proof.
  intros w. unfold request. destruct (remote _); apply R_call.
Qed.

Lemma preserves_secho m : P m -> preserves (secho m).
Proof. intros H w. apply R_echo, H. Qed.

Lemma preserves_set_id i : preserves (modify (set_id i)).
Proof. intros w. apply R_id. Qed.

Lemma preserves_raise_for_status r : preserves (raise_for_status r).
Proof.
  unfold raise_for_status.
  destruct (ok r); [apply preserves_ret | apply preserves_raise].
Qed.

Lemma preserves_json_of r : preserves (json_of r).
Proof.
  unfold json_of.
  destruct (json r); [apply preserves_ret | apply preserves_raise].
Qed.

Lemma preserves_item V (d : list (string * V)) k : preserves (item d k).
Proof.
  unfold item.
  destruct (dict_get d k); [apply preserves_ret | apply preserves_raise].
Qed.

Lemma preserves_self_get k d : preserves (self_get k d).
Proof. intros w. apply R_refl. Qed.

Lemma preserves_self_item k : preserves (self_item k).
Proof. intros w. apply R_refl. Qed.

Lemma preserves_read_file p : preserves (read_file p).
Proof.
  intros w. unfold read_file, bind, gets. cbn.
  destruct (disk w p) as [[c|]|]; apply R_refl.
Qed.

Lemma preserves_path_exists p : preserves (path_exists p).
Proof. intros w. apply R_refl. Qed.

Ltac preserves_tac :=
  repeat first
    [ progress intros
    | apply preserves_ret | apply preserves_raise | apply preserves_lift
    | apply preserves_gets | apply preserves_set_id
    | apply preserves_raise_for_status | apply preserves_json_of
    | apply preserves_item | apply preserves_self_get
    | apply preserves_self_item | apply preserves_read_file
    | apply preserves_path_exists | apply preserves_request
    | match goal with H : _ |- preserves _ => solve [apply H] end
    | apply preserves_when | apply preserves_for_each
    | apply preserves_for_each_return | apply preserves_except
    | apply preserves_bind
    | match goal with
      | |- preserves (if ?b then _ else _) => destruct b
      | |- preserves (match ?x with _ => _ end) => destruct x
      | |- preserves (let (_, _) := ?x in _) => destruct x
      end ].

Lemma preserves_load_installed_challenges :
  preserves (load_installed_challenges remote).
Proof. unfold load_installed_challenges. preserves_tac. Qed.

Lemma preserves_load_installed_challenge i :
  preserves (load_installed_challenge remote i).
Proof. unfold load_installed_challenge. preserves_tac. Qed.

Lemma preserves_load_challenge_id_loop l :
  preserves (load_challenge_id_loop l).
Proof. induction l; cbn [load_challenge_id_loop]; preserves_tac. Qed.

Lemma preserves_load_challenge_id : preserves (_load_challenge_id remote).
Proof.
  pose proof preserves_load_installed_challenges.
  pose proof preserves_load_challenge_id_loop.
  unfold _load_challenge_id. preserves_tac.
Qed.

Lemma preserves_get_part p : preserves (get_part remote p).
Proof. unfold get_part. preserves_tac. Qed.

Lemma preserves_normalize_challenge cd :
  preserves (_normalize_challenge remote cd).
Proof.
  pose proof preserves_get_part.
  unfold _normalize_challenge. preserves_tac.
Qed.

Lemma preserves_compare_challenge_requirements r1 r2 :
  preserves (_compare_challenge_requirements remote r1 r2).
Proof.
  pose proof preserves_load_installed_challenges.
  unfold _compare_challenge_requirements. preserves_tac.
Qed.

Lemma preserves_normalize_next r : preserves (normalize_next remote r).
Proof.
  pose proof preserves_load_installed_challenge.
  unfold normalize_next. preserves_tac.
Qed.

Lemma preserves_compare_challenge_next r1 r2 :
  preserves (_compare_challenge_next remote r1 r2).
Proof.
  pose proof preserves_normalize_next.
  unfold _compare_challenge_next. preserves_tac.
Qed.

Lemma preserves_get_files_sha1sums : preserves (_get_files_sha1sums remote).
Proof. unfold _get_files_sha1sums. preserves_tac. Qed.

Lemma preserves_validate_files : preserves _validate_files.
Proof. unfold _validate_files. preserves_tac. Qed.

Lemma preserves_delete_existing_of c :
  preserves (delete_existing_of remote c).
Proof. unfold delete_existing_of. preserves_tac. Qed.

Lemma preserves_create_flags : preserves (_create_flags remote).
Proof. unfold _create_flags. preserves_tac. Qed.

Lemma preserves_delete_existing_topics :
  preserves (_delete_existing_topics remote).
Proof. unfold _delete_existing_topics. preserves_tac. Qed.

Lemma preserves_create_topics : preserves (_create_topics remote).
Proof. unfold _create_topics. preserves_tac. Qed.

Lemma preserves_create_tags : preserves (_create_tags remote).
Proof. unfold _create_tags. preserves_tac. Qed.

Lemma preserves_create_hints : preserves (_create_hints remote).
Proof. unfold _create_hints. preserves_tac. Qed.

Lemma preserves_delete_file l : preserves (_delete_file remote l).
Proof. unfold _delete_file. preserves_tac. Qed.

Lemma preserves_create_file p : preserves (_create_file remote p).
Proof. unfold _create_file, files_form. preserves_tac. Qed.

Lemma preserves_sync_local_file lf rf sums n :
  preserves (sync_local_file remote hash_file lf rf sums n).
Proof.
  pose proof preserves_delete_file. pose proof preserves_create_file.
  unfold sync_local_file. preserves_tac.
Qed.

(** The messages of [_set_required_challenges] and [_set_next]. *)
Hypothesis P_skipped :
  forall v,
    P [Lit "Challenge id cannot be found. Skipping invalid requirement name ";
       Lit Text.QUOTE; Fmt v; Lit Text.QUOTE; Lit "."].
Hypothesis P_requires_itself :
  P [Lit "Challenge cannot require itself. Skipping invalid requirement."].
Hypothesis P_next_not_found :
  P [Lit "Challenge cannot find next challenge. Maybe it is invalid name or id. It will be cleared."].
Hypothesis P_next_itself :
  P [Lit "Challenge cannot set next challenge itself. Skipping invalid next challenge."].

Lemma preserves_resolve_requirements rc l acc :
  preserves (resolve_requirements rc l acc).
Proof.
  revert acc. induction l; cbn [resolve_requirements]; preserves_tac.
  apply preserves_secho, P_skipped.
Qed.

Lemma preserves_set_required_challenges :
  preserves (_set_required_challenges remote).
Proof.
  pose proof preserves_load_installed_challenges.
  pose proof preserves_resolve_requirements.
  unfold _set_required_challenges, challenge_url. preserves_tac.
  apply preserves_secho, P_requires_itself.
Qed.

Lemma preserves_set_next n : preserves (_set_next remote n).
Proof.
  pose proof preserves_load_installed_challenges.
  unfold _set_next, challenge_url, unbound_local. preserves_tac.
  - apply preserves_secho, P_next_not_found.
  - apply preserves_secho, P_next_itself.
Qed.

Lemma preserves_visible_patch : preserves (visible_patch remote).
Proof. unfold visible_patch, challenge_url. preserves_tac. Qed.

(** Splits [H : bind m k w = (Ok _, _)] and records what [m] preserved. *)
Ltac split_preserved H :=
  match type of H with
  | bind ?m ?k ?w = (Ok _, _) =>
      let Hm := fresh "F" in
      let He := fresh "E" in
      assert (Hm : preserves m) by
        (pose proof preserves_delete_existing_of;
         pose proof preserves_create_flags;
         pose proof preserves_delete_existing_topics;
         pose proof preserves_create_topics;
         pose proof preserves_create_tags;
         pose proof preserves_create_hints;
         pose proof preserves_set_required_challenges;
         pose proof preserves_set_next;
         pose proof preserves_visible_patch;
         unfold _delete_existing_flags, _delete_existing_tags,
           _delete_existing_hints;
         preserves_tac);
      specialize (Hm w);
      apply bind_ok_inv in H; destruct H as (? & ? & He & H);
      rewrite He in Hm; cbn [snd] in Hm; clear He; cbv beta in H
  end.

Ltac join_preserved :=
  repeat match goal with
         | F1 : R ?a ?b, F2 : R ?b ?c |- _ =>
             pose proof (R_trans _ _ _ F1 F2); clear F1 F2
         end.

(** A [sync] that returns, with [files] not ignored: it has found the
    challenge ([w1]) and loaded it ([rc], [w2]), sent its payload, and run
    the file step from [wa] to [wb]; what lies between the payload and the
    file step, and what follows the file step, is related by [R]. *)
Lemma sync_file_stage ignore w w' :
  ignored ignore "files" = false ->
  sync remote hash_file ignore w = (Ok tt, w') ->
  exists w0 w1 rc w2 p' wa wb,
    only_echoed w w0
    /\ _load_challenge_id remote w0 = (Ok tt, w1)
    /\ load_installed_challenge remote (challenge_id w1) w1 = (Ok rc, w2)
    /\ R (add_call
            (PATCH (UrlId "/api/v1/challenges/" (challenge_id w2) "")
               (VDict p'))
            w2)
         wa
    /\ sync_files remote hash_file rc wa = (Ok tt, wb)
    /\ R wb w'.
Proof.
  intros Hi H. unfold sync in H.
  apply bind_ok_inv in H. destruct H as ([] & w0 & E & H).
  assert (only_echoed w w0) as Hecho.
  { destruct (ignored ignore "name"); simpl in E;
      inversion E; subst; repeat split. }
  clear E.
  rewrite bind_self_get in H.
  match type of H with (if ?b then _ else _) _ = _ => destruct b end;
    [discriminate|].
  rewrite bind_self_get in H.
  apply bind_ok_inv in H. destruct H as ([] & w0' & E & H).
  apply pure_ok_inv in E; [subst w0' | apply pure_when, pure_validate_files].
  apply bind_ok_inv in H. destruct H as (p & w0' & E & H).
  pose proof (pure_ok_inv _ _ _ _ _ (pure_initial_payload ignore) E).
  subst w0'. clear E.
  apply bind_ok_inv in H. destruct H as ([] & w1 & Hid & H).
  rewrite bind_gets in H.
  apply bind_ok_inv in H. destruct H as (rc & w2 & Hrc & H).
  apply bind_ok_inv in H. destruct H as (p' & w2' & E & H).
  assert (w2' = w2) as ->.
  { unfold lift in E. now injection E as _ ->. }
  clear E.
  unfold challenge_url in H. rewrite bind_bind, bind_gets, bind_ret in H.
  apply bind_ok_inv in H. destruct H as (r & w3 & E & H).
  apply request_ok_inv in E. destruct E as [_ ->].
  split_preserved H.
  do 3 split_preserved H.
  join_preserved.
  rewrite Hi in H. cbn [negb when] in H.
  match goal with F : R _ _ |- _ => revert F end.
  apply bind_ok_inv in H. destruct H as ([] & wb & Hfiles & H).
  assert (preserves
            (when (negb (ignored ignore "hints"))
               (_delete_existing_hints remote ;;
                x <- self_get "hints" VNone ;;
                when (truthy x) (_create_hints remote)) ;;
             x <- self_get "requirements" VNone ;;
             when (truthy x && negb (ignored ignore "requirements"))
               (_set_required_challenges remote) ;;
             _next <- self_get "next" VNone ;;
             when (negb (ignored ignore "next")) (_set_next remote _next) ;;
             make_challenge_visible <-
               (if negb (ignored ignore "state") then
                  s <- self_get "state" (VStr "visible") ;;
                  ret (py_eq s (VStr "visible"))
                else
                  s <- lift (py_get rc "state" VNone) ;;
                  ret (py_eq s (VStr "visible"))) ;;
             when make_challenge_visible (visible_patch remote))) as Hafter.
  { pose proof preserves_delete_existing_of.
    pose proof preserves_create_hints.
    pose proof preserves_set_required_challenges.
    pose proof preserves_set_next.
    pose proof preserves_visible_patch.
    unfold _delete_existing_hints. preserves_tac. }
  specialize (Hafter wb). rewrite H in Hafter. cbn [snd] in Hafter.
  intros Fa.
  match type of Hfiles with
  | sync_files _ _ _ ?wa = _ => exists w0, w1, rc, w2, p', wa, wb
  end.
  split; [exact Hecho|]. split; [exact Hid|]. split; [exact Hrc|].
  split; [exact Fa|]. split; [exact Hfiles | exact Hafter].
Qed.

(** [self["files"] = self.get("files") or []] *)
Hypothesis R_default_files :
  forall v w, R w (set_doc (dict_set (doc w) "files" v) w).

Lemma preserves_default_files v : preserves (self_set "files" v).
Proof. intros w. apply R_default_files. Qed.

Lemma preserves_verify_key ignore n key :
  P [Lit key; Lit " is not in challenge."] ->
  P [Lit key; Lit " comparison failed."] ->
  preserves (verify_key remote ignore n key).
Proof.
  intros P1 P2.
  pose proof preserves_compare_challenge_requirements.
  pose proof preserves_compare_challenge_next.
  unfold verify_key. preserves_tac; apply preserves_secho; assumption.
Qed.

(** The messages of the file step of [verify]. *)
Hypothesis P_not_local :
  forall name, P [Lit name; Lit " is not in local challenge."].
Hypothesis P_not_remote :
  forall name, P [Lit name; Lit " is not in remote challenge."].
Hypothesis P_checksum : P [Lit "sha1sum does not match with remote one."].
Hypothesis P_content :
  P [Lit "the file content does not match with the remote one."].
Hypothesis P_invalid : P [Lit "InvalidChallengeFile"].

Lemma preserves_verify_remote_file lf rf sums n :
  preserves (verify_remote_file remote hash_file lf rf sums n).
Proof.
  unfold verify_remote_file. preserves_tac; apply preserves_secho; auto.
Qed.

Lemma preserves_verify_files f : preserves (verify_files remote hash_file f).
Proof.
  pose proof preserves_validate_files.
  pose proof preserves_get_files_sha1sums.
  pose proof preserves_verify_remote_file.
  unfold verify_files. preserves_tac; apply preserves_secho; auto.
Qed.

Lemma preserves_sync_files rc : preserves (sync_files remote hash_file rc).
Proof.
  pose proof preserves_delete_file.
  pose proof preserves_get_files_sha1sums.
  pose proof preserves_sync_local_file.
  pose proof preserves_default_files.
  unfold sync_files. preserves_tac.
Qed.
End Preserved.

(** *** [verify] and a document without [attempts] *)

(** The two diagnostics with which the comparison of [attempts] fails. *)
Definition attempts_diagnostic (m : message) : Prop :=
  m = [Lit "attempts"; Lit " is not in challenge."]
  \/ m = [Lit "attempts"; Lit " comparison failed."].

(** Nothing that was printed between [w] and [w'] is a diagnostic about
    [attempts]. *)
Definition quiet_on_attempts (w w' : world) : Prop :=
  exists msgs,
    echoed w' = msgs ++ echoed w
    /\ Forall (fun m => ~ attempts_diagnostic m) msgs.

(** From a document without [attempts]: it still has none, and no
    diagnostic about [attempts] was printed. *)
Definition elides_attempts (w w' : world) : Prop :=
  dict_get (doc w) "attempts" = None ->
  dict_get (doc w') "attempts" = None /\ quiet_on_attempts w w'.

Lemma elides_attempts_refl w : elides_attempts w w.
Proof. intros H. split; [exact H|]. exists []. split; auto. Qed.

Lemma elides_attempts_trans a b c :
  elides_attempts a b -> elides_attempts b c -> elides_attempts a c.
Proof.
  intros H1 H2 Ha. destruct (H1 Ha) as (Hb & m1 & E1 & F1).
  destruct (H2 Hb) as (Hc & m2 & E2 & F2). split; [exact Hc|].
  exists (m2 ++ m1). split; [now rewrite E2, E1, app_assoc|].
  apply Forall_app. split; assumption.
Qed.

Lemma elides_attempts_call c w : elides_attempts w (add_call c w).
Proof. intros H. split; [exact H|]. exists []. split; auto. Qed.

Lemma elides_attempts_echo m w :
  ~ attempts_diagnostic m -> elides_attempts w (add_echo m w).
Proof.
  intros Hm H. split; [exact H|]. exists [m]. split; [reflexivity|].
  constructor; [exact Hm | constructor].
Qed.

Lemma elides_attempts_id i w : elides_attempts w (set_id i w).
Proof. intros H. split; [exact H|]. exists []. split; auto. Qed.

Lemma elides_attempts_default_files v w :
  elides_attempts w (set_doc (dict_set (doc w) "files" v) w).
Proof.
  intros H. split.
  - cbn [doc set_doc]. now rewrite dict_get_set_other by discriminate.
  - exists []. split; auto.
Qed.

Lemma other_key_diagnostic key text :
  key <> "attempts" -> ~ attempts_diagnostic [Lit key; Lit text].
Proof. intros Hk [H|H]; injection H as -> _; now apply Hk. Qed.

(** The comparison of [attempts] passes, in silence, when the normalized
    remote challenge has 0 attempts and the document has none. *)
Lemma verify_key_attempts_default ignore n w :
  dict_get n "attempts" = Some (VInt 0) ->
  dict_get (doc w) "attempts" = None ->
  verify_key remote ignore n "attempts" w = (Ok None, w).
Proof.
  intros Hn Hd. unfold verify_key.
  destruct (ignored ignore "attempts"); [reflexivity|].
  rewrite bind_gets. unfold item. rewrite Hn, bind_ret.
  unfold dict_mem. rewrite Hd. reflexivity.
Qed.

Lemma verify_key_elides ignore n key :
  dict_get n "attempts" = Some (VInt 0) ->
  changes elides_attempts (verify_key remote ignore n key).
Proof.
  intros Hn. destruct (String.eqb_spec key "attempts") as [->|Hk].
  - intros w Hd. rewrite (verify_key_attempts_default _ _ _ Hn Hd).
    now apply elides_attempts_refl.
  - apply (preserves_verify_key elides_attempts
             (fun m => ~ attempts_diagnostic m));
      first [ exact elides_attempts_refl | exact elides_attempts_trans
            | exact elides_attempts_call | exact elides_attempts_echo
            | now apply other_key_diagnostic ].
Qed.

(** What [load_installed_challenge] returns is what the remote answered. *)
Definition answered (id rc : value) : Prop :=
  exists history r,
    remote (detail id :: history) = Responded r
    /\ response_data r = Some rc.

Lemma load_installed_challenge_answered id :
  returns (answered id) (load_installed_challenge remote id).
Proof.
  intros w rc w' H.
  destruct (load_installed_challenge_inv _ _ _ _ _ H) as (r & Hr & Hd & _).
  now exists (calls w), r.
Qed.

Lemma normalize_challenge_max_attempts k id rc :
  remote_max_attempts remote k ->
  answered id rc ->
  returns (fun n => dict_get n "attempts" = Some (VInt k))
    (_normalize_challenge remote rc).
Proof.
  intros Hk (history & r & Hr & Hd) w n w' H.
  destruct (normalize_challenge_attempts _ _ _ _ _ H)
    as (cd & m & -> & Hm & Hn).
  rewrite (Hk _ _ _ _ Hr Hd) in Hm. now injection Hm as <-.
Qed.

Lemma verify_elides ignore :
  remote_max_attempts remote 0 ->
  changes elides_attempts (verify remote hash_file ignore).
Proof.
  intros Hremote. unfold verify.
  pose proof elides_attempts_refl as Hrefl.
  pose proof elides_attempts_trans as Htrans.
  pose proof elides_attempts_call as Hcall.
  pose proof elides_attempts_id as Hid.
  apply changes_bind; [exact Htrans | |intros _].
  { apply preserves_load_challenge_id; assumption. }
  apply changes_bind; [exact Htrans | now apply changes_gets | intros cid].
  apply (changes_bind_returns _ Htrans _ _ (answered cid)).
  { apply preserves_load_installed_challenge; assumption. }
  { apply load_installed_challenge_answered. }
  intros rc Hrc.
  apply (changes_bind_returns _ Htrans _ _
           (fun n => dict_get n "attempts" = Some (VInt 0))).
  { apply preserves_normalize_challenge; assumption. }
  { now apply (normalize_challenge_max_attempts 0 cid). }
  intros n Hn.
  apply changes_bind; [exact Htrans | now apply changes_lift | intros rf].
  apply changes_bind; [exact Htrans | |intros f].
  { intros w. apply Hrefl. }
  apply changes_bind; [exact Htrans | |intros _].
  { intros w. apply elides_attempts_default_files. }
  apply changes_bind; [exact Htrans | |intros r].
  { apply preserves_for_each_return; [assumption | assumption |].
    intros key. now apply verify_key_elides. }
  destruct r as [b|]; [now apply changes_ret|].
  destruct (negb (ignored ignore "files")); [|now apply changes_ret].
  apply (preserves_verify_files elides_attempts
           (fun m => ~ attempts_diagnostic m)); try assumption.
  - apply elides_attempts_echo.
  - intros name [H|H]; discriminate H.
  - intros name [H|H]; discriminate H.
  - intros [H|H]; discriminate H.
  - intros [H|H]; discriminate H.
  - intros [H|H]; discriminate H.
Qed.


(** *** Files during [sync]: one round per local file *)

(** The request that uploads the file [path], of content [c], for the
    challenge [cid]. *)
Definition upload (cid : value) (path : string) (c : bytes) : call :=
  POST (Url "/api/v1/files")
    (Multipart [(path, c)]
       (VDict [("challenge_id", cid); ("type", VStr "challenge")])).

(** An entry of the remote file listing that is stored at [location]. *)
Definition at_location (location : string) (entry : value) : bool :=
  match subscript entry "location" with
  | Ok l => py_eq l (VStr location)
  | Raise _ => false
  end.

Definition has_id (entry i : value) : Prop := subscript entry "id" = Ok i.

(** The checksums that a response to the file listing reports, by
    location. *)
Definition reported (r : response) : option (list (value * value)) :=
  match listed r with
  | Some files =>
      match sha1sums_of files [] with
      | Ok sums => Some sums
      | Raise _ => None
      end
  | None => None
  end.

(** The local files by basename and the remote files by basename, as
    [sync] computes them from the document and from the remote
    challenge. *)
Definition local_basenames (d : dict) : result (list (string * string)) :=
  (l <- py_iter (py_or (get_or d "files" VNone) (VList [])) ;;
   local_files_by_split l [])%res.

Definition remote_basenames (remote_challenge : value)
  : result (list (string * (string * string))) :=
  (rf <- py_get remote_challenge "files" VNone ;;
   l <- py_iter (py_or rf (VList [])) ;;
   _normalize_remote_files l [])%res.

(** The id of the challenge and the disk are the same, and the history of
    requests only grew. *)
Definition extends (w w' : world) : Prop :=
  challenge_id w' = challenge_id w
  /\ disk w' = disk w
  /\ exists new, calls w' = new ++ calls w.

(** The same, and the document is the same too. *)
Definition continues (w w' : world) : Prop :=
  doc w' = doc w /\ extends w w'.

Lemma extends_refl w : extends w w.
Proof. repeat split. now exists []. Qed.

Lemma extends_trans a b c : extends a b -> extends b c -> extends a c.
Proof.
  intros (I1 & D1 & n1 & C1) (I2 & D2 & n2 & C2).
  split; [congruence|]. split; [congruence|].
  exists (n2 ++ n1). now rewrite C2, C1, app_assoc.
Qed.

Lemma extends_call c w : extends w (add_call c w).
Proof. repeat split. now exists [c]. Qed.

Lemma extends_echo m w : True -> extends w (add_echo m w).
Proof. repeat split. now exists []. Qed.

Lemma continues_refl w : continues w w.
Proof. split; [reflexivity | apply extends_refl]. Qed.

Lemma continues_trans a b c :
  continues a b -> continues b c -> continues a c.
Proof.
  intros [D1 E1] [D2 E2]. split; [congruence|].
  eapply extends_trans; eassumption.
Qed.

Lemma continues_call c w : continues w (add_call c w).
Proof. split; [reflexivity | apply extends_call]. Qed.

Lemma continues_echo m w : True -> continues w (add_echo m w).
Proof. split; [reflexivity | now apply extends_echo]. Qed.

Lemma read_file_inv p w c w' :
  read_file p w = (Ok c, w') -> disk w p = Some (File c) /\ w' = w.
Proof.
  unfold read_file. rewrite bind_gets.
  destruct (disk w p) as [[c0|]|]; try discriminate.
  now intros [= -> ->].
Qed.

Lemma raise_for_status_inv r w w' :
  raise_for_status r w = (Ok tt, w') -> ok r = true /\ w' = w.
Proof.
  unfold raise_for_status. destruct (ok r); [|discriminate].
  now intros [= ->].
Qed.

Lemma item_inv V (d : list (string * V)) k w v w' :
  item d k w = (Ok v, w') -> dict_get d k = Some v /\ w' = w.
Proof.
  unfold item. destruct (dict_get d k); [|discriminate].
  now intros [= -> ->].
Qed.

Lemma lift_inv A (r : result A) w a w' :
  lift r w = (Ok a, w') -> r = Ok a /\ w' = w.
Proof. unfold lift. now intros [= -> ->]. Qed.

Lemma create_file_inv path w w' :
  _create_file remote path w = (Ok tt, w') ->
  exists c,
    disk w path = Some (File c)
    /\ w' = add_call (upload (challenge_id w) path c) w.
Proof.
  intros H. unfold _create_file in H.
  apply bind_ok_inv in H. destruct H as (c & w1 & E & H).
  apply read_file_inv in E. destruct E as [Hd ->].
  unfold files_form in H. rewrite bind_bind, bind_gets, bind_ret in H.
  apply bind_ok_inv in H. destruct H as (r & w1 & E & H).
  apply request_ok_inv in E. destruct E as [_ ->].
  apply raise_for_status_inv in H. destruct H as [_ ->].
  now exists c.
Qed.

Lemma delete_file_loop_exact location entries w w' :
  for_each entries (fun entry =>
    l <- lift (subscript entry "location") ;;
    if py_eq l (VStr location) then
      i <- lift (subscript entry "id") ;;
      r <- request remote (DELETE (UrlId "/api/v1/files/" i "")) ;;
      raise_for_status r
    else ret tt) w = (Ok tt, w') ->
  exists deleted,
    Forall2 has_id (filter (at_location location) entries) deleted
    /\ calls w' = deletions "/api/v1/files" deleted ++ calls w.
Proof.
  revert w. induction entries as [|entry entries IH]; intros w H.
  - injection H as <-. exists []. split; [constructor | reflexivity].
  - cbn [for_each] in H.
    apply bind_ok_inv in H. destruct H as ([] & w1 & E & H).
    apply IH in H. destruct H as (deleted & Hall & Hc).
    apply bind_ok_inv in E. destruct E as (l & w0 & El & E).
    apply lift_inv in El. destruct El as [El ->].
    cbn [filter]. unfold at_location at 1. rewrite El.
    destruct (py_eq l (VStr location)).
    + apply bind_ok_inv in E. destruct E as (i & w0 & Ei & E).
      apply lift_inv in Ei. destruct Ei as [Ei ->].
      apply bind_ok_inv in E. destruct E as (r & w0 & Er & E).
      apply request_ok_inv in Er. destruct Er as [_ ->].
      apply raise_for_status_inv in E. destruct E as [_ ->].
      exists (i :: deleted). split; [constructor; assumption|].
      rewrite Hc. unfold deletions. cbn [map rev calls add_call].
      now rewrite <- app_assoc.
    + apply ret_ok_inv in E. destruct E as [_ ->].
      exists deleted. split; assumption.
Qed.

Lemma delete_file_inv location w w' :
  _delete_file remote location w = (Ok tt, w') ->
  exists r entries deleted,
    remote (files_listing :: calls w) = Responded r
    /\ listed r = Some entries
    /\ Forall2 has_id (filter (at_location location) entries) deleted
    /\ calls w'
       = deletions "/api/v1/files" deleted ++ files_listing :: calls w.
Proof.
  intros H. unfold _delete_file in H. fold files_listing in H.
  apply bind_ok_inv in H. destruct H as (r & w1 & E & H).
  apply request_ok_inv in E. destruct E as [Hr ->].
  apply bind_ok_inv in H. destruct H as (j & w1 & E & H).
  unfold json_of in E. destruct (json r) as [j0|] eqn:Ej; [|discriminate].
  apply ret_ok_inv in E. destruct E as [-> ->].
  apply bind_ok_inv in H. destruct H as (d & w1 & E & H).
  apply lift_inv in E. destruct E as [Ed ->].
  apply bind_ok_inv in H. destruct H as (entries & w1 & E & H).
  apply lift_inv in E. destruct E as [Ei ->].
  apply delete_file_loop_exact in H. destruct H as (deleted & Hall & Hc).
  exists r, entries, deleted. split; [exact Hr|]. split.
  - unfold listed. now rewrite Ej, Ed, Ei.
  - split; [exact Hall | exact Hc].
Qed.

(** The requests of the round of the loop of [sync] for the local file
    [name], newest first, when the round starts at the history [history]
    of requests:
    - a file that the remote challenge does not have is uploaded;
    - for a file that it has, the checksums [sums] report its location; a
      checksum that is not null and is the one of the local content ends
      the round at once;
    - otherwise [_delete_file] asks for the listing of the files and
      deletes every entry that this listing has at the location, and the
      file is uploaded. *)
Variant round (cid : value) (files : string -> option node)
    (local_files : list (string * string))
    (remote_files : list (string * (string * string)))
    (sums : list (value * value)) (name : string) (history : list call)
  : list call -> Prop :=
| round_new path c :
    dict_get remote_files name = None ->
    dict_get local_files name = Some path ->
    files path = Some (File c) ->
    round cid files local_files remote_files sums name history
      [upload cid path c]
| round_unchanged u location sum path c :
    dict_get remote_files name = Some (u, location) ->
    vdict_get sums (VStr location) = Some sum ->
    is_none sum = false ->
    dict_get local_files name = Some path ->
    files path = Some (File c) ->
    py_eq (VStr (hash_file c)) sum = true ->
    round cid files local_files remote_files sums name history []
| round_changed u location sum path c r entries deleted :
    dict_get remote_files name = Some (u, location) ->
    vdict_get sums (VStr location) = Some sum ->
    (is_none sum = true \/ py_eq (VStr (hash_file c)) sum = false) ->
    dict_get local_files name = Some path ->
    files path = Some (File c) ->
    remote (files_listing :: history) = Responded r ->
    listed r = Some entries ->
    Forall2 has_id (filter (at_location location) entries) deleted ->
    round cid files local_files remote_files sums name history
      (upload cid path c
       :: deletions "/api/v1/files" deleted ++ [files_listing]).

(** The rounds for [names], one after the other, take the history of
    requests from [history] to [history']. *)
Inductive rounds (cid : value) (files : string -> option node)
    (local_files : list (string * string))
    (remote_files : list (string * (string * string)))
    (sums : list (value * value))
  : list string -> list call -> list call -> Prop :=
| rounds_nil history :
    rounds cid files local_files remote_files sums [] history history
| rounds_cons name names history r history' :
    round cid files local_files remote_files sums name history r ->
    rounds cid files local_files remote_files sums names (r ++ history)
      history' ->
    rounds cid files local_files remote_files sums (name :: names) history
      history'.

Lemma sync_local_file_extends lf rf sums name w :
  extends w (snd (sync_local_file remote hash_file lf rf sums name w)).
Proof.
  apply (preserves_sync_local_file extends);
    first [ exact extends_refl | exact extends_trans | exact extends_call ].
Qed.

Lemma sync_local_file_round lf rf sums name w w' :
  sync_local_file remote hash_file lf rf sums name w = (Ok tt, w') ->
  exists r,
    round (challenge_id w) (disk w) lf rf sums name (calls w) r
    /\ calls w' = r ++ calls w.
Proof.
  intros H. unfold sync_local_file, dict_mem in H.
  destruct (dict_get rf name) as [[u location]|] eqn:Erf; cbn [negb] in H.
  - unfold item at 1 in H. rewrite Erf, bind_ret in H. cbn [snd] in H.
    destruct (vdict_get sums (VStr location)) as [sum|] eqn:Esum;
      [|discriminate].
    rewrite bind_ret in H.
    apply bind_ok_inv in H. destruct H as (unchanged & w1 & E & H).
    assert (w1 = w
            /\ ((unchanged = true
                 /\ is_none sum = false
                 /\ exists path c,
                      dict_get lf name = Some path
                      /\ disk w path = Some (File c)
                      /\ py_eq (VStr (hash_file c)) sum = true)
                \/ (unchanged = false
                    /\ (is_none sum = true
                        \/ exists path c,
                             dict_get lf name = Some path
                             /\ disk w path = Some (File c)
                             /\ py_eq (VStr (hash_file c)) sum = false))))
      as [-> Hun].
    { destruct (is_none sum) eqn:En; cbn [negb] in E.
      - apply ret_ok_inv in E. destruct E as [<- ->].
        split; [reflexivity|]. right. split; [reflexivity | now left].
      - apply bind_ok_inv in E. destruct E as (path & w2 & Ep & E).
        apply item_inv in Ep. destruct Ep as [Hp ->].
        apply bind_ok_inv in E. destruct E as (c & w2 & Ec & E).
        apply read_file_inv in Ec. destruct Ec as [Hc ->].
        apply ret_ok_inv in E. destruct E as [<- ->].
        split; [reflexivity|].
        destruct (py_eq (VStr (hash_file c)) sum) eqn:Eq.
        + left. split; [reflexivity|]. split; [reflexivity|].
          now exists path, c.
        + right. split; [reflexivity|]. right. now exists path, c. }
    destruct Hun as [(-> & Hn & path & c & Hp & Hc & Heq) | (-> & Hdiff)].
    + apply ret_ok_inv in H. destruct H as [_ ->].
      exists []. split; [|reflexivity].
      eapply round_unchanged; eassumption.
    + apply bind_ok_inv in H. destruct H as ([] & w1 & Edel & H).
      pose proof (preserves_delete_file extends extends_refl extends_trans
                    extends_call location w) as Hext.
      rewrite Edel in Hext. cbn [snd] in Hext.
      destruct Hext as (Hid & Hdisk & _).
      apply delete_file_inv in Edel.
      destruct Edel as (r & entries & deleted & Hr & Hl & Hall & Hcalls).
      apply bind_ok_inv in H. destruct H as (path & w2 & Ep & H).
      apply item_inv in Ep. destruct Ep as [Hp ->].
      apply create_file_inv in H. destruct H as (c & Hc & ->).
      rewrite Hid in *. rewrite Hdisk in Hc.
      exists (upload (challenge_id w) path c
              :: deletions "/api/v1/files" deleted ++ [files_listing]).
      split.
      * eapply round_changed; try eassumption.
        destruct Hdiff as [Hn | (path' & c' & Hp' & Hc' & Hne)];
          [now left|].
        right. rewrite Hp in Hp'. injection Hp' as <-.
        rewrite Hc in Hc'. now injection Hc' as <-.
      * cbn [calls add_call]. rewrite Hcalls.
        cbn [app]. now rewrite <- app_assoc.
  - apply bind_ok_inv in H. destruct H as (path & w1 & Ep & H).
    apply item_inv in Ep. destruct Ep as [Hp ->].
    apply create_file_inv in H. destruct H as (c & Hc & ->).
    exists [upload (challenge_id w) path c]. split; [|reflexivity].
    now apply round_new.
Qed.

(** A remote file whose location the checksums do not report ends the
    round, and with it [sync], in a [KeyError]. *)
Lemma sync_local_file_unreported lf rf sums name u location w :
  dict_get rf name = Some (u, location) ->
  vdict_get sums (VStr location) = None ->
  sync_local_file remote hash_file lf rf sums name w = (Raise KeyError, w).
Proof.
  intros Hrf Hs. unfold sync_local_file, dict_mem. rewrite Hrf.
  cbn [negb]. unfold item. rewrite Hrf, bind_ret. cbn [snd].
  now rewrite Hs.
Qed.

Lemma sync_local_files_rounds lf rf sums names w w' :
  for_each names (sync_local_file remote hash_file lf rf sums) w
  = (Ok tt, w') ->
  rounds (challenge_id w) (disk w) lf rf sums names (calls w) (calls w').
Proof.
  revert w. induction names as [|name names IH]; intros w H.
  - injection H as <-. constructor.
  - cbn [for_each] in H.
    apply bind_ok_inv in H. destruct H as ([] & w1 & E & H).
    pose proof (sync_local_file_extends lf rf sums name w) as Hext.
    rewrite E in Hext. cbn [snd] in Hext. destruct Hext as (Hid & Hdisk & _).
    apply sync_local_file_round in E. destruct E as (r & Hr & Hc).
    apply IH in H. rewrite Hid, Hdisk, Hc in H.
    econstructor; eassumption.
Qed.

Lemma get_files_sha1sums_inv w sums w' :
  _get_files_sha1sums remote w = (Ok sums, w') ->
  exists r,
    remote (files_listing :: calls w) = Responded r
    /\ reported r = Some sums
    /\ w' = add_call files_listing w.
Proof.
  intros H. unfold _get_files_sha1sums in H. fold files_listing in H.
  apply bind_ok_inv in H. destruct H as (r & w1 & E & H).
  apply request_ok_inv in E. destruct E as [Hr ->].
  apply bind_ok_inv in H. destruct H as ([] & w1 & E & H).
  apply raise_for_status_inv in E. destruct E as [_ ->].
  apply bind_ok_inv in H. destruct H as (j & w1 & E & H).
  unfold json_of in E. destruct (json r) as [j0|] eqn:Ej; [|discriminate].
  apply ret_ok_inv in E. destruct E as [-> ->].
  apply bind_ok_inv in H. destruct H as (d & w1 & E & H).
  apply lift_inv in E. destruct E as [Ed ->].
  apply bind_ok_inv in H. destruct H as (files & w1 & E & H).
  apply lift_inv in E. destruct E as [Ei ->].
  apply lift_inv in H. destruct H as [Hs ->].
  exists r. split; [exact Hr|]. split; [|reflexivity].
  unfold reported, listed. now rewrite Ej, Ed, Ei, Hs.
Qed.

(** The file step of [sync], when it returns: after the deletion of the
    remote files that the document no longer lists ([w1]), and when the
    document lists a file at all, it asks for the checksums once and runs
    one round for each local basename. *)
Lemma sync_files_inv rc w w' :
  sync_files remote hash_file rc w = (Ok tt, w') ->
  exists lf rf w1,
    local_basenames (doc w) = Ok lf
    /\ remote_basenames rc = Ok rf
    /\ extends w w1
    /\ extends w w'
    /\ match lf with
       | [] => w' = w1
       | _ :: _ =>
           exists r sums,
             remote (files_listing :: calls w1) = Responded r
             /\ reported r = Some sums
             /\ rounds (challenge_id w) (disk w) lf rf sums (dict_keys lf)
                  (files_listing :: calls w1) (calls w')
       end.
Proof.
  intros H.
  assert (extends w w') as Hext.
  { pose proof (preserves_sync_files extends) as Hp.
    specialize (Hp extends_refl extends_trans extends_call).
    assert (forall v w0, extends w0 (set_doc (dict_set (doc w0) "files" v) w0))
      as Hfiles by (intros; repeat split; now exists []).
    specialize (Hp Hfiles rc w). now rewrite H in Hp. }
  unfold sync_files in H. rewrite bind_self_get in H.
  unfold self_set in H. rewrite bind_modify in H.
  set (files := py_or (get_or (doc w) "files" VNone) (VList [])) in H.
  set (w0 := set_doc (dict_set (doc w) "files" files) w) in H.
  apply bind_ok_inv in H. destruct H as (rf0 & v & E & H).
  apply lift_inv in E. destruct E as [Erf ->].
  unfold self_item in H. rewrite bind_bind, bind_gets in H.
  cbn [doc set_doc w0 subscript] in H.
  rewrite dict_get_set_same, bind_lift_ok in H.
  apply bind_ok_inv in H. destruct H as (l & v & E & H).
  apply lift_inv in E. destruct E as [El ->].
  apply bind_ok_inv in H. destruct H as (lf & v & E & H).
  apply lift_inv in E. destruct E as [Elf ->].
  apply bind_ok_inv in H. destruct H as (l' & v & E & H).
  apply lift_inv in E. destruct E as [El' ->].
  apply bind_ok_inv in H. destruct H as (rf & v & E & H).
  apply lift_inv in E. destruct E as [Erfs ->].
  apply bind_ok_inv in H. destruct H as ([] & w1 & E & H).
  assert (extends w0 w1) as H01.
  { assert (preserves extends
              (for_each (dict_keys rf) (fun remote_file =>
                 if negb (dict_mem lf remote_file) then
                   rf0 <- item rf remote_file ;;
                   _delete_file remote (snd rf0)
                 else ret tt))) as Hp.
    { apply preserves_for_each;
        [exact extends_refl | exact extends_trans |].
      intros name. destruct (negb (dict_mem lf name)).
      - apply preserves_bind; [exact extends_trans | |].
        + apply preserves_item. exact extends_refl.
        + intros a. apply preserves_delete_file;
            first [ exact extends_refl | exact extends_trans
                  | exact extends_call ].
      - apply preserves_ret. exact extends_refl. }
    specialize (Hp w0). now rewrite E in Hp. }
  clear E.
  exists lf, rf, w1.
  split; [unfold local_basenames; fold files; now rewrite El|].
  split.
  { unfold remote_basenames. rewrite Erf. cbn [Res.bind].
    rewrite El'. exact Erfs. }
  split; [exact H01|]. split; [exact Hext|].
  destruct lf as [|entry lf]; [now apply ret_ok_inv in H|].
  apply bind_ok_inv in H. destruct H as (sums & w2 & E & H).
  apply get_files_sha1sums_inv in E. destruct E as (r & Hr & Hs & ->).
  apply sync_local_files_rounds in H.
  exists r, sums. split; [exact Hr|]. split; [exact Hs|].
  destruct H01 as (Hid & Hdisk & _). cbn in H.
  rewrite Hid, Hdisk in H. exact H.
Qed.

End Rounds.

(** * The defects, on concrete runs *)

Import Fixture.

(** C1: [create] of a document that requires challenge 3 twice sends both
    to the remote: the set the code computes is only used for the test of
    self-reference, the list that is sorted and sent is not deduplicated. *)
Theorem create_sends_duplicate_prerequisites :
  fst (create accepting [] (start doc_dup no_disk)) = Ok tt
  /\ calls (snd (create accepting [] (start doc_dup no_disk)))
     = [PATCH challenge_1 (VDict [("state", VStr "visible")]);
        PATCH challenge_1 (VDict [("next_id", VNone)]);
        PATCH challenge_1
          (VDict [("requirements",
                   VDict [("prerequisites", VList [VInt 3; VInt 3]);
                          ("anonymize", VBool false)])]);
        GET (Url "/api/v1/challenges?view=admin");
        POST (Url "/api/v1/challenges")
          (Json (VDict [("name", VStr "chal"); ("category", VStr "");
                        ("description", VStr ""); ("attribution", VStr "");
                        ("type", VStr "standard"); ("state", VStr "hidden");
                        ("value", VInt 100); ("max_attempts", VInt 0);
                        ("connection_info", VNone)]))].
Proof. vm_compute. split; reflexivity. Qed.

(** C4: [sync] of the challenge of id 1 and name "chal" whose document
    requires "chal" and 1: both resolve to the challenge itself, one
    occurrence is removed with a warning, the other is sent. *)
Theorem sync_sends_second_self_reference :
  fst (sync accepting toy_hash [] (start doc_self no_disk)) = Ok tt
  /\ In (PATCH challenge_1
           (VDict [("requirements",
                    VDict [("prerequisites", VList [VInt 1]);
                           ("anonymize", VBool false)])]))
        (calls (snd (sync accepting toy_hash [] (start doc_self no_disk))))
  /\ challenge_id (snd (sync accepting toy_hash [] (start doc_self no_disk)))
     = VInt 1
  /\ echoed (snd (sync accepting toy_hash [] (start doc_self no_disk)))
     = [[Lit "Challenge cannot require itself. Skipping invalid requirement."]].
Proof.
  vm_compute. repeat split. do 2 right. left. reflexivity.
Qed.

(** C3: two files, local and remote, the remote with a checksum for both.
    When the checksum of the first one matches, [verify] returns [True]
    whatever the remote checksum [sum_b] of the second one is, and so also
    when it differs from the checksum of the local file: it returns from
    inside the loop, after the first file. *)
Theorem verify_returns_at_first_checksum
    (hash : bytes -> string) (ca cb : bytes) (sum_b : value) :
  fst (verify (two_files (VStr (hash ca)) sum_b) hash []
         (start doc_two_files (two_on_disk ca cb)))
  = Ok true.
Proof.
  vm_compute.
  pose proof (String.eqb_refl (hash ca)) as E. vm_compute in E. rewrite E.
  reflexivity.
Qed.

(** The same run when it is the first checksum that differs. *)
Example verify_first_checksum_differs :
  fst (verify (two_files (VStr "bogus") (VStr (toy_hash (of_string "B"))))
         toy_hash []
         (start doc_two_files (two_on_disk (of_string "A") (of_string "B"))))
  = Ok false.
Proof. vm_compute. reflexivity. Qed.

(** C2, as stated, fails: [verify] of a document without [files] adds the
    key. *)
Lemma verify_adds_files_key :
  fst (verify (serving (challenge 0 []) []) toy_hash []
         (start doc_plain no_disk))
  = Ok true
  /\ dict_get doc_plain "files" = None
  /\ doc (snd (verify (serving (challenge 0 []) []) toy_hash []
                 (start doc_plain no_disk)))
     = doc_plain ++ [("files", VList [])].
Proof. vm_compute. repeat split. Qed.

(** C6, as stated, fails: a [state] key in [extra] replaces the "hidden" of
    the payload that [create] sends. *)
Lemma extra_state_overrides_hidden :
  fst (create accepting [] (start doc_extra_state no_disk)) = Ok tt
  /\ calls (snd (create accepting [] (start doc_extra_state no_disk)))
     = [PATCH challenge_1 (VDict [("state", VStr "visible")]);
        PATCH challenge_1 (VDict [("next_id", VNone)]);
        POST (Url "/api/v1/challenges")
          (Json (VDict [("name", VStr "chal"); ("category", VStr "");
                        ("description", VStr ""); ("attribution", VStr "");
                        ("type", VStr "standard"); ("state", VStr "visible");
                        ("value", VInt 100); ("max_attempts", VInt 0);
                        ("connection_info", VNone)]))].
Proof. vm_compute. split; reflexivity. Qed.



(** C10, as stated, fails: on a successful response whose body is not JSON,
    [load_installed_challenges] raises. *)
Lemma load_installed_challenges_raises_on_html :
  fst (load_installed_challenges html_remote (start [] no_disk))
  = Raise JSONDecodeError.
Proof. reflexivity. Qed.

(** * The theorems at concrete inputs *)

(** C10: a refused listing request and an accepted one without data end in
    the same error. *)
Lemma listing_failure_is_not_found_witness :
  (refusing (listing :: calls (start doc_plain no_disk))
   = Responded (mkResponse false None [])
   /\ no_data (mkResponse false None [])
   /\ empty_remote (listing :: calls (start doc_plain no_disk))
      = Responded (mkResponse true (Some (VDict [])) [])
   /\ no_data (mkResponse true (Some (VDict [])) []))
  /\ (load_installed_challenges refusing (start doc_plain no_disk)
      = (Ok (VList []), add_call listing (start doc_plain no_disk))
      /\ _load_challenge_id refusing (start doc_plain no_disk)
         = (Raise (RemoteChallengeNotFound
                     [Lit "Could not load any remote challenges"]),
            add_call listing (start doc_plain no_disk)))
  /\ (load_installed_challenges empty_remote (start doc_plain no_disk)
      = (Ok (VList []), add_call listing (start doc_plain no_disk))
      /\ _load_challenge_id empty_remote (start doc_plain no_disk)
         = (Raise (RemoteChallengeNotFound
                     [Lit "Could not load any remote challenges"]),
            add_call listing (start doc_plain no_disk))).
Proof.
  assert (no_data (mkResponse false None [])) as H1 by (left; reflexivity).
  assert (no_data (mkResponse true (Some (VDict [])) [])) as H2.
  { right. exists []. split; reflexivity. }
  split; [repeat split; assumption|]. split.
  - apply (listing_failure_is_not_found refusing (start doc_plain no_disk)
             (mkResponse false None []) eq_refl H1).
  - apply (listing_failure_is_not_found empty_remote
             (start doc_plain no_disk)
             (mkResponse true (Some (VDict [])) []) eq_refl H2).
Defined.

(** C5 at [next: 7]. *)
Lemma set_next_positive_int_raises_witness :
  (0 < 7)%Z
  /\ _set_next accepting (VInt 7) (start doc_plain no_disk)
     = (Raise (UnboundLocalError "remote_challenge"), start doc_plain no_disk).
Proof.
  split; [reflexivity|].
  apply (set_next_positive_int_raises accepting 7 (start doc_plain no_disk)).
  reflexivity.
Defined.

(** C9 at a document without a name, at one without a value and at one
    that lists a file that is not on disk. *)
Lemma create_fails_before_any_call_witness :
  (lacks_name [("value", VInt 100)]
   /\ exists e w',
        create accepting [] (start [("value", VInt 100)] no_disk)
        = (Raise e, w')
        /\ is_invalid e /\ calls w' = [] /\ doc w' = [("value", VInt 100)]
        /\ disk w' = no_disk)
  /\ (lacks_value [("name", VStr "chal")]
      /\ exists e w',
           create accepting [] (start [("name", VStr "chal")] no_disk)
           = (Raise e, w')
           /\ is_invalid e /\ calls w' = [] /\ doc w' = [("name", VStr "chal")]
           /\ disk w' = no_disk)
  /\ (lists_missing_file [] (start doc_two_files no_disk)
      /\ exists e w',
           create accepting [] (start doc_two_files no_disk) = (Raise e, w')
           /\ is_invalid e /\ calls w' = [] /\ doc w' = doc_two_files
           /\ disk w' = no_disk).
Proof.
  split; [|split].
  - split; [reflexivity|].
    apply (create_fails_before_any_call accepting []
             (start [("value", VInt 100)] no_disk)).
    left. reflexivity.
  - split; [split; reflexivity|].
    apply (create_fails_before_any_call accepting []
             (start [("name", VStr "chal")] no_disk)).
    right. left. split; reflexivity.
  - assert (lists_missing_file [] (start doc_two_files no_disk)) as H.
    { split; [reflexivity|]. exists ["a.txt"; "b.txt"], "a.txt".
      repeat split. left. reflexivity. }
    split; [exact H|].
    apply (create_fails_before_any_call accepting []
             (start doc_two_files no_disk)).
    right. right. exact H.
Defined.


(** The two runs of [verify] that C8 speaks of. *)
Example verify_attempts_runs :
  fst (verify (serving (challenge 0 []) []) toy_hash []
         (start doc_plain no_disk)) = Ok true
  /\ fst (verify (serving (challenge 3 []) []) toy_hash []
            (start doc_plain no_disk)) = Ok false
  /\ echoed (snd (verify (serving (challenge 3 []) []) toy_hash []
                    (start doc_plain no_disk)))
     = [[Lit "attempts"; Lit " is not in challenge."]].
Proof. vm_compute. repeat split. Qed.


(** The run of that witness: the round of [a.txt] sends nothing, the round
    of [b.txt] the listing, the deletion of the one file at its location
    and the upload. *)
Example sync_reuploads_b_txt_only :
  calls (snd (sync (two_files (VStr "A") VNone) toy_hash []
                (start doc_two_files
                   (two_on_disk (of_string "A") (of_string "B")))))
  = [PATCH challenge_1 (VDict [("state", VStr "visible")]);
     PATCH challenge_1 (VDict [("next_id", VNone)]);
     GET (Url "/api/v1/hints");
     upload (VInt 1) "b.txt" (of_string "B");
     DELETE (UrlId "/api/v1/files/" (VInt 11) "");
     files_listing;
     files_listing;
     GET (Url "/api/v1/tags");
     GET (UrlId "/api/v1/challenges/" (VInt 1) "/topics");
     GET (Url "/api/v1/flags");
     PATCH challenge_1
       (VDict [("name", VStr "chal"); ("category", VStr "misc");
               ("description", VStr "d"); ("attribution", VStr "");
               ("type", VStr "standard"); ("state", VStr "hidden");
               ("value", VInt 100); ("max_attempts", VInt 0);
               ("connection_info", VNone)]);
     GET (UrlId "/api/v1/challenges/" (VInt 1) "?view=admin");
     GET (Url "/api/v1/challenges?view=admin")].
Proof. vm_compute. reflexivity. Qed.

(** A location that the listing has twice is deleted twice: the remote
    challenge has [a.txt], the listing has two entries at its location,
    without a checksum. *)
Example sync_deletes_every_entry_at_location :
  calls (snd (sync
                (serving (challenge 0 [VStr "/files/aa/a.txt?token=t"])
                   [VDict [("id", VInt 10); ("location", VStr "aa/a.txt")];
                    VDict [("id", VInt 12); ("location", VStr "aa/a.txt")]])
                toy_hash ["flags"; "topics"; "tags"; "hints"; "next"]
                (start (doc_plain ++ [("files", VList [VStr "a.txt"])])
                   (two_on_disk (of_string "A") (of_string "B")))))
  = [PATCH challenge_1 (VDict [("state", VStr "visible")]);
     upload (VInt 1) "a.txt" (of_string "A");
     DELETE (UrlId "/api/v1/files/" (VInt 12) "");
     DELETE (UrlId "/api/v1/files/" (VInt 10) "");
     files_listing;
     files_listing;
     PATCH challenge_1
       (VDict [("name", VStr "chal"); ("category", VStr "misc");
               ("description", VStr "d"); ("attribution", VStr "");
               ("type", VStr "standard"); ("state", VStr "hidden");
               ("value", VInt 100); ("max_attempts", VInt 0);
               ("connection_info", VNone)]);
     GET (UrlId "/api/v1/challenges/" (VInt 1) "?view=admin");
     GET (Url "/api/v1/challenges?view=admin")].
Proof. vm_compute. reflexivity. Qed.

(** One round for the file [a.txt], which the remote stores at [aa/a.txt]
    with id 10: once with the checksum of the local content, once without
    one. *)
Example sync_local_file_runs_at_a_txt :
  (dict_get [("a.txt", "a.txt")] "a.txt" = Some "a.txt"
   /\ dict_get [("a.txt", ("/files/aa/a.txt?token=t", "aa/a.txt"))] "a.txt"
      = Some ("/files/aa/a.txt?token=t", "aa/a.txt")
   /\ two_on_disk (of_string "A") (of_string "B") "a.txt"
      = Some (File (of_string "A")))
  /\ sync_local_file (two_files VNone VNone) toy_hash
       [("a.txt", "a.txt")]
       [("a.txt", ("/files/aa/a.txt?token=t", "aa/a.txt"))]
       [(VStr "aa/a.txt", VStr (toy_hash (of_string "A")))]
       "a.txt"
       (start doc_two_files (two_on_disk (of_string "A") (of_string "B")))
     = (Ok tt,
        start doc_two_files (two_on_disk (of_string "A") (of_string "B")))
  /\ exists w',
       sync_local_file (two_files VNone VNone) toy_hash
         [("a.txt", "a.txt")]
         [("a.txt", ("/files/aa/a.txt?token=t", "aa/a.txt"))]
         [(VStr "aa/a.txt", VNone)]
         "a.txt"
         (start doc_two_files (two_on_disk (of_string "A") (of_string "B")))
       = (Ok tt, w')
       /\ calls w'
          = [POST (Url "/api/v1/files")
               (Multipart [("a.txt", of_string "A")]
                  (VDict [("challenge_id", VNone);
                          ("type", VStr "challenge")]));
             DELETE (UrlId "/api/v1/files/" (VInt 10) "");
             GET (Url "/api/v1/files?type=challenge")].
Proof.
  split; [repeat split|]. split.
  - apply (proj1 (sync_local_file_runs (two_files VNone VNone)
                    toy_hash [("a.txt", "a.txt")]
                    [("a.txt", ("/files/aa/a.txt?token=t", "aa/a.txt"))]
                    [(VStr "aa/a.txt", VStr (toy_hash (of_string "A")))]
                    "a.txt" "a.txt" "/files/aa/a.txt?token=t" "aa/a.txt"
                    (of_string "A")
                    (start doc_two_files
                       (two_on_disk (of_string "A") (of_string "B")))
                    eq_refl eq_refl eq_refl)
             (toy_hash (of_string "A")));
      reflexivity.
  - apply (proj2 (sync_local_file_runs (two_files VNone VNone)
                    toy_hash [("a.txt", "a.txt")]
                    [("a.txt", ("/files/aa/a.txt?token=t", "aa/a.txt"))]
                    [(VStr "aa/a.txt", VNone)]
                    "a.txt" "a.txt" "/files/aa/a.txt?token=t" "aa/a.txt"
                    (of_string "A")
                    (start doc_two_files
                       (two_on_disk (of_string "A") (of_string "B")))
                    eq_refl eq_refl eq_refl)
             VNone (VInt 10)).
    + reflexivity.
    + left. reflexivity.
    + split; [|split].
      * exists (mkResponse true
                  (Some (data (VList (stored_two VNone VNone)))) []).
        exists [], [("id", VInt 10); ("location", VStr "aa/a.txt");
                    ("sha1sum", VNone)].
        exists [VDict [("id", VInt 11); ("location", VStr "bb/b.txt");
                       ("sha1sum", VNone)]].
        repeat split.
        -- constructor.
        -- constructor; [|constructor].
           exists (VStr "bb/b.txt"). split; reflexivity.
      * eexists. split; reflexivity.
      * eexists. split; reflexivity.
Qed.

(** C6 at the document [doc_plain], whose state defaults to visible. *)
Lemma visibility_bracket_witness :
  no_state_override [] doc_plain
  /\ (exists payload later,
         calls (snd (create accepting [] (start doc_plain no_disk)))
         = later ++ [POST (Url "/api/v1/challenges") (Json (VDict payload))]
         /\ dict_get payload "state" = Some (VStr "hidden")
         /\ ends_visible
              (calls (snd (create accepting [] (start doc_plain no_disk))))
            = true)
  /\ (exists id r rc payload later,
         calls (snd (sync accepting toy_hash [] (start doc_plain no_disk)))
         = later ++ [PATCH (UrlId "/api/v1/challenges/" id "") (VDict payload);
                     detail id; listing]
         /\ dict_get payload "state" = Some (VStr "hidden")
         /\ accepting [detail id; listing] = Responded r
         /\ response_data r = Some rc
         /\ ends_visible
              (calls (snd (sync accepting toy_hash []
                             (start doc_plain no_disk))))
            = true).
Proof.
  assert (no_state_override [] doc_plain) as Hno by (split; reflexivity).
  split; [exact Hno|]. split.
  - apply (proj1 (visibility_bracket accepting toy_hash []
                    (start doc_plain no_disk)
                    (snd (create accepting [] (start doc_plain no_disk)))
                    Hno)).
    vm_compute. reflexivity.
  - apply (proj2 (visibility_bracket accepting toy_hash []
                    (start doc_plain no_disk)
                    (snd (sync accepting toy_hash []
                            (start doc_plain no_disk)))
                    Hno)).
    vm_compute. reflexivity.
Defined.

(** * The further properties at concrete inputs *)

(** A refused request for the challenge 1. *)
Lemma load_installed_challenge_not_found_witness :
  (refusing (detail (VInt 1) :: calls (start doc_plain no_disk))
   = Responded (mkResponse false None [])
   /\ no_data (mkResponse false None []))
  /\ load_installed_challenge refusing (VInt 1) (start doc_plain no_disk)
     = (Raise (RemoteChallengeNotFound
                 [Lit "Could not load challenge with id="; Fmt (VInt 1)]),
        add_call (detail (VInt 1)) (start doc_plain no_disk)).
Proof.
  assert (no_data (mkResponse false None [])) as H by (left; reflexivity).
  split; [split; [reflexivity | exact H]|].
  apply (load_installed_challenge_not_found refusing (VInt 1)
           (start doc_plain no_disk) (mkResponse false None []) eq_refl H).
Defined.

(** [sync] of a document without a name, and of one that lists two files
    that are not on disk. *)
Lemma sync_fails_before_any_call_witness :
  (truthy (get_or (doc (start [("value", VInt 100)] no_disk)) "name" VNone)
   = false
   /\ exists m w',
        sync accepting toy_hash [] (start [("value", VInt 100)] no_disk)
        = (Raise (InvalidChallengeFile m), w')
        /\ calls w' = [] /\ doc w' = [("value", VInt 100)]
        /\ disk w' = no_disk)
  /\ (lists_missing_file [] (start doc_two_files no_disk)
      /\ exists m w',
           sync accepting toy_hash [] (start doc_two_files no_disk)
           = (Raise (InvalidChallengeFile m), w')
           /\ calls w' = [] /\ doc w' = doc_two_files
           /\ disk w' = no_disk).
Proof.
  split.
  - split; [reflexivity|].
    apply (sync_fails_before_any_call accepting toy_hash []
             (start [("value", VInt 100)] no_disk)).
    left. reflexivity.
  - assert (lists_missing_file [] (start doc_two_files no_disk)) as H.
    { split; [reflexivity|]. exists ["a.txt"; "b.txt"], "a.txt".
      repeat split. left. reflexivity. }
    split; [exact H|].
    apply (sync_fails_before_any_call accepting toy_hash []
             (start doc_two_files no_disk)).
    right. exact H.
Defined.

(** [sync], ignoring [category], of the document [doc_plain] against the
    remote challenge [challenge 0 []]. *)
Lemma sync_sends_remote_value_of_ignored_witness :
  sync (serving (challenge 0 []) []) toy_hash ["category"]
    (start doc_plain no_disk)
  = (Ok tt,
     snd (sync (serving (challenge 0 []) []) toy_hash ["category"]
            (start doc_plain no_disk)))
  /\ exists id r rc payload later,
       calls (snd (sync (serving (challenge 0 []) []) toy_hash ["category"]
                     (start doc_plain no_disk)))
       = later ++ PATCH (UrlId "/api/v1/challenges/" id "") (VDict payload)
                  :: detail id :: listing
                  :: calls (start doc_plain no_disk)
       /\ serving (challenge 0 []) []
            (detail id :: listing :: calls (start doc_plain no_disk))
          = Responded r
       /\ response_data r = Some rc
       /\ forall k,
            In k reset_properties -> ignored ["category"] k = true ->
            exists v, subscript rc k = Ok v /\ dict_get payload k = Some v.
Proof.
  assert (sync (serving (challenge 0 []) []) toy_hash ["category"]
            (start doc_plain no_disk)
          = (Ok tt,
             snd (sync (serving (challenge 0 []) []) toy_hash ["category"]
                    (start doc_plain no_disk)))) as H
    by (vm_compute; reflexivity).
  split; [exact H|].
  apply (sync_sends_remote_value_of_ignored (serving (challenge 0 []) [])
           toy_hash ["category"] (start doc_plain no_disk) _ H).
Defined.

(** [create], ignoring [category], of the document [doc_plain]. *)
Lemma create_blanks_ignored_text_witness :
  create accepting ["category"] (start doc_plain no_disk)
  = (Ok tt, snd (create accepting ["category"] (start doc_plain no_disk)))
  /\ exists payload later,
       calls (snd (create accepting ["category"] (start doc_plain no_disk)))
       = later ++ POST (Url "/api/v1/challenges") (Json (VDict payload))
                  :: calls (start doc_plain no_disk)
       /\ forall k,
            In k ["category"; "description"; "attribution"] ->
            ignored ["category"] k = true ->
            dict_get payload k = Some (VStr "").
Proof.
  assert (create accepting ["category"] (start doc_plain no_disk)
          = (Ok tt,
             snd (create accepting ["category"] (start doc_plain no_disk))))
    as H by (vm_compute; reflexivity).
  split; [exact H|].
  apply (create_blanks_ignored_text accepting ["category"]
           (start doc_plain no_disk) _ H).
Defined.

(** The flags of challenge 1, against a remote that lists one flag of
    challenge 1 and one of challenge 2. *)
Lemma delete_existing_deletes_own_entries_witness :
  (listing_of two_flags
     (GET (Url "/api/v1/flags") :: calls (known 1 doc_plain no_disk))
   = Responded (mkResponse true (Some (data (VList two_flags))) [])
   /\ listed (mkResponse true (Some (data (VList two_flags))) [])
      = Some two_flags
   /\ delete_existing_of (listing_of two_flags) "/api/v1/flags"
        (known 1 doc_plain no_disk)
      = (Ok tt,
         snd (delete_existing_of (listing_of two_flags) "/api/v1/flags"
                (known 1 doc_plain no_disk))))
  /\ exists deleted,
       calls (snd (delete_existing_of (listing_of two_flags) "/api/v1/flags"
                     (known 1 doc_plain no_disk)))
       = deletions "/api/v1/flags" deleted
         ++ GET (Url "/api/v1/flags") :: calls (known 1 doc_plain no_disk)
       /\ (forall i, In i deleted ->
             exists entry,
               In entry two_flags
               /\ own_entry (challenge_id (known 1 doc_plain no_disk))
                    entry i)
       /\ (Ok tt = Ok tt ->
           forall entry c,
             In entry two_flags ->
             subscript entry "challenge_id" = Ok c ->
             py_eq c (challenge_id (known 1 doc_plain no_disk)) = true ->
             exists i, subscript entry "id" = Ok i /\ In i deleted).
Proof.
  assert (delete_existing_of (listing_of two_flags) "/api/v1/flags"
            (known 1 doc_plain no_disk)
          = (Ok tt,
             snd (delete_existing_of (listing_of two_flags) "/api/v1/flags"
                    (known 1 doc_plain no_disk)))) as H
    by (vm_compute; reflexivity).
  split; [split; [reflexivity | split; [reflexivity | exact H]]|].
  apply (delete_existing_deletes_own_entries (listing_of two_flags)
           "/api/v1/flags" (known 1 doc_plain no_disk) (Ok tt) _
           (mkResponse true (Some (data (VList two_flags))) []) two_flags
           eq_refl eq_refl H).
Defined.

(** The challenge "chal", which the remote lists with id 1. *)
Lemma load_challenge_id_takes_first_match_witness :
  (challenge_id (start doc_plain no_disk) = VNone
   /\ _load_challenge_id accepting (start doc_plain no_disk)
      = (Ok tt, snd (_load_challenge_id accepting (start doc_plain no_disk))))
  /\ exists r remote_challenges before entry after name,
       accepting (listing :: calls (start doc_plain no_disk)) = Responded r
       /\ response_data r = Some remote_challenges
       /\ py_iter remote_challenges = Ok (before ++ entry :: after)
       /\ dict_get (doc (start doc_plain no_disk)) "name" = Some name
       /\ Forall (named name false) before
       /\ named name true entry
       /\ subscript entry "id"
          = Ok (challenge_id
                  (snd (_load_challenge_id accepting
                          (start doc_plain no_disk))))
       /\ challenge_id
            (snd (_load_challenge_id accepting (start doc_plain no_disk)))
          <> VNone
       /\ snd (_load_challenge_id accepting (start doc_plain no_disk))
          = set_id
              (challenge_id
                 (snd (_load_challenge_id accepting
                         (start doc_plain no_disk))))
              (add_call listing (start doc_plain no_disk)).
Proof.
  assert (_load_challenge_id accepting (start doc_plain no_disk)
          = (Ok tt,
             snd (_load_challenge_id accepting (start doc_plain no_disk))))
    as H by (vm_compute; reflexivity).
  split; [split; [reflexivity | exact H]|].
  apply (load_challenge_id_takes_first_match accepting
           (start doc_plain no_disk) _ eq_refl H).
Defined.

(** The requirements [3, 3] of the challenge 1. *)
Lemma set_required_challenges_sends_sorted_witness :
  _set_required_challenges accepting (known 1 doc_dup no_disk)
  = (Ok tt, snd (_set_required_challenges accepting
                   (known 1 doc_dup no_disk)))
  /\ exists prerequisites,
       calls (snd (_set_required_challenges accepting
                     (known 1 doc_dup no_disk)))
       = PATCH (UrlId "/api/v1/challenges/"
                  (challenge_id (known 1 doc_dup no_disk)) "")
           (VDict [("requirements",
                    VDict [("prerequisites", VList prerequisites);
                           ("anonymize",
                            anonymize_of (doc (known 1 doc_dup no_disk)))])])
         :: listing :: calls (known 1 doc_dup no_disk)
       /\ Sorted py_le prerequisites.
Proof.
  assert (_set_required_challenges accepting (known 1 doc_dup no_disk)
          = (Ok tt, snd (_set_required_challenges accepting
                           (known 1 doc_dup no_disk)))) as H
    by (vm_compute; reflexivity).
  split; [exact H|].
  apply (set_required_challenges_sends_sorted accepting
           (known 1 doc_dup no_disk) _ H).
Defined.


(** The prerequisites [1; 2] and [3], when the listing is refused. *)
Lemma compare_requirements_blind_without_listing_witness :
  (refusing (listing :: calls (start doc_plain no_disk))
   = Responded (mkResponse false None [])
   /\ no_data (mkResponse false None []))
  /\ _compare_challenge_requirements refusing
       (VList (map VInt [1; 2]%Z)) (VList (map VInt [3]%Z))
       (start doc_plain no_disk)
     = (Ok true, add_call listing (start doc_plain no_disk)).
Proof.
  assert (no_data (mkResponse false None [])) as H by (left; reflexivity).
  split; [split; [reflexivity | exact H]|].
  apply (compare_requirements_blind_without_listing refusing
           [1; 2]%Z [3]%Z (start doc_plain no_disk)
           (mkResponse false None []) eq_refl H).
Defined.

(** Two listed files, none on disk. *)
Lemma verify_files_missing_local_file_witness :
  (dict_get (doc (start doc_two_files no_disk)) "files"
   = Some (VList (map VStr ["a.txt"; "b.txt"]))
   /\ In "a.txt" ["a.txt"; "b.txt"]
   /\ disk (start doc_two_files no_disk) "a.txt" = None)
  /\ verify_files accepting toy_hash (VList [])
       (start doc_two_files no_disk)
     = (Ok false,
        add_echo [Lit "InvalidChallengeFile"] (start doc_two_files no_disk)).
Proof.
  split; [repeat split; left; reflexivity|].
  apply (verify_files_missing_local_file accepting toy_hash (VList [])
           ["a.txt"; "b.txt"] "a.txt" (start doc_two_files no_disk)
           eq_refl (or_introl eq_refl) eq_refl).
Defined.

(** A document without [attribution], against a remote challenge whose
    attribution is empty. *)
Lemma verify_requires_description_attribution_flags_witness :
  (In "attribution" required_keys
   /\ ignored [] "attribution" = false
   /\ dict_get (doc (start doc_unattributed no_disk)) "attribution" = None
   /\ verify (serving (challenge 0 []) []) toy_hash []
        (start doc_unattributed no_disk)
      = (Ok false,
         snd (verify (serving (challenge 0 []) []) toy_hash []
                (start doc_unattributed no_disk))))
  /\ false = false
  /\ diagnosed (start doc_unattributed no_disk)
       (snd (verify (serving (challenge 0 []) []) toy_hash []
               (start doc_unattributed no_disk))).
Proof.
  assert (In "attribution" required_keys) as Hk
    by (right; left; reflexivity).
  assert (verify (serving (challenge 0 []) []) toy_hash []
            (start doc_unattributed no_disk)
          = (Ok false,
             snd (verify (serving (challenge 0 []) []) toy_hash []
                    (start doc_unattributed no_disk)))) as H
    by (vm_compute; reflexivity).
  split; [split; [exact Hk | split; [reflexivity | split; [reflexivity | exact H]]]|].
  apply (verify_requires_description_attribution_flags
           (serving (challenge 0 []) []) toy_hash [] "attribution"
           (start doc_unattributed no_disk) false _ Hk eq_refl eq_refl H).
Defined.

(** A document whose value is the text "100". *)
Lemma initial_payload_value_verbatim_witness :
  (_get_initial_challenge_payload [] (start doc_text_value no_disk)
   = (Ok [("name", VStr "chal"); ("category", VStr "");
          ("description", VStr ""); ("attribution", VStr "");
          ("type", VStr "standard"); ("state", VStr "hidden");
          ("value", VStr "100"); ("max_attempts", VInt 0);
          ("connection_info", VNone)],
      start doc_text_value no_disk)
   /\ dict_get (doc (start doc_text_value no_disk)) "value"
      = Some (VStr "100")
   /\ is_none (VStr "100") = false
   /\ group_sets "value" [] (doc (start doc_text_value no_disk)) "extra"
      = false
   /\ group_sets "value" [] (doc (start doc_text_value no_disk)) "geo_flags"
      = false)
  /\ dict_get [("name", VStr "chal"); ("category", VStr "");
               ("description", VStr ""); ("attribution", VStr "");
               ("type", VStr "standard"); ("state", VStr "hidden");
               ("value", VStr "100"); ("max_attempts", VInt 0);
               ("connection_info", VNone)] "value"
     = Some (VStr "100").
Proof.
  assert (_get_initial_challenge_payload [] (start doc_text_value no_disk)
          = (Ok [("name", VStr "chal"); ("category", VStr "");
                 ("description", VStr ""); ("attribution", VStr "");
                 ("type", VStr "standard"); ("state", VStr "hidden");
                 ("value", VStr "100"); ("max_attempts", VInt 0);
                 ("connection_info", VNone)],
             start doc_text_value no_disk)) as H
    by (vm_compute; reflexivity).
  split.
  { split; [exact H|]. split; [reflexivity|]. split; [reflexivity|].
    split; reflexivity. }
  apply (initial_payload_value_verbatim [] (start doc_text_value no_disk)
           _ _ (VStr "100") H eq_refl eq_refl eq_refl eq_refl).
Defined.

(** The topics of challenge 1, of which the remote lists two. *)
Lemma delete_existing_topics_deletes_listed_witness :
  (listing_of two_topics
     (topics_of (challenge_id (known 1 doc_plain no_disk))
      :: calls (known 1 doc_plain no_disk))
   = Responded (mkResponse true (Some (data (VList two_topics))) [])
   /\ listed (mkResponse true (Some (data (VList two_topics))) [])
      = Some two_topics
   /\ _delete_existing_topics (listing_of two_topics)
        (known 1 doc_plain no_disk)
      = (Ok tt,
         snd (_delete_existing_topics (listing_of two_topics)
                (known 1 doc_plain no_disk))))
  /\ exists deleted,
       calls (snd (_delete_existing_topics (listing_of two_topics)
                     (known 1 doc_plain no_disk)))
       = topic_deletions deleted
         ++ topics_of (challenge_id (known 1 doc_plain no_disk))
            :: calls (known 1 doc_plain no_disk)
       /\ Forall2 (fun topic i => subscript topic "id" = Ok i)
            (firstn (List.length deleted) two_topics) deleted
       /\ (Ok tt = Ok tt -> List.length deleted = List.length two_topics).
Proof.
  assert (_delete_existing_topics (listing_of two_topics)
            (known 1 doc_plain no_disk)
          = (Ok tt,
             snd (_delete_existing_topics (listing_of two_topics)
                    (known 1 doc_plain no_disk)))) as H
    by (vm_compute; reflexivity).
  split; [split; [reflexivity | split; [reflexivity | exact H]]|].
  apply (delete_existing_topics_deletes_listed (listing_of two_topics)
           (known 1 doc_plain no_disk) (Ok tt) _
           (mkResponse true (Some (data (VList two_topics))) []) two_topics
           eq_refl eq_refl H).
Defined.

(** Two listed files: none of them on disk, and both of them on disk. *)
Lemma create_all_files_all_or_nothing_witness :
  (dict_get (doc (known 1 doc_two_files no_disk)) "files"
   = Some (VList (map VStr ["a.txt"; "b.txt"]))
   /\ forall f,
        In f ["a.txt"; "b.txt"] ->
        (forall c, disk (known 1 doc_two_files no_disk) f <> Some (File c)) ->
        _create_all_files accepting (known 1 doc_two_files no_disk)
        = (Raise OSError, known 1 doc_two_files no_disk))
  /\ (dict_get
        (doc (known 1 doc_two_files
                (two_on_disk (of_string "A") (of_string "B")))) "files"
      = Some (VList (map VStr ["a.txt"; "b.txt"]))
      /\ forall contents,
           Forall2
             (fun f c =>
                disk (known 1 doc_two_files
                        (two_on_disk (of_string "A") (of_string "B"))) f
                = Some (File c))
             ["a.txt"; "b.txt"] contents ->
           snd (_create_all_files accepting
                  (known 1 doc_two_files
                     (two_on_disk (of_string "A") (of_string "B"))))
           = add_call
               (POST (Url "/api/v1/files")
                  (Multipart (combine ["a.txt"; "b.txt"] contents)
                     (VDict [("challenge_id",
                              challenge_id
                                (known 1 doc_two_files
                                   (two_on_disk (of_string "A")
                                      (of_string "B"))));
                             ("type", VStr "challenge")])))
               (known 1 doc_two_files
                  (two_on_disk (of_string "A") (of_string "B")))).
Proof.
  split.
  - split; [reflexivity|].
    apply (proj1 (create_all_files_all_or_nothing accepting
                    ["a.txt"; "b.txt"] (known 1 doc_two_files no_disk)
                    eq_refl)).
  - split; [reflexivity|].
    apply (proj2 (create_all_files_all_or_nothing accepting
                    ["a.txt"; "b.txt"]
                    (known 1 doc_two_files
                       (two_on_disk (of_string "A") (of_string "B")))
                    eq_refl)).
Defined.

Lemma in_order_enumerates (l : list string) (k : string) :
  In k (in_order l) <-> In k l.
Proof. reflexivity. Qed.

(** A document with three default values and with a key that [key_order]
    does not name. *)
Lemma save_keeps_what_is_not_default_witness :
  (forall l k, In k (in_order l) <-> In k l)
  /\ exists s,
       sorted_challenge_dict in_order doc_defaults = Ok s
       /\ forall k, dict_get s k = kept doc_defaults k.
Proof.
  split; [exact in_order_enumerates|].
  apply (save_keeps_what_is_not_default in_order in_order_enumerates
           doc_defaults).
Defined.

Lemma save_orders_known_keys_first_witness :
  ((forall l k, In k (in_order l) <-> In k l)
   /\ sorted_challenge_dict in_order doc_defaults
      = Ok [("name", VStr "chal"); ("value", VInt 100);
            ("x-note", VStr "n")])
  /\ exists others,
       dict_keys [("name", VStr "chal"); ("value", VInt 100);
                  ("x-note", VStr "n")]
       = filter (is_kept doc_defaults) (distinct key_order) ++ others
       /\ forall k, In k others -> is_key k key_order = false.
Proof.
  split; [split; [exact in_order_enumerates | reflexivity]|].
  apply (save_orders_known_keys_first in_order in_order_enumerates
           doc_defaults _ eq_refl).
Defined.

(** [mirror] of a challenge whose document keeps its file in [src], while
    the remote has it as [aa/a.txt]. *)
Lemma mirror_downloads_into_directory_witness :
  (ignored [] "files" = false
   /\ mirror (serving (challenge 0 [VStr "/files/aa/a.txt?token=t"]) [])
        toy_mkdir toy_write_bytes toy_write_yaml in_order "dist" []
        (start doc_src_file no_disk)
      = (Ok tt,
         snd (mirror
                (serving (challenge 0 [VStr "/files/aa/a.txt?token=t"]) [])
                toy_mkdir toy_write_bytes toy_write_yaml in_order "dist" []
                (start doc_src_file no_disk))))
  /\ exists id r rc rf urls names contents earlier d kept s,
       serving (challenge 0 [VStr "/files/aa/a.txt?token=t"]) []
         (detail id :: listing :: calls (start doc_src_file no_disk))
       = Responded r
       /\ response_data r = Some rc
       /\ py_get rc "files" VNone = Ok rf
       /\ py_iter (py_or rf (VList [])) = Ok (map VStr urls)
       /\ Res.mapM remote_base_name (map VStr urls) = Ok names
       /\ calls (snd (mirror
                        (serving
                           (challenge 0 [VStr "/files/aa/a.txt?token=t"]) [])
                        toy_mkdir toy_write_bytes toy_write_yaml in_order
                        "dist" [] (start doc_src_file no_disk)))
          = downloads_of urls ++ earlier ++ detail id :: listing
            :: calls (start doc_src_file no_disk)
       /\ fetched (serving (challenge 0 [VStr "/files/aa/a.txt?token=t"]) [])
            urls
            (earlier ++ detail id :: listing
             :: calls (start doc_src_file no_disk))
          = Some contents
       /\ stored toy_mkdir toy_write_bytes "dist" (combine names contents)
            (disk (start doc_src_file no_disk))
          = Some d
       /\ present_remotely names (below "dist" names) = Ok kept
       /\ dict_get
            (doc (snd (mirror
                         (serving
                            (challenge 0 [VStr "/files/aa/a.txt?token=t"])
                            [])
                         toy_mkdir toy_write_bytes toy_write_yaml in_order
                         "dist" [] (start doc_src_file no_disk))))
            "files"
          = Some (VList kept)
       /\ sorted_challenge_dict in_order
            (doc (snd (mirror
                         (serving
                            (challenge 0 [VStr "/files/aa/a.txt?token=t"])
                            [])
                         toy_mkdir toy_write_bytes toy_write_yaml in_order
                         "dist" [] (start doc_src_file no_disk))))
          = Ok s
       /\ toy_write_yaml s d
          = Saved (disk (snd (mirror
                                (serving
                                   (challenge 0
                                      [VStr "/files/aa/a.txt?token=t"]) [])
                                toy_mkdir toy_write_bytes toy_write_yaml
                                in_order "dist" []
                                (start doc_src_file no_disk)))).
Proof.
  assert (mirror (serving (challenge 0 [VStr "/files/aa/a.txt?token=t"]) [])
            toy_mkdir toy_write_bytes toy_write_yaml in_order "dist" []
            (start doc_src_file no_disk)
          = (Ok tt,
             snd (mirror
                    (serving (challenge 0 [VStr "/files/aa/a.txt?token=t"])
                       [])
                    toy_mkdir toy_write_bytes toy_write_yaml in_order "dist"
                    [] (start doc_src_file no_disk)))) as H
    by (vm_compute; reflexivity).
  split; [split; [reflexivity | exact H]|].
  apply (mirror_downloads_into_directory
           (serving (challenge 0 [VStr "/files/aa/a.txt?token=t"]) [])
           toy_mkdir toy_write_bytes toy_write_yaml in_order "dist" []
           (start doc_src_file no_disk) _ eq_refl H).
Defined.

(** The run of [mirror] above: the file that the document kept in [src] is
    now listed, and stored, in [dist]. *)
Example mirror_moves_file_to_directory :
  dict_get doc_src_file "files" = Some (VList [VStr "src/a.txt"])
  /\ dict_get
       (doc (snd (mirror
                    (serving (challenge 0 [VStr "/files/aa/a.txt?token=t"])
                       [])
                    toy_mkdir toy_write_bytes toy_write_yaml in_order "dist"
                    [] (start doc_src_file no_disk))))
       "files"
     = Some (VList [VStr "dist/a.txt"])
  /\ disk (snd (mirror
                  (serving (challenge 0 [VStr "/files/aa/a.txt?token=t"]) [])
                  toy_mkdir toy_write_bytes toy_write_yaml in_order "dist"
                  [] (start doc_src_file no_disk)))
       "dist/a.txt"
     = Some (File [])
  /\ disk (snd (mirror
                  (serving (challenge 0 [VStr "/files/aa/a.txt?token=t"]) [])
                  toy_mkdir toy_write_bytes toy_write_yaml in_order "dist"
                  [] (start doc_src_file no_disk)))
       "src/a.txt"
     = None.
Proof. vm_compute. repeat split. Qed.


Lemma hinting_contents_are_text : hint_contents_are_text hinting.
Proof.
  intros history id r entries entry c Hr Hl He Hc.
  cbn in Hr. injection Hr as <-.
  cbn in Hl. injection Hl as <-.
  destruct He as [<-|[]]. cbn in Hc. now injection Hc as <-.
Qed.

(** A document with a titled hint, against a remote that has stored that
    very hint. *)
Lemma verify_rejects_hint_with_title_witness :
  (ignored [] "hints" = false
   /\ dict_get (doc (start doc_titled_hint no_disk)) "hints"
      = Some (VList [VDict titled_hint])
   /\ In (VDict titled_hint) [VDict titled_hint]
   /\ dict_mem titled_hint "title" = true
   /\ hint_contents_are_text hinting
   /\ verify hinting toy_hash [] (start doc_titled_hint no_disk)
      = (Ok false,
         snd (verify hinting toy_hash [] (start doc_titled_hint no_disk))))
  /\ false = false
  /\ diagnosed (start doc_titled_hint no_disk)
       (snd (verify hinting toy_hash [] (start doc_titled_hint no_disk))).
Proof.
  assert (verify hinting toy_hash [] (start doc_titled_hint no_disk)
          = (Ok false,
             snd (verify hinting toy_hash []
                    (start doc_titled_hint no_disk)))) as H
    by (vm_compute; reflexivity).
  split.
  { split; [reflexivity|]. split; [reflexivity|].
    split; [left; reflexivity|]. split; [reflexivity|].
    split; [exact hinting_contents_are_text | exact H]. }
  apply (verify_rejects_hint_with_title hinting toy_hash []
           [VDict titled_hint] titled_hint (start doc_titled_hint no_disk)
           false _ eq_refl eq_refl (or_introl eq_refl) eq_refl
           hinting_contents_are_text H).
Defined.

(** The file stored at [aa/a.txt], on a remote that stores two files. *)
Lemma delete_file_deletes_files_at_location_witness :
  (two_files VNone VNone (files_listing :: calls (start doc_plain no_disk))
   = Responded
       (mkResponse true (Some (data (VList (stored_two VNone VNone)))) [])
   /\ listed
        (mkResponse true (Some (data (VList (stored_two VNone VNone)))) [])
      = Some (stored_two VNone VNone)
   /\ _delete_file (two_files VNone VNone) "aa/a.txt"
        (start doc_plain no_disk)
      = (Ok tt,
         snd (_delete_file (two_files VNone VNone) "aa/a.txt"
                (start doc_plain no_disk))))
  /\ exists deleted,
       calls (snd (_delete_file (two_files VNone VNone) "aa/a.txt"
                     (start doc_plain no_disk)))
       = deletions "/api/v1/files" deleted
         ++ files_listing :: calls (start doc_plain no_disk)
       /\ (forall i, In i deleted ->
             exists entry,
               In entry (stored_two VNone VNone)
               /\ file_at "aa/a.txt" entry i)
       /\ (Ok tt = Ok tt ->
           forall entry l,
             In entry (stored_two VNone VNone) ->
             subscript entry "location" = Ok l ->
             py_eq l (VStr "aa/a.txt") = true ->
             exists i, subscript entry "id" = Ok i /\ In i deleted).
Proof.
  assert (_delete_file (two_files VNone VNone) "aa/a.txt"
            (start doc_plain no_disk)
          = (Ok tt,
             snd (_delete_file (two_files VNone VNone) "aa/a.txt"
                    (start doc_plain no_disk)))) as H
    by (vm_compute; reflexivity).
  split; [split; [reflexivity | split; [reflexivity | exact H]]|].
  apply (delete_file_deletes_files_at_location (two_files VNone VNone)
           "aa/a.txt" (start doc_plain no_disk) (Ok tt) _
           (mkResponse true (Some (data (VList (stored_two VNone VNone)))) [])
           (stored_two VNone VNone) eq_refl eq_refl H).
Defined.
